(** * Resilient cached invocation layer of the travel assistant

    A shallow embedding of [src/utils/cache_manager.py] (class
    [CacheManager]) and of the invocation path of [src/utils/api_utils.py]
    ([count_tokens], [optimize_prompt], [call_openai_api]), followed by the
    properties of the specification stated over it.

    Conventions of the embedding.
    - A Python [str] is a [string]; its characters are the code points
      0..255.  [str.encode()] is UTF-8.
    - A Python [float] is an exact rational ([Q]): [len(words) * 1.3] is
      [n * 13/10], [int(x)] truncates toward zero.  Binary64 rounding is not
      modelled.
    - Timestamps are integers (seconds); comparing two [isoformat()] strings
      compares the instants.
    - Exceptions are values of [exn]; a computation returns an [outcome]. *)

From Stdlib Require Import List String Ascii Bool Arith ZArith NArith Lia.
From Stdlib Require Import QArith Qround Lqa Permutation DecimalString DecimalN.
Import ListNotations.

Local Close Scope Q_scope.
Local Open Scope nat_scope.
Local Open Scope string_scope.

(** ** Exceptions and outcomes *)

Inductive exn : Type :=
| ZeroDivisionError
| SqliteError (msg : string)   (* sqlite3.Error *)
| OSError (msg : string)       (* open() failing *)
| JSONDecodeError              (* json.load on a corrupt file *)
| RemoteError (msg : string).  (* anything the remote client raises *)

Inductive outcome (A : Type) : Type :=
| Ok (a : A)
| Raise (e : exn).

Arguments Ok {A} a.
Arguments Raise {A} e.

(** [str(e)] *)
Definition exn_str (e : exn) : string :=
  match e with
  | ZeroDivisionError => "division by zero"
  | SqliteError msg => msg
  | OSError msg => msg
  | JSONDecodeError => "Expecting value"
  | RemoteError msg => msg
  end.

(** ** Python string operations *)

Module PyStr.

(** [str.isspace] on the code points 0..255. *)
Definition is_space (c : ascii) : bool :=
  let n := nat_of_ascii c in
  ((9 <=? n)%nat && (n <=? 13)%nat) || ((28 <=? n)%nat && (n <=? 32)%nat)
  || (n =? 133)%nat || (n =? 160)%nat.

Definition snoc (s : string) (c : ascii) : string := s ++ String c "".

Definition flush (cur : string) : list string :=
  match cur with
  | "" => []
  | _ => [cur]
  end.

(** [s.split()] scanning [s] with the word read so far in [cur]. *)
Fixpoint split_from (s cur : string) : list string :=
  match s with
  | "" => flush cur
  | String c s' =>
      if is_space c then flush cur ++ split_from s' ""
      else split_from s' (snoc cur c)
  end.

(** [s.split()]: the maximal runs of non-whitespace characters. *)
Definition split (s : string) : list string := split_from s "".

(** [sep.join(ws)] *)
Fixpoint join (sep : string) (ws : list string) : string :=
  match ws with
  | [] => ""
  | [w] => w
  | w :: ws' => w ++ sep ++ join sep ws'
  end.

(** [xs[:k]] for an integer [k] of either sign. *)
Definition slice_to {A} (xs : list A) (k : Z) : list A :=
  if (0 <=? k)%Z then firstn (Z.to_nat k) xs
  else firstn (List.length xs - Z.to_nat (- k)) xs.

Fixpoint no_space (s : string) : bool :=
  match s with
  | "" => true
  | String c s' => negb (is_space c) && no_space s'
  end.

(** A word: non-empty and free of whitespace. *)
Definition word (s : string) : Prop := s <> "" /\ no_space s = true.

End PyStr.

(** ** Token budgeter ([count_tokens], [optimize_prompt]) *)

(** The optional exact tokenizer: [tiktoken_available] and, for a model name
    and a text, the number of tokens of [encoding.encode(text)], or [None]
    when [tiktoken] raises. *)
Record Tokenizer : Type := {
  tiktoken_available : bool;
  tiktoken_count : string -> string -> option nat
}.

Definition no_tiktoken : Tokenizer :=
  {| tiktoken_available := false; tiktoken_count := fun _ _ => None |}.

(** [int(x)] on a float. *)
Definition py_int (x : Q) : Z :=
  if Qle_bool 0 x then Qfloor x else Qceiling x.

(** [len(xs)] as a number. *)
Definition len {A} (xs : list A) : Q := inject_Z (Z.of_nat (List.length xs)).

Definition approx_tokens (text : string) : Q :=
  (len (PyStr.split text) * (13 # 10))%Q.

Definition count_tokens (T : Tokenizer) (text : string) (model : string) : Q :=
  if tiktoken_available T then
    match tiktoken_count T model text with
    | Some n => inject_Z (Z.of_nat n)
    | None => approx_tokens text
    end
  else approx_tokens text.

Definition default_model : string := "gpt-3.5-turbo".

Definition truncation_note : string :=
  String (ascii_of_nat 10) (String (ascii_of_nat 10)
    "[Note: The original prompt was truncated to fit within token limits.]").

Definition optimize_prompt (T : Tokenizer) (prompt : string) (max_tokens : Q)
  : outcome string :=
  let current_tokens := count_tokens T prompt default_model in
  if Qle_bool current_tokens max_tokens then Ok prompt
  else if Qeq_bool current_tokens 0 then Raise ZeroDivisionError
  else
    let ratio := (max_tokens / current_tokens)%Q in
    let words := PyStr.split prompt in
    let new_length := (py_int (len words * ratio) - 20)%Z in
    Ok (PyStr.join " " (PyStr.slice_to words new_length) ++ truncation_note).

(** ** JSON-like values and [json.dumps] *)

(** A Python value of the JSON kind.  A [dict] is its items in insertion
    order (the keys are strings, pairwise distinct); a [float] is carried by
    its [repr]. *)
#[warnings="-register-all"]
Inductive json : Type :=
| JNull
| JBool (b : bool)
| JInt (z : Z)
| JFloat (repr : string)
| JStr (s : string)
| JList (l : list json)
| JDict (items : list (string * json)).

(** [bool(v)] *)
Definition truthy (v : json) : bool :=
  match v with
  | JNull => false
  | JBool b => b
  | JInt z => negb (z =? 0)%Z
  | JFloat r => negb (String.eqb r "0.0" || String.eqb r "-0.0")
  | JStr s => negb (String.eqb s "")
  | JList l => match l with [] => false | _ => true end
  | JDict d => match d with [] => false | _ => true end
  end.

Module Json.

Definition hex_digit (n : nat) : ascii :=
  if (n <? 10)%nat then ascii_of_nat (48 + n) else ascii_of_nat (87 + n).

(** One character of a string literal, as [ensure_ascii=True] writes it. *)
Definition escape_char (c : ascii) : string :=
  let n := nat_of_ascii c in
  if (n =? 34)%nat then String "\" (String c "")
  else if (n =? 92)%nat then "\\"
  else if (n =? 10)%nat then "\n"
  else if (n =? 13)%nat then "\r"
  else if (n =? 9)%nat then "\t"
  else if (n =? 8)%nat then "\b"
  else if (n =? 12)%nat then "\f"
  else if ((32 <=? n)%nat && (n <=? 126)%nat)%bool then String c ""
  else "\u00" ++ String (hex_digit (n / 16)) (String (hex_digit (n mod 16)) "").

Fixpoint escape (s : string) : string :=
  match s with
  | "" => ""
  | String c s' => escape_char c ++ escape s'
  end.

Definition quote (s : string) : string :=
  String (ascii_of_nat 34) (escape s ++ String (ascii_of_nat 34) "").

Definition int_str (z : Z) : string :=
  NilZero.string_of_int (Z.to_int z).

(** Insertion of an item before the first one whose key is not smaller. *)
Fixpoint insert_item {A} (kv : string * A) (l : list (string * A))
  : list (string * A) :=
  match l with
  | [] => [kv]
  | kv' :: l' =>
      if String.leb (fst kv) (fst kv') then kv :: l
      else kv' :: insert_item kv l'
  end.

(** [sorted(d.items())]: the keys of a [dict] are distinct, so the items are
    ordered by key alone. *)
Fixpoint sort_items {A} (l : list (string * A)) : list (string * A) :=
  match l with
  | [] => []
  | kv :: l' => insert_item kv (sort_items l')
  end.

Definition render_item (kv : string * string) : string :=
  quote (fst kv) ++ ": " ++ snd kv.

(** [json.dumps(v, sort_keys=sort_keys)] with the default separators.  The
    values of a [dict] are rendered before the items are ordered; the order
    looks at the keys only. *)
Fixpoint dumps (sort_keys : bool) (v : json) : string :=
  match v with
  | JNull => "null"
  | JBool true => "true"
  | JBool false => "false"
  | JInt z => int_str z
  | JFloat r => r
  | JStr s => quote s
  | JList l => "[" ++ PyStr.join ", " (map (dumps sort_keys) l) ++ "]"
  | JDict d =>
      let rendered := map (fun kv => (fst kv, dumps sort_keys (snd kv))) d in
      let items := if sort_keys then sort_items rendered else rendered in
      "{" ++ PyStr.join ", " (map render_item items) ++ "}"
  end.

End Json.

(** Structural equality of two values, as [==] on [dict] and [list]: the items
    of two equal [dict] are the same up to their order. *)
#[warnings="-register-all"]
Inductive json_equiv : json -> json -> Prop :=
| equiv_null : json_equiv JNull JNull
| equiv_bool b : json_equiv (JBool b) (JBool b)
| equiv_int z : json_equiv (JInt z) (JInt z)
| equiv_float r : json_equiv (JFloat r) (JFloat r)
| equiv_str s : json_equiv (JStr s) (JStr s)
| equiv_list l1 l2 :
    Forall2 json_equiv l1 l2 -> json_equiv (JList l1) (JList l2)
| equiv_dict d1 d2 d2' :
    Permutation d2' d2 ->
    Forall2 (fun kv1 kv2 => fst kv1 = fst kv2 /\ json_equiv (snd kv1) (snd kv2))
            d1 d2' ->
    json_equiv (JDict d1) (JDict d2).

(** The keys of every [dict] of a value are pairwise distinct. *)
#[warnings="-register-all"]
Inductive wf_json : json -> Prop :=
| wf_null : wf_json JNull
| wf_bool b : wf_json (JBool b)
| wf_int z : wf_json (JInt z)
| wf_float r : wf_json (JFloat r)
| wf_str s : wf_json (JStr s)
| wf_list l : Forall wf_json l -> wf_json (JList l)
| wf_dict d :
    NoDup (map fst d) -> Forall (fun kv => wf_json (snd kv)) d ->
    wf_json (JDict d).

(** ** [str.encode()] and [hashlib.md5] *)

(** UTF-8 of the code points 0..255, a byte being an integer in [0, 256). *)
Definition encode_char (c : ascii) : list Z :=
  let n := Z.of_nat (nat_of_ascii c) in
  if (n <? 128)%Z then [n]
  else [Z.lor 192 (Z.shiftr n 6); Z.lor 128 (Z.land n 63)].

Fixpoint encode (s : string) : list Z :=
  match s with
  | "" => []
  | String c s' => encode_char c ++ encode s'
  end.

(** MD5 (RFC 1321) over 32-bit words held in [Z]. *)
Module MD5.

Local Open Scope Z_scope.

Definition w32 : Z := 2 ^ 32.
Definition add32 (x y : Z) : Z := (x + y) mod w32.
Definition not32 (x : Z) : Z := Z.lxor x (w32 - 1).
Definition rotl32 (x s : Z) : Z :=
  Z.lor (Z.shiftl x s mod w32) (Z.shiftr x (32 - s)).

Definition K : list Z :=
  [ 0xd76aa478; 0xe8c7b756; 0x242070db; 0xc1bdceee;
    0xf57c0faf; 0x4787c62a; 0xa8304613; 0xfd469501;
    0x698098d8; 0x8b44f7af; 0xffff5bb1; 0x895cd7be;
    0x6b901122; 0xfd987193; 0xa679438e; 0x49b40821;
    0xf61e2562; 0xc040b340; 0x265e5a51; 0xe9b6c7aa;
    0xd62f105d; 0x02441453; 0xd8a1e681; 0xe7d3fbc8;
    0x21e1cde6; 0xc33707d6; 0xf4d50d87; 0x455a14ed;
    0xa9e3e905; 0xfcefa3f8; 0x676f02d9; 0x8d2a4c8a;
    0xfffa3942; 0x8771f681; 0x6d9d6122; 0xfde5380c;
    0xa4beea44; 0x4bdecfa9; 0xf6bb4b60; 0xbebfbc70;
    0x289b7ec6; 0xeaa127fa; 0xd4ef3085; 0x04881d05;
    0xd9d4d039; 0xe6db99e5; 0x1fa27cf8; 0xc4ac5665;
    0xf4292244; 0x432aff97; 0xab9423a7; 0xfc93a039;
    0x655b59c3; 0x8f0ccc92; 0xffeff47d; 0x85845dd1;
    0x6fa87e4f; 0xfe2ce6e0; 0xa3014314; 0x4e0811a1;
    0xf7537e82; 0xbd3af235; 0x2ad7d2bb; 0xeb86d391 ].

Definition shifts : list Z :=
  [ 7; 12; 17; 22; 7; 12; 17; 22; 7; 12; 17; 22; 7; 12; 17; 22;
    5; 9; 14; 20; 5; 9; 14; 20; 5; 9; 14; 20; 5; 9; 14; 20;
    4; 11; 16; 23; 4; 11; 16; 23; 4; 11; 16; 23; 4; 11; 16; 23;
    6; 10; 15; 21; 6; 10; 15; 21; 6; 10; 15; 21; 6; 10; 15; 21 ].

(** The chaining value [(a, b, c, d)]. *)
Record state : Type := mkState { sa : Z; sb : Z; sc : Z; sd : Z }.

Definition init : state :=
  mkState 0x67452301 0xefcdab89 0x98badcfe 0x10325476.

(** One of the 64 operations on the message words [m]. *)
Definition step (m : list Z) (st : state) (i : nat) : state :=
  let '(mkState a b c d) := st in
  let r := (i / 16)%nat in
  let f :=
    match r with
    | 0%nat => Z.lor (Z.land b c) (Z.land (not32 b) d)
    | 1%nat => Z.lor (Z.land d b) (Z.land (not32 d) c)
    | 2%nat => Z.lxor (Z.lxor b c) d
    | _ => Z.lxor c (Z.lor b (not32 d))
    end in
  let g :=
    match r with
    | 0%nat => i
    | 1%nat => ((5 * i + 1) mod 16)%nat
    | 2%nat => ((3 * i + 5) mod 16)%nat
    | _ => ((7 * i) mod 16)%nat
    end in
  let f' := add32 (add32 (add32 f a) (nth i K 0)) (nth g m 0) in
  mkState d (add32 b (rotl32 f' (nth i shifts 0))) b c.

Definition compress (st : state) (m : list Z) : state :=
  let st' := fold_left (step m) (seq 0 64) st in
  mkState (add32 (sa st) (sa st')) (add32 (sb st) (sb st'))
          (add32 (sc st) (sc st')) (add32 (sd st) (sd st')).

(** Little-endian bytes of a number, [n] of them. *)
Fixpoint le_bytes (n : nat) (x : Z) : list Z :=
  match n with
  | O => []
  | S n' => (x mod 256) :: le_bytes n' (x / 256)
  end.

Fixpoint of_le_bytes (bs : list Z) : Z :=
  match bs with
  | [] => 0
  | b :: bs' => b + 256 * of_le_bytes bs'
  end.

(** The message followed by the bit 1, zeros up to 56 modulo 64, and the
    length in bits on 64 bits. *)
Definition pad (msg : list Z) : list Z :=
  let n := List.length msg in
  let zeros := ((119 - n mod 64) mod 64)%nat in
  msg ++ [128] ++ repeat 0 zeros
      ++ le_bytes 8 ((Z.of_nat n * 8) mod 2 ^ 64).

(** The 32-bit words of a byte list, four bytes each. *)
Fixpoint words (fuel : nat) (bs : list Z) : list Z :=
  match fuel, bs with
  | S fuel', _ :: _ => of_le_bytes (firstn 4 bs) :: words fuel' (skipn 4 bs)
  | _, _ => []
  end.

(** The 16-word blocks of a word list. *)
Fixpoint blocks (fuel : nat) (ws : list Z) : list (list Z) :=
  match fuel, ws with
  | S fuel', _ :: _ => firstn 16 ws :: blocks fuel' (skipn 16 ws)
  | _, _ => []
  end.

Definition digest_state (msg : list Z) : state :=
  let bs := pad msg in
  let ws := words (List.length bs) bs in
  fold_left compress (blocks (List.length ws) ws) init.

Definition hex_byte (b : Z) : string :=
  let n := Z.to_nat b in
  String (Json.hex_digit (n / 16)) (String (Json.hex_digit (n mod 16)) "").

Definition hex_word (w : Z) : string :=
  String.concat "" (map hex_byte (le_bytes 4 w)).

(** [hashlib.md5(msg).hexdigest()] *)
Definition hexdigest (msg : list Z) : string :=
  let st := digest_state msg in
  hex_word (sa st) ++ hex_word (sb st) ++ hex_word (sc st) ++ hex_word (sd st).

(** The four words of a chaining value are 32-bit words. *)
Definition in_range (st : state) : Prop :=
  0 <= sa st < w32 /\ 0 <= sb st < w32 /\ 0 <= sc st < w32 /\ 0 <= sd st < w32.

(** A chaining value as a number below [2 ^ 128]. *)
Definition pack (st : state) : Z :=
  sa st + w32 * (sb st + w32 * (sc st + w32 * sd st)).

End MD5.

(** ** Fingerprinter ([CacheManager._generate_key]) *)

(** The [query_data] argument: a [dict], or any other object, which is then
    used through its [str()]. *)
Inductive query_data : Type :=
| QDict (items : list (string * json))
| QOther (str : string).

Definition query_string (q : query_data) (api_type : string) : string :=
  let query_string :=
    match q with
    | QDict items => Json.dumps true (JDict items)
    | QOther str => str
    end in
  api_type ++ ":" ++ query_string.

Definition _generate_key (q : query_data) (api_type : string) : string :=
  MD5.hexdigest (encode (query_string q api_type)).

(** ** The world the invocation path runs in *)

(** A row of the table [api_cache].  The column [response_data] holds
    [json.dumps(v)] and is read back through [json.loads]; the pair is the
    identity on JSON values, so the row carries [v]. *)
Record row : Type := mkRow {
  response_data : json;
  api_type_col : string;
  expires_at : Z
}.

(** A file [<query_hash>.json] of the cache directory: the object
    [{'response': .., 'expires_at': ..}] written by [_save_to_file_cache], or
    content from which [json.load] and the two [get] yield nothing usable. *)
Inductive cache_file : Type :=
| FileEntry (response : json) (file_expires_at : Z)
| FileCorrupt.

(** A request to [chat.completions.create]. *)
Record request : Type := mkRequest {
  req_model : string;
  req_messages : list (string * string);
  req_temperature : json;
  req_max_tokens : Z
}.

(** The fixed behaviour of the collaborators.  [remote n r] is what the
    [n]-th remote call does on request [r]: the content of the first choice,
    or an exception.  [db_fault n] is the error, if any, raised by the [n]-th
    database operation (connect, execute, commit); [fs_fault n] tells whether
    the [n]-th [open()] of a cache file fails. *)
Record Env : Type := {
  openai_available : bool;
  tokenizer : Tokenizer;
  remote : nat -> request -> outcome json;
  db_fault : nat -> option string;
  fs_fault : nat -> bool
}.

Section World.

(** The state of the progress observer. *)
Variable Obs : Type.

Record World : Type := mkWorld {
  api_cache : list (string * row);        (* the durable store *)
  cache_dir : list (string * cache_file); (* the fallback store *)
  now : Z;                                (* wall clock, in seconds *)
  db_ops : nat;                           (* database operations so far *)
  fs_ops : nat;                           (* cache files opened so far *)
  conn_opened : nat;                      (* connections obtained so far *)
  conn_closed : nat;                      (* connections closed so far *)
  remote_calls : nat;                     (* remote calls so far *)
  observer : Obs
}.

Definition set_api_cache (t : list (string * row)) (w : World) : World :=
  mkWorld t (cache_dir w) (now w) (db_ops w) (fs_ops w) (conn_opened w)
          (conn_closed w) (remote_calls w) (observer w).
Definition set_cache_dir (d : list (string * cache_file)) (w : World) : World :=
  mkWorld (api_cache w) d (now w) (db_ops w) (fs_ops w) (conn_opened w)
          (conn_closed w) (remote_calls w) (observer w).
Definition set_now (t : Z) (w : World) : World :=
  mkWorld (api_cache w) (cache_dir w) t (db_ops w) (fs_ops w) (conn_opened w)
          (conn_closed w) (remote_calls w) (observer w).
Definition tick_db (w : World) : World :=
  mkWorld (api_cache w) (cache_dir w) (now w) (S (db_ops w)) (fs_ops w)
          (conn_opened w) (conn_closed w) (remote_calls w) (observer w).
Definition tick_fs (w : World) : World :=
  mkWorld (api_cache w) (cache_dir w) (now w) (db_ops w) (S (fs_ops w))
          (conn_opened w) (conn_closed w) (remote_calls w) (observer w).
Definition tick_opened (w : World) : World :=
  mkWorld (api_cache w) (cache_dir w) (now w) (db_ops w) (fs_ops w)
          (S (conn_opened w)) (conn_closed w) (remote_calls w) (observer w).
Definition tick_closed (w : World) : World :=
  mkWorld (api_cache w) (cache_dir w) (now w) (db_ops w) (fs_ops w)
          (conn_opened w) (S (conn_closed w)) (remote_calls w) (observer w).
Definition tick_remote (w : World) : World :=
  mkWorld (api_cache w) (cache_dir w) (now w) (db_ops w) (fs_ops w)
          (conn_opened w) (conn_closed w) (S (remote_calls w)) (observer w).
Definition set_observer (o : Obs) (w : World) : World :=
  mkWorld (api_cache w) (cache_dir w) (now w) (db_ops w) (fs_ops w)
          (conn_opened w) (conn_closed w) (remote_calls w) o.

(** Connections obtained and not yet closed. *)
Definition live_connections (w : World) : nat := conn_opened w - conn_closed w.

(** *** Computations: state passing with exceptions *)

Definition M (A : Type) : Type := World -> outcome A * World.

Definition ret {A} (a : A) : M A := fun w => (Ok a, w).
Definition raise {A} (e : exn) : M A := fun w => (Raise e, w).
Definition bind {A B} (m : M A) (k : A -> M B) : M B :=
  fun w =>
    match m w with
    | (Ok a, w') => k a w'
    | (Raise e, w') => (Raise e, w')
    end.

(** [try: m  except: h] *)
Definition try_except {A} (m : M A) (h : exn -> M A) : M A :=
  fun w =>
    match m w with
    | (Ok a, w') => (Ok a, w')
    | (Raise e, w') => h e w'
    end.

(** [try: m  finally: f] *)
Definition try_finally {A} (m : M A) (f : M unit) : M A :=
  fun w =>
    let (r, w') := m w in
    match f w' with
    | (Ok _, w'') => (r, w'')
    | (Raise e, w'') => (Raise e, w'')
    end.

Definition lift {A} (r : outcome A) : M A := fun w => (r, w).

End World.

Arguments mkWorld {Obs}.
Arguments api_cache {Obs}.
Arguments cache_dir {Obs}.
Arguments now {Obs}.
Arguments db_ops {Obs}.
Arguments fs_ops {Obs}.
Arguments conn_opened {Obs}.
Arguments conn_closed {Obs}.
Arguments remote_calls {Obs}.
Arguments observer {Obs}.
Arguments set_api_cache {Obs}.
Arguments set_cache_dir {Obs}.
Arguments set_now {Obs}.
Arguments tick_db {Obs}.
Arguments tick_fs {Obs}.
Arguments tick_opened {Obs}.
Arguments tick_closed {Obs}.
Arguments tick_remote {Obs}.
Arguments set_observer {Obs}.
Arguments live_connections {Obs}.
Arguments ret {Obs A}.
Arguments raise {Obs A}.
Arguments bind {Obs A B}.
Arguments try_except {Obs A}.
Arguments try_finally {Obs A}.
Arguments lift {Obs A}.

Declare Scope py_scope.
Delimit Scope py_scope with py.
Notation "x <- m ;; k" := (bind m (fun x => k))
  (at level 61, m at next level, right associativity) : py_scope.
Notation "m ;; k" := (bind m (fun _ => k))
  (at level 61, right associativity) : py_scope.

(** [str(n)] *)
Definition nat_str (n : nat) : string := NilZero.string_of_uint (Nat.to_uint n).

(** ** Association lists keyed by the query hash *)

Fixpoint lookup {A} (k : string) (l : list (string * A)) : option A :=
  match l with
  | [] => None
  | (k', a) :: l' => if String.eqb k k' then Some a else lookup k l'
  end.

(** Replace the value of [k] by [f] of it, or append [(k, a)]. *)
Fixpoint upsert {A} (k : string) (a : A) (f : A -> A) (l : list (string * A))
  : list (string * A) :=
  match l with
  | [] => [(k, a)]
  | (k', a') :: l' =>
      if String.eqb k k' then (k', f a') :: l' else (k', a') :: upsert k a f l'
  end.

(** ** Cache facade ([CacheManager]) and resilient invoker *)

Section Invocation.

Variable Obs : Type.
Variable E : Env.

Local Open Scope py_scope.

Local Abbreviation Py := (M Obs).

(** [datetime.now()] *)
Definition datetime_now : Py Z := fun w => (Ok (now w), w).

(** [time.sleep(d)] *)
Definition sleep (d : Z) : Py unit := fun w => (Ok tt, set_now (now w + d)%Z w).

(** A database operation: it raises [sqlite3.Error] when the store is at
    fault. *)
Definition db_operation : Py unit :=
  fun w =>
    match db_fault E (db_ops w) with
    | Some msg => (Raise (SqliteError msg), tick_db w)
    | None => (Ok tt, tick_db w)
    end.

(** [get_db_connection()]: the handle is the rank of the connection. *)
Definition get_db_connection : Py nat :=
  db_operation ;;
  fun w => (Ok (conn_opened w), tick_opened w).

(** [conn.close()] *)
Definition conn_close (conn : nat) : Py unit := fun w => (Ok tt, tick_closed w).

(** [SELECT response_data, expires_at FROM api_cache
     WHERE query_hash = ? AND expires_at > ?] followed by [fetchone()]. *)
Definition execute_select (query_hash : string) (t : Z) : Py (option row) :=
  db_operation ;;
  fun w =>
    match lookup query_hash (api_cache w) with
    | Some r => if (t <? expires_at r)%Z then (Ok (Some r), w) else (Ok None, w)
    | None => (Ok None, w)
    end.

(** [INSERT INTO api_cache .. ON CONFLICT(query_hash) DO UPDATE SET
     response_data = excluded.response_data, expires_at = excluded.expires_at]:
    the table as the open transaction sees it. *)
Definition execute_upsert (query_hash : string) (v : json) (api_type : string)
    (expires : Z) : Py (list (string * row)) :=
  db_operation ;;
  fun w =>
    (Ok (upsert query_hash (mkRow v api_type expires)
           (fun r => mkRow v (api_type_col r) expires) (api_cache w)), w).

(** [conn.commit()]: the transaction becomes the table. *)
Definition commit (pending : list (string * row)) : Py unit :=
  db_operation ;;
  fun w => (Ok tt, set_api_cache pending w).

(** [cache_file.exists()] *)
Definition file_exists (query_hash : string) : Py bool :=
  fun w =>
    match lookup query_hash (cache_dir w) with
    | Some _ => (Ok true, w)
    | None => (Ok false, w)
    end.

(** [open(cache_file, mode)] *)
Definition open_file : Py unit :=
  fun w =>
    if fs_fault E (fs_ops w)
    then (Raise (OSError "cannot open cache file"), tick_fs w)
    else (Ok tt, tick_fs w).

(** [with open(cache_file, 'r') as f: cache_data = json.load(f)], then the
    fields [expires_at] and [response] of [cache_data]. *)
Definition load_file (query_hash : string) : Py (json * Z) :=
  open_file ;;
  fun w =>
    match lookup query_hash (cache_dir w) with
    | Some (FileEntry v t) => (Ok (v, t), w)
    | _ => (Raise JSONDecodeError, w)
    end.

(** [with open(cache_file, 'w') as f: json.dump({..}, f)] *)
Definition dump_file (query_hash : string) (v : json) (expires : Z) : Py unit :=
  open_file ;;
  fun w =>
    (Ok tt, set_cache_dir
              (upsert query_hash (FileEntry v expires)
                 (fun _ => FileEntry v expires) (cache_dir w)) w).

(** The block under [try] of [get_cached_response]; Python's [None] is
    [JNull]. *)
Definition get_cached_response_try (query_hash : string) : Py json :=
  t <- datetime_now ;;
  result <- execute_select query_hash t ;;
  match result with
  | Some r => ret (response_data r)
  | None =>
      (* Check file cache as fallback *)
      found <- file_exists query_hash ;;
      if found : bool then
        try_except
          (cache_data <- load_file query_hash ;;
           t' <- datetime_now ;;
           if (t' <? snd cache_data)%Z then ret (fst cache_data)
           else ret JNull)
          (fun _ => ret JNull)
      else ret JNull
  end.

(** [CacheManager.get_cached_response] *)
Definition get_cached_response (q : query_data) (api_type : string) : Py json :=
  let query_hash := _generate_key q api_type in
  (* Create a new connection for this operation *)
  conn <- get_db_connection ;;
  try_finally (get_cached_response_try query_hash)
              (* Always close the connection *)
              (conn_close conn).

(** [CacheManager._save_to_file_cache] *)
Definition _save_to_file_cache (query_hash : string) (v : json) (expires : Z)
  : Py unit :=
  try_except (dump_file query_hash v expires) (fun _ => ret tt).

(** The block under [try] of [cache_response]. *)
Definition cache_response_try (query_hash : string) (v : json)
    (api_type : string) (expires : Z) : Py unit :=
  try_except
    (pending <- execute_upsert query_hash v api_type expires ;;
     commit pending)
    (fun e =>
       match e with
       | SqliteError _ =>
           (* Fallback to file cache if database fails *)
           _save_to_file_cache query_hash v expires
       | _ => raise e
       end).

(** [CacheManager.cache_response] *)
Definition cache_response (q : query_data) (v : json) (api_type : string)
    (expire_hours : Z) : Py unit :=
  let query_hash := _generate_key q api_type in
  t <- datetime_now ;;
  let expires := (t + expire_hours * 3600)%Z in
  (* Create a new connection for this operation *)
  conn <- get_db_connection ;;
  try_finally (cache_response_try query_hash v api_type expires)
              (* Always close the connection *)
              (conn_close conn).

(** [progress_callback(msg)] under [if progress_callback:]. *)
Definition notify (progress_callback : option (string -> Obs -> Obs))
    (msg : string) : Py unit :=
  fun w =>
    match progress_callback with
    | Some cb => (Ok tt, set_observer (cb msg (observer w)) w)
    | None => (Ok tt, w)
    end.

(** [openai_client.chat.completions.create(..)] and the content of the first
    choice of the response. *)
Definition remote_call (r : request) : Py json :=
  fun w => (remote E (remote_calls w) r, tick_remote w).

Definition max_retries : nat := 3.

(** The iterations [attempt, attempt + 1, ..] of the retry loop, [remaining]
    of them; falling out of the loop returns [None]. *)
Fixpoint attempts (progress_callback : option (string -> Obs -> Obs))
    (cache_key : query_data) (r : request)
    (remaining attempt : nat) (retry_delay : Z) : Py json :=
  match remaining with
  | O => ret JNull
  | S remaining' =>
      try_except
        ((if (0 <? attempt)%nat
          then notify progress_callback
                 ("Retrying API call (attempt " ++ nat_str (attempt + 1) ++ "/"
                    ++ nat_str max_retries ++ ")...")
          else ret tt) ;;
         result <- remote_call r ;;
         (* Cache the result *)
         cache_response cache_key result "openai" 24 ;;
         notify progress_callback "Successfully received response from OpenAI" ;;
         ret result)
        (fun e =>
           notify progress_callback ("Error: " ++ exn_str e) ;;
           if (attempt <? max_retries - 1)%nat then
             sleep retry_delay ;;
             attempts progress_callback cache_key r remaining' (S attempt)
                      (retry_delay * 2)%Z
           else ret (JStr ("Error: " ++ exn_str e)))
  end.

(** [system_prompt or ""] *)
Definition or_empty (system_prompt : option string) : string :=
  match system_prompt with
  | Some s => s
  | None => ""
  end.

Definition count (text : string) : Q := count_tokens (tokenizer E) text default_model.

(** The dict [cache_key] of [call_openai_api]. *)
Definition openai_cache_key (prompt : string) (system_prompt : option string)
    (model : string) (temperature : json) (max_tokens : Z) : query_data :=
  QDict [ ("prompt", JStr prompt);
          ("system_prompt",
           match system_prompt with Some s => JStr s | None => JNull end);
          ("model", JStr model);
          ("temperature", temperature);
          ("max_tokens", JInt max_tokens) ].

(** [call_openai_api] *)
Definition call_openai_api (prompt : string) (system_prompt : option string)
    (model : string) (temperature : json) (max_tokens : Z)
    (progress_callback : option (string -> Obs -> Obs)) : Py json :=
  if negb (openai_available E) then
    ret (JStr "ERROR: OpenAI module is not installed. Please run: pip install openai")
  else
    notify progress_callback "Preparing to call OpenAI API..." ;;
    (* Check cache first *)
    let cache_key :=
      openai_cache_key prompt system_prompt model temperature max_tokens in
    cached_response <- get_cached_response cache_key "openai" ;;
    if truthy cached_response then
      notify progress_callback "Retrieved response from cache" ;;
      ret cached_response
    else
      notify progress_callback "Making API call to OpenAI..." ;;
      (* Prepare messages *)
      let system_messages :=
        if String.eqb (or_empty system_prompt) "" then []
        else [("system", or_empty system_prompt)] in
      (* Count tokens to ensure we're within limits *)
      let total_tokens :=
        fold_left Qplus (map (fun msg => count (snd msg))
                             (system_messages ++ [("user", prompt)])%list) 0%Q in
      user_content <-
        (if negb (Qle_bool total_tokens 4000) then
           notify progress_callback
             "Optimizing prompt to fit within token limits..." ;;
           (* Optimize the user message (the prompt) *)
           lift (optimize_prompt (tokenizer E) prompt
                   (4000 - count (or_empty system_prompt))%Q)
         else ret prompt) ;;
      let messages := (system_messages ++ [("user", user_content)])%list in
      (* Call API with exponential backoff for rate limits *)
      attempts progress_callback cache_key
               (mkRequest model messages temperature max_tokens)
               max_retries 0 1.

End Invocation.

(** ** Relations between worlds *)

(** Every world reached by [m] is related to the world it started from. *)
Definition preserves {Obs A} (R : World Obs -> World Obs -> Prop)
    (m : M Obs A) : Prop :=
  forall w, R w (snd (m w)).

(** Between [w] and [w'] no connection was obtained or closed, no remote
    call was made and the clock did not move. *)
Definition quiet {Obs} (w w' : World Obs) : Prop :=
  conn_opened w' = conn_opened w /\ conn_closed w' = conn_closed w
  /\ remote_calls w' = remote_calls w /\ now w' = now w.

(** Two worlds that differ at most by the state of the observer. *)
Definition same_but_observer {Obs} (w1 w2 : World Obs) : Prop :=
  set_observer (observer w1) w2 = w1.

(** Two computations that, from worlds equal up to the observer, end with
    the same outcome in worlds equal up to the observer. *)
Definition sim {Obs A} (m1 m2 : M Obs A) : Prop :=
  forall w1 w2, same_but_observer w1 w2 ->
    fst (m1 w1) = fst (m2 w2)
    /\ same_but_observer (snd (m1 w1)) (snd (m2 w2)).

(** ** Concrete inputs *)

Definition forty_words : string :=
  "a a a a a a a a a a a a a a a a a a a a a a a a a a a a a a a a a a a a a a a a".

(** The same request written with its keys in two orders, at both levels. *)
Definition sample_request_1 : list (string * json) :=
  [ ("radius", JInt 1500);
    ("where", JDict [("lng", JFloat "2.35"); ("lat", JFloat "48.85")]) ].

Definition sample_request_2 : list (string * json) :=
  [ ("where", JDict [("lat", JFloat "48.85"); ("lng", JFloat "2.35")]);
    ("radius", JInt 1500) ].

(** A world with empty stores and no observer. *)
Definition empty_world : World unit := mkWorld [] [] 0 0 0 0 0 0 tt.

(** Collaborators: a durable store whose statements fail while connections
    are obtained (operations alternate: connect, statement, ..), no exact
    tokenizer, a remote service that answers [answer]. *)
Definition env_statements_fail (answer : string) : Env :=
  {| openai_available := true;
     tokenizer := no_tiktoken;
     remote := fun _ _ => Ok (JStr answer);
     db_fault := fun n => if Nat.even n then None else Some "disk I/O error";
     fs_fault := fun _ => false |}.

(** Collaborators: a durable store that is down altogether. *)
Definition env_store_down (answer : string) : Env :=
  {| openai_available := true;
     tokenizer := no_tiktoken;
     remote := fun _ _ => Ok (JStr answer);
     db_fault := fun _ => Some "unable to open database file";
     fs_fault := fun _ => false |}.

(** Collaborators without faults. *)
Definition env_healthy (answer : string) : Env :=
  {| openai_available := true;
     tokenizer := no_tiktoken;
     remote := fun _ _ => Ok (JStr answer);
     db_fault := fun _ => None;
     fs_fault := fun _ => false |}.

(** Collaborators without faults, the remote service failing always. *)
Definition env_remote_down : Env :=
  {| openai_available := true;
     tokenizer := no_tiktoken;
     remote := fun n _ => Raise (RemoteError ("rate limit " ++ nat_str n));
     db_fault := fun _ => None;
     fs_fault := fun _ => false |}.

Definition geocode_paris : query_data := QDict [("geocode", JStr "Paris")].

(** A system prompt of 3100 words: 4030 estimated tokens. *)
Definition long_system_prompt : string :=
  String.concat " " (repeat "guide" 3100).

(** The invocation of the end-to-end example of the specification. *)
Definition invoke_hello (E : Env) : M unit json :=
  call_openai_api unit E "Hello" (Some "You are X") "m" (JFloat "0.1") 50 None.

(** ** Further relations between worlds *)

(** Neither store changed between [w] and [w']. *)
Definition same_stores {Obs} (w w' : World Obs) : Prop :=
  api_cache w' = api_cache w /\ cache_dir w' = cache_dir w.

(** The constraint [UNIQUE] on [query_hash], and one file per key. *)
Definition unique_keys {Obs} (w : World Obs) : Prop :=
  NoDup (map fst (api_cache w)) /\ NoDup (map fst (cache_dir w)).

(** If the keys of [w] are unique, so are those of [w']. *)
Definition keeps_unique_keys {Obs} (w w' : World Obs) : Prop :=
  unique_keys w -> unique_keys w'.

(** ** Further concrete inputs *)

(** The world after the coordinates of Paris were cached for 30 days. *)
Definition world_paris_cached : World unit :=
  snd (cache_response unit (env_healthy "ok") geocode_paris
         (JStr "48.85,2.35") "geocode" 720 empty_world).

Definition geocode_rome : query_data := QDict [("geocode", JStr "Rome")].

(** ** The pieces of [call_openai_api] *)

(** [messages] before the user message is appended. *)
Definition system_messages (system_prompt : option string)
  : list (string * string) :=
  if String.eqb (or_empty system_prompt) "" then []
  else [("system", or_empty system_prompt)].

(** [sum(count_tokens(msg["content"]) for msg in messages)] *)
Definition total_tokens (E : Env) (messages : list (string * string)) : Q :=
  fold_left Qplus (map (fun msg => count E (snd msg)) messages) 0%Q.

(** The content of the user message: the prompt, shaped when the messages
    count more than 4000 tokens. *)
Definition user_content (E : Env) (prompt : string)
    (system_prompt : option string) : outcome string :=
  if negb (Qle_bool
             (total_tokens E
                (system_messages system_prompt ++ [("user", prompt)])%list)
             4000)
  then optimize_prompt (tokenizer E) prompt
         (4000 - count E (or_empty system_prompt))%Q
  else Ok prompt.

(** The handler of an iteration of the retry loop, after the error was
    reported to the observer. *)
Definition after_error {Obs} (E : Env)
    (progress_callback : option (string -> Obs -> Obs))
    (cache_key : query_data) (r : request) (remaining attempt : nat)
    (retry_delay : Z) (e : exn) : M Obs json :=
  fun w =>
    if (attempt <? max_retries - 1)%nat then
      attempts Obs E progress_callback cache_key r remaining (S attempt)
        (retry_delay * 2) (set_now (now w + retry_delay) w)
    else (Ok (JStr ("Error: " ++ exn_str e)), w).

(** Between [w] and [w'] only the row and the file of the key [k] may have
    changed. *)
Definition touches_only {Obs} (k : string) (w w' : World Obs) : Prop :=
  forall k', k' <> k ->
    lookup k' (api_cache w') = lookup k' (api_cache w)
    /\ lookup k' (cache_dir w') = lookup k' (cache_dir w).


(** The time the retry loop sleeps when every iteration fails: [retry_delay]
    after each iteration but the last, doubled each time. *)
Fixpoint longest_wait (remaining attempt : nat) (retry_delay : Z) : Z :=
  match remaining with
  | O => 0
  | S remaining' =>
      if (attempt <? max_retries - 1)%nat
      then retry_delay + longest_wait remaining' (S attempt) (retry_delay * 2)
      else 0
  end.

(** Collaborators without store faults, the remote service failing [k]
    times before it answers [answer]. *)
Definition env_flaky (k : nat) (answer : string) : Env :=
  {| openai_available := true;
     tokenizer := no_tiktoken;
     remote := fun n _ => if (n <? k)%nat
                          then Raise (RemoteError ("rate limit " ++ nat_str n))
                          else Ok (JStr answer);
     db_fault := fun _ => None;
     fs_fault := fun _ => false |}.

(** Collaborators: a durable store that serves two operations, a lookup,
    and cannot be reached afterwards. *)
Definition env_store_lost (answer : string) : Env :=
  {| openai_available := true;
     tokenizer := no_tiktoken;
     remote := fun _ _ => Ok (JStr answer);
     db_fault := fun n => if (n <? 2)%nat then None
                          else Some "unable to open database file";
     fs_fault := fun _ => false |}.

(** Collaborators without faults, the remote service knowing one model. *)
Definition env_one_model (answer : string) : Env :=
  {| openai_available := true;
     tokenizer := no_tiktoken;
     remote := fun _ r => if String.eqb (req_model r) "m"
                          then Ok (JStr answer)
                          else Raise (RemoteError "model not found");
     db_fault := fun _ => None;
     fs_fault := fun _ => false |}.

(** ** Sweeping the cache ([CacheManager.clear_expired_cache]) *)

(** The entries of [l] but those of the key [k]. *)
Definition remove {A} (k : string) (l : list (string * A))
  : list (string * A) :=
  filter (fun entry => negb (String.eqb (fst entry) k)) l.

(** What the sweep at time [t] leaves of a file. *)
Definition kept_file (t : Z) (f : option cache_file) : option cache_file :=
  match f with
  | Some (FileEntry v t') =>
      if (t' <? t)%Z then None else Some (FileEntry v t')
  | _ => None
  end.

(** What the sweep at time [t] leaves of a row. *)
Definition kept_row (t : Z) (r : option row) : option row :=
  match r with
  | Some r => if (expires_at r <? t)%Z then None else Some r
  | None => None
  end.

Section Sweep.

Variable Obs : Type.
Variable E : Env.

Local Open Scope py_scope.

Local Abbreviation Py := (M Obs).

(** [DELETE FROM api_cache WHERE expires_at < ?]: the table as the open
    transaction sees it. *)
Definition execute_delete (t : Z) : Py (list (string * row)) :=
  db_operation Obs E ;;
  fun w =>
    (Ok (filter (fun entry => negb (expires_at (snd entry) <? t)%Z)
           (api_cache w)), w).

(** The block under [try] of [clear_expired_cache]. *)
Definition clear_expired_cache_try (t : Z) : Py unit :=
  pending <- execute_delete t ;;
  commit Obs E pending.

(** [self.cache_dir.glob("*.json")]: the files are named after their key. *)
Definition glob_json : Py (list string) :=
  fun w => (Ok (map fst (cache_dir w)), w).

(** [cache_file.unlink()] *)
Definition unlink (name : string) : Py unit :=
  fun w => (Ok tt, set_cache_dir (remove name (cache_dir w)) w).

(** One iteration of the loop over the files.  The file was listed, so an
    [open()] that fails does not fail with [FileNotFoundError]: its error is
    not handled here. *)
Definition sweep_file (t : Z) (name : string) : Py unit :=
  try_except
    (cache_data <- load_file Obs E name ;;
     if (snd cache_data <? t)%Z then unlink name else ret tt)
    (fun e =>
       match e with
       | JSONDecodeError =>
           (* Remove corrupted cache files *)
           try_except (unlink name) (fun _ => ret tt)
       | _ => raise e
       end).

Fixpoint sweep_files (t : Z) (names : list string) : Py unit :=
  match names with
  | [] => ret tt
  | name :: names' => sweep_file t name ;; sweep_files t names'
  end.

(** [CacheManager.clear_expired_cache] *)
Definition clear_expired_cache : Py unit :=
  t <- datetime_now Obs ;;
  (* Create a new connection for this operation *)
  conn <- get_db_connection Obs E ;;
  try_finally (clear_expired_cache_try t) (conn_close Obs conn) ;;
  (* Also clear any file-based cache *)
  names <- glob_json ;;
  sweep_files t names.

End Sweep.

(** Two worlds with the same table, clock and counters but the one of the
    files opened. *)
Definition same_but_files {Obs} (w w' : World Obs) : Prop :=
  api_cache w' = api_cache w /\ now w' = now w /\ db_ops w' = db_ops w
  /\ conn_opened w' = conn_opened w /\ conn_closed w' = conn_closed w
  /\ remote_calls w' = remote_calls w.

(** A world with a live and an expired row, and a live, an expired and a
    corrupt file, at time 100. *)
Definition world_to_sweep : World unit :=
  mkWorld [ ("k1", mkRow (JStr "fresh") "openai" 200);
            ("k2", mkRow (JStr "stale") "openai" 50) ]
          [ ("k3", FileEntry (JStr "fresh file") 100);
            ("k4", FileEntry (JStr "stale file") 99);
            ("k5", FileCorrupt) ]
          100 0 0 0 0 0 tt.

(** ** Replies with a fenced block *)

Module PyText.

(** [s[n:]] *)
Fixpoint drop (n : nat) (s : string) : string :=
  match n, s with
  | O, _ => s
  | S _, "" => ""
  | S n', String _ s' => drop n' s'
  end.

(** The first occurrence of [sep] in [s]: what precedes it and what follows
    it ([s.partition(sep)] when [sep] occurs). *)
Fixpoint find (sep s : string) : option (string * string) :=
  if String.prefix sep s then Some ("", drop (String.length sep) s)
  else match s with
       | "" => None
       | String c s' =>
           match find sep s' with
           | Some (before, after) => Some (String c before, after)
           | None => None
           end
       end.

(** [sub in s] *)
Definition contains (sub s : string) : bool :=
  match find sub s with
  | Some _ => true
  | None => false
  end.

(** [s.split(sep)] for a non-empty [sep], scanning [s] from the left with
    the piece read so far in [piece]; [skip] characters of a separator just
    found are still to pass. *)
Fixpoint split_by (sep : string) (skip : nat) (piece s : string)
  : list string :=
  match s with
  | "" => [piece]
  | String c s' =>
      match skip with
      | S skip' => split_by sep skip' piece s'
      | O =>
          if String.prefix sep s
          then piece :: split_by sep (String.length sep - 1) "" s'
          else split_by sep 0 (PyStr.snoc piece c) s'
      end
  end.

(** [s.split(sep)] *)
Definition split_on (sep s : string) : list string :=
  split_by sep 0 "" s.

(** [s.lstrip()] *)
Fixpoint lstrip (s : string) : string :=
  match s with
  | "" => ""
  | String c s' => if PyStr.is_space c then lstrip s' else s
  end.

(** [s.rstrip()] *)
Fixpoint rstrip (s : string) : string :=
  match s with
  | "" => ""
  | String c s' =>
      match rstrip s' with
      | "" => if PyStr.is_space c then "" else String c ""
      | kept => String c kept
      end
  end.

(** [s.strip()] *)
Definition strip (s : string) : string := rstrip (lstrip s).

(** No character of [s] is a backtick. *)
Fixpoint no_backtick (s : string) : bool :=
  match s with
  | "" => true
  | String c s' => negb (Ascii.eqb c "`") && no_backtick s'
  end.

End PyText.

Definition fence : string := "```".
Definition json_fence : string := "```json".

(** The statement repeated after each call that expects JSON
    ([get_location_data], [geocode_location], [get_places_nearby],
    [extract_travel_preferences], [get_local_events]):
    [[
    if "```json" in result:
        json_str = result.split("```json")[1].split("```")[0].strip()
    elif "```" in result:
        json_str = result.split("```")[1].strip()
    else:
        json_str = result.strip()
    ]]
    [None] stands for the [IndexError] of an index out of range. *)
Definition json_str (result : string) : option string :=
  if PyText.contains json_fence result then
    match nth_error (PyText.split_on json_fence result) 1 with
    | Some block =>
        match nth_error (PyText.split_on fence block) 0 with
        | Some text => Some (PyText.strip text)
        | None => None
        end
    | None => None
    end
  else if PyText.contains fence result then
    match nth_error (PyText.split_on fence result) 1 with
    | Some text => Some (PyText.strip text)
    | None => None
    end
  else Some (PyText.strip result).

(** A reply with a block fenced as JSON, and one with a bare fence. *)
Definition reply_json_fence : string :=
  "Here you are: ```json {'lat': 48.85, 'lng': 2.35} ``` Enjoy Paris.".

Definition reply_bare_fence : string :=
  "``` {'lat': 48.85, 'lng': 2.35} ```".

(** ** Coordinates of a place ([geocode_location]) *)

(** The double quote. *)
Definition dquote : string := String (ascii_of_nat 34) "".

(** The dict [cache_key] of [geocode_location]. *)
Definition geocode_cache_key (location_name : string) : query_data :=
  QDict [("geocode", JStr location_name)].

Definition geocode_prompt (location_name : string) : string :=
  "
    I need the approximate latitude and longitude coordinates for "
  ++ location_name ++ ".
    Please provide only the coordinates in a valid JSON format with 'lat' and 'lng' fields.
    For example: {" ++ dquote ++ "lat" ++ dquote ++ ": 40.7128, "
  ++ dquote ++ "lng" ++ dquote ++ ": -74.0060} for New York City.
    Do not include any explanations, just the JSON object.
    ".

Definition geocode_system_prompt : string :=
  "You are a geographic information system. Provide accurate latitude and longitude coordinates for locations.".

(** The result in the structure of the maps service. *)
Definition geocode_result (coordinates : json) : json :=
  JDict [ ("results",
           JList [JDict [("geometry", JDict [("location", coordinates)])]]);
          ("status", JStr "OK") ].

(** The result when the reply cannot be used. *)
Definition geocode_error (msg : string) : json :=
  JDict [ ("error", JStr msg); ("results", JList []);
          ("status", JStr "ERROR") ].

Section Geocoding.

Variable Obs : Type.
Variable E : Env.

(** [json.loads] *)
Variable json_loads : string -> outcome json.

(** [str(e)] of the error that the string operations raise on a reply that
    is not a [str]. *)
Variable not_text_message : json -> string.

Local Open Scope py_scope.

Local Abbreviation Py := (M Obs).

(** The block under [try] of [geocode_location] and its handler, which
    receives whatever is raised. *)
Definition geocode_location_try (location_name : string)
    (progress_callback : option (string -> Obs -> Obs)) (result : json)
  : Py json :=
  let handler (msg : string) : Py json :=
    notify Obs progress_callback ("Error parsing geocode data: " ++ msg) ;;
    ret (geocode_error msg) in
  match result with
  | JStr text =>
      (* Extract JSON if it's in a code block *)
      match json_str text with
      | Some extracted =>
          try_except
            (coordinates <- lift (json_loads extracted) ;;
             (* Cache the result *)
             cache_response Obs E (geocode_cache_key location_name)
               (geocode_result coordinates) "geocode" 720 ;;
             ret (geocode_result coordinates))
            (fun e => handler (exn_str e))
      | None => handler "list index out of range"
      end
  | _ => handler (not_text_message result)
  end.

(** [geocode_location] *)
Definition geocode_location (location_name : string)
    (progress_callback : option (string -> Obs -> Obs)) : Py json :=
  notify Obs progress_callback
    ("Finding coordinates for " ++ location_name ++ "...") ;;
  (* Check cache first *)
  cached_response <-
    get_cached_response Obs E (geocode_cache_key location_name) "geocode" ;;
  if truthy cached_response then
    notify Obs progress_callback "Retrieved coordinates from cache" ;;
    ret cached_response
  else
    result <-
      call_openai_api Obs E (geocode_prompt location_name)
        (Some geocode_system_prompt) "gpt-3.5-turbo" (JFloat "0.1") 100
        progress_callback ;;
    geocode_location_try location_name progress_callback result.

End Geocoding.

(** A parser that knows the coordinates of Paris only. *)
Definition loads_paris (s : string) : outcome json :=
  if String.eqb s "{'lat': 48.85, 'lng': 2.35}"
  then Ok (JDict [("lat", JFloat "48.85"); ("lng", JFloat "2.35")])
  else Raise JSONDecodeError.

Definition not_text (v : json) : string := "argument is not a string".
(** * Properties *)

(** ** The library functions on known values *)

Example md5_empty : MD5.hexdigest (encode "") = "d41d8cd98f00b204e9800998ecf8427e".
Proof. vm_compute. reflexivity. Qed.

Example md5_abc : MD5.hexdigest (encode "abc") = "900150983cd24fb0d6963f7d28e17f72".
Proof. vm_compute. reflexivity. Qed.

(** 62 characters, two blocks once padded. *)
Example md5_alphanumeric :
  MD5.hexdigest
    (encode "ABCDEFGHIJKLMNOPQRSTUVWXYZabcdefghijklmnopqrstuvwxyz0123456789")
  = "d174ab98d277d9f5a5611c2c9f419d9f".
Proof. vm_compute. reflexivity. Qed.

(** A code point above 127 takes two bytes. *)
Example md5_latin1 :
  MD5.hexdigest (encode (String "a" (String (ascii_of_nat 233) "b")))
  = "669240e0a2c2ae39fda9944f1492162d".
Proof. vm_compute. reflexivity. Qed.

Example generate_key_geocode_paris :
  _generate_key geocode_paris "geocode" = "cd780b55e0d5eac0a1678a9b320b98f7".
Proof. vm_compute. reflexivity. Qed.

Example dumps_sorted :
  Json.dumps true (JDict sample_request_2)
  = Json.dumps true (JDict sample_request_1).
Proof. vm_compute. reflexivity. Qed.

Example split_whitespace :
  PyStr.split (String (ascii_of_nat 9) " plan  a trip" ++ String (ascii_of_nat 10) "")
  = ["plan"; "a"; "trip"].
Proof. reflexivity. Qed.

Example slice_negative : PyStr.slice_to [1; 2; 3; 4; 5] (-2) = [1; 2; 3].
Proof. reflexivity. Qed.

(** ** Words of a text *)

Module PyStrFacts.
Import PyStr.

Lemma append_assoc (a b c : string) : (a ++ b) ++ c = a ++ (b ++ c).
Proof.
  induction a as [|x a IH]; simpl; [reflexivity | now rewrite IH].
Qed.

Lemma append_empty_r (a : string) : a ++ "" = a.
Proof.
  induction a as [|x a IH]; simpl; [reflexivity | now rewrite IH].
Qed.

Lemma no_space_app (a b : string) :
  no_space (a ++ b) = no_space a && no_space b.
Proof.
  induction a as [|x a IH]; simpl; [reflexivity|].
  rewrite IH. now rewrite andb_assoc.
Qed.

Lemma flush_word (cur : string) : cur <> "" -> flush cur = [cur].
Proof. destruct cur; [congruence | reflexivity]. Qed.

(** Every element of the result of a split is a word. *)
Lemma split_from_words (s : string) :
  forall cur, no_space cur = true -> Forall word (split_from s cur).
Proof.
  induction s as [|c s IH]; intros cur Hcur; simpl.
  - destruct cur; constructor; [|constructor].
    split; [discriminate | exact Hcur].
  - destruct (is_space c) eqn:Hc.
    + apply Forall_app; split; [|now apply IH].
      destruct cur; constructor; [|constructor].
      split; [discriminate | exact Hcur].
    + apply IH. unfold snoc. rewrite no_space_app, Hcur. simpl. now rewrite Hc.
Qed.

Lemma split_words (s : string) : Forall word (split s).
Proof. now apply split_from_words. Qed.

(** Scanning a run of non-whitespace characters only grows the current word. *)
Lemma split_from_run (w : string) :
  forall rest cur, no_space w = true ->
    split_from (w ++ rest) cur = split_from rest (cur ++ w).
Proof.
  induction w as [|c w IH]; intros rest cur Hw; simpl.
  - now rewrite append_empty_r.
  - simpl in Hw. apply andb_true_iff in Hw as [Hc Hw].
    apply negb_true_iff in Hc. rewrite Hc, IH by assumption.
    unfold snoc. now rewrite append_assoc.
Qed.

(** Splitting what [join] built from words, followed by whitespace and any
    text, gives the words back. *)
Lemma split_join (ws : list string) (c : ascii) (rest : string) :
  Forall word ws -> is_space c = true ->
  split (join " " ws ++ String c rest) = (ws ++ split rest)%list.
Proof.
  intros Hws Hc. unfold split.
  induction ws as [|w ws IH]; simpl.
  - now rewrite Hc.
  - inversion Hws as [|? ? [Hne Hw] Hws']; subst.
    destruct ws as [|w' ws].
    + rewrite split_from_run by assumption. simpl. rewrite Hc.
      now rewrite flush_word.
    + rewrite append_assoc, split_from_run by assumption.
      simpl append at 1. simpl split_from at 1.
      change (is_space " ") with true. cbv iota.
      rewrite flush_word by assumption. simpl app. f_equal.
      apply IH. assumption.
Qed.

End PyStrFacts.

(** ** Token budgeter *)

Lemma Forall_firstn {A} (P : A -> Prop) (n : nat) (l : list A) :
  Forall P l -> Forall P (firstn n l).
Proof.
  revert l. induction n as [|n IH]; intros l H; simpl; [constructor|].
  destruct H; constructor; auto.
Qed.

Section Budgeter.

Variable T : Tokenizer.

Local Abbreviation estimate := (fun text => count_tokens T text default_model).

Lemma count_tokens_approx (text model : string) :
  tiktoken_available T = false -> count_tokens T text model = approx_tokens text.
Proof. intros H. unfold count_tokens. now rewrite H. Qed.

Lemma Qle_bool_false (x y : Q) : Qle_bool x y = false <-> (y < x)%Q.
Proof.
  split; intros H.
  - apply Qnot_le_lt. intros Hle. apply Qle_bool_iff in Hle. congruence.
  - destruct (Qle_bool x y) eqn:E; [|reflexivity].
    apply Qle_bool_iff in E. apply Qle_not_lt in E. contradiction.
Qed.

Lemma Qeq_bool_false (x y : Q) : ~ (x == y)%Q -> Qeq_bool x y = false.
Proof.
  intros H. destruct (Qeq_bool x y) eqn:E; [|reflexivity].
  apply Qeq_bool_iff in E. contradiction.
Qed.

(** Within budget the prompt is returned as it is. *)
Lemma optimize_prompt_fits (prompt : string) (b : Q) :
  (estimate prompt <= b)%Q -> optimize_prompt T prompt b = Ok prompt.
Proof.
  intros H. unfold optimize_prompt. apply Qle_bool_iff in H. now rewrite H.
Qed.

(** The words of the truncation notice. *)
Lemma split_truncation_note :
  List.length (PyStr.split (String (ascii_of_nat 10)
     "[Note: The original prompt was truncated to fit within token limits.]"))
  = 11.
Proof. reflexivity. Qed.

(** The arithmetic of the over-budget branch: with [n] words, a budget [b]
    of at least 30 and [n * 1.3 > b], the number [q] of kept words before the
    margin satisfies [23 <= q < n] and [q <= 10 b / 13]. *)
Lemma kept_bounds (n : Z) (b : Q) :
  (30 <= b)%Q -> (b < inject_Z n * (13 # 10))%Q ->
  let q := Qfloor (inject_Z n * (b / (inject_Z n * (13 # 10)))) in
  (23 <= q < n)%Z /\ (inject_Z q <= b * (10 # 13))%Q
  /\ (0 <= inject_Z n * (b / (inject_Z n * (13 # 10))))%Q.
Proof.
  intros Hb Hn q.
  assert (Hpos : (0 < inject_Z n)%Q) by lra.
  assert (Hx : (inject_Z n * (b / (inject_Z n * (13 # 10))) == b * (10 # 13))%Q).
  { field. lra. }
  assert (Hq : q = Qfloor (b * (10 # 13))).
  { unfold q. now rewrite Hx. }
  pose proof (Qfloor_le (b * (10 # 13))) as Hle. rewrite <- Hq in Hle.
  repeat split.
  - rewrite Hq. change 23%Z with (Qfloor (inject_Z 23)).
    apply Qfloor_resp_le. change (inject_Z 23) with 23%Q. lra.
  - rewrite Zlt_Qlt. lra.
  - exact Hle.
  - rewrite Hx. lra.
Qed.


End Budgeter.



(** A prompt whose estimate is zero is returned as it is under a budget that
    is not negative. *)
Lemma optimize_prompt_zero_estimate (T : Tokenizer) (prompt : string) (b : Q) :
  (count_tokens T prompt default_model == 0)%Q -> (0 <= b)%Q ->
  optimize_prompt T prompt b = Ok prompt.
Proof.
  intros H0 Hb. apply optimize_prompt_fits. rewrite H0. exact Hb.
Qed.

(** C8 (the code departs from it).  Under a negative budget a prompt whose
    estimate is zero is not returned: the guard [current_tokens <= max_tokens]
    fails and [max_tokens / current_tokens] divides by zero. *)
Theorem optimize_prompt_zero_estimate_negative_budget
    (T : Tokenizer) (prompt : string) (b : Q) :
  (count_tokens T prompt default_model == 0)%Q -> (b < 0)%Q ->
  optimize_prompt T prompt b = Raise ZeroDivisionError.
Proof.
  intros H0 Hb. unfold optimize_prompt.
  assert (Hlt : (b < count_tokens T prompt default_model)%Q)
    by (rewrite H0; exact Hb).
  rewrite (proj2 (Qle_bool_false _ _) Hlt).
  now rewrite (proj2 (Qeq_bool_iff _ _) H0).
Qed.

(** C8 at the empty prompt and the budget -1. *)
Lemma optimize_prompt_zero_estimate_negative_budget_witness :
  (count_tokens no_tiktoken "" default_model == 0)%Q /\ (-1 < 0)%Q
  /\ optimize_prompt no_tiktoken "" (-1) = Raise ZeroDivisionError.
Proof.
  split; [reflexivity|]. split; [reflexivity|].
  apply (optimize_prompt_zero_estimate_negative_budget no_tiktoken "" (-1));
    reflexivity.
Defined.

(** ** Fingerprinter *)

(** *** The order of the keys *)

Lemma ascii_compare_N (a b : ascii) :
  Ascii.compare a b = N.compare (N_of_ascii a) (N_of_ascii b).
Proof. reflexivity. Qed.

Lemma string_compare_trans_le (s1 : string) :
  forall s2 s3,
    String.compare s1 s2 <> Gt -> String.compare s2 s3 <> Gt ->
    String.compare s1 s3 <> Gt.
Proof.
  induction s1 as [|a s1 IH]; intros [|b s2] [|c s3]; simpl;
    try congruence.
  rewrite !ascii_compare_N.
  destruct (N.compare_spec (N_of_ascii a) (N_of_ascii b)) as [Hab|Hab|Hab];
    destruct (N.compare_spec (N_of_ascii b) (N_of_ascii c)) as [Hbc|Hbc|Hbc];
    destruct (N.compare_spec (N_of_ascii a) (N_of_ascii c)) as [Hac|Hac|Hac];
    intros H1 H2; try congruence; try lia.
  now apply (IH s2 s3).
Qed.

Lemma leb_trans (s1 s2 s3 : string) :
  String.leb s1 s2 = true -> String.leb s2 s3 = true -> String.leb s1 s3 = true.
Proof.
  unfold String.leb. intros H1 H2.
  pose proof (string_compare_trans_le s1 s2 s3) as H.
  destruct (String.compare s1 s2); try discriminate;
    destruct (String.compare s2 s3); try discriminate;
    destruct (String.compare s1 s3); try reflexivity;
    exfalso; apply H; congruence.
Qed.

Lemma leb_false_flip (s1 s2 : string) :
  String.leb s1 s2 = false -> String.leb s2 s1 = true.
Proof.
  intros H. destruct (String.leb_total s1 s2) as [H'|H']; congruence.
Qed.

(** *** Ordering the items of a dict *)

Section SortItems.

Context {A : Type}.
Implicit Types (x y : string * A) (l : list (string * A)).

Import Json.

(** Two items of distinct keys are inserted in either order with the same
    result. *)
Lemma insert_item_comm x y l :
  fst x <> fst y ->
  insert_item x (insert_item y l) = insert_item y (insert_item x l).
Proof.
  intros Hxy. induction l as [|z l IH]; simpl.
  - destruct (String.leb (fst x) (fst y)) eqn:Exy,
             (String.leb (fst y) (fst x)) eqn:Eyx; try reflexivity.
    + exfalso. apply Hxy. now apply String.leb_antisym.
    + apply leb_false_flip in Exy. congruence.
  - destruct (String.leb (fst y) (fst z)) eqn:Eyz,
             (String.leb (fst x) (fst z)) eqn:Exz; simpl;
      rewrite ?Eyz, ?Exz;
      destruct (String.leb (fst x) (fst y)) eqn:Exy,
               (String.leb (fst y) (fst x)) eqn:Eyx;
      simpl; rewrite ?Eyz, ?Exz; try reflexivity;
      try (exfalso; apply Hxy; now apply String.leb_antisym);
      try (apply leb_false_flip in Exy; congruence);
      try (rewrite (leb_trans _ _ _ Exy Eyz) in Exz; discriminate);
      try (rewrite (leb_trans _ _ _ Eyx Exz) in Eyz; discriminate);
      try (now rewrite IH).
Qed.

(** The ordered items do not depend on the order the items came in, the
    keys being distinct. *)
Lemma sort_items_perm l l' :
  Permutation l l' -> NoDup (map fst l) -> sort_items l = sort_items l'.
Proof.
  induction 1 as [| x l l' Hp IH | x y l | l l' l'' Hp1 IH1 Hp2 IH2];
    intros Hnd; simpl.
  - reflexivity.
  - inversion Hnd; subst. now rewrite IH.
  - apply insert_item_comm. inversion Hnd as [|? ? Hin _]; subst.
    intros Heq. apply Hin. simpl. now left.
  - rewrite IH1 by assumption. apply IH2.
    eapply Permutation_NoDup; [|exact Hnd]. now apply Permutation_map.
Qed.

End SortItems.

(** *** Determinism of the fingerprint *)

(** Induction on a value, with the hypothesis for every member of a list
    and for every value of a dict. *)
Lemma json_ind' (P : json -> Prop)
    (Hnull : P JNull) (Hbool : forall b, P (JBool b))
    (Hint : forall z, P (JInt z)) (Hfloat : forall r, P (JFloat r))
    (Hstr : forall s, P (JStr s))
    (Hlist : forall l, Forall P l -> P (JList l))
    (Hdict : forall d, Forall (fun kv => P (snd kv)) d -> P (JDict d)) :
  forall v, P v.
Proof.
  fix IH 1.
  intros [ | b | z | r | s | l | d];
    [exact Hnull | apply Hbool | apply Hint | apply Hfloat | apply Hstr | | ].
  - apply Hlist. induction l as [|v l IHl]; constructor; [apply IH | exact IHl].
  - apply Hdict. induction d as [|[k v] d IHd]; constructor;
      [apply IH | exact IHd].
Qed.

(** Equal values have the same canonical text. *)
Lemma dumps_equiv (v1 : json) :
  forall v2, wf_json v2 -> json_equiv v1 v2 ->
    Json.dumps true v1 = Json.dumps true v2.
Proof.
  induction v1 as [ | b | z | r | s | l IHl | d IHd] using json_ind';
    intros v2 Hwf Heq; inversion Heq; subst; try reflexivity.
  - (* lists *)
    inversion Hwf as [| | | | | ? Hwfl |]; subst.
    match goal with H : Forall2 json_equiv _ _ |- _ => rename H into H2 end.
    assert (Hmap : map (Json.dumps true) l = map (Json.dumps true) l2).
    { clear Heq Hwf. revert IHl Hwfl.
      induction H2 as [|x y l l' Hxy H2 IH2]; intros IHl Hwfl; simpl;
        [reflexivity|].
      inversion IHl; inversion Hwfl; subst. f_equal; auto. }
    simpl. now rewrite Hmap.
  - (* dicts *)
    inversion Hwf as [| | | | | | ? Hnd Hwfd]; subst.
    match goal with
    | Hp : Permutation _ _, H2 : Forall2 _ _ _ |- _ =>
        rename Hp into Hperm; rename H2 into Hitems
    end.
    set (r := fun kv : string * json => (fst kv, Json.dumps true (snd kv))).
    assert (Hwfd' : Forall (fun kv => wf_json (snd kv)) d2').
    { rewrite Forall_forall in *. intros kv Hin. apply Hwfd.
      eapply Permutation_in; eassumption. }
    assert (Hmap : map r d = map r d2').
    { clear Heq Hwf Hperm Hnd Hwfd. revert IHd Hwfd'.
      induction Hitems as [|x y l l' [Hk Hv] H2 IH2]; intros IHd Hwfd';
        simpl; [reflexivity|].
      inversion IHd; inversion Hwfd'; subst. f_equal; [|auto].
      unfold r. rewrite Hk. f_equal. auto. }
    assert (Hsort : Json.sort_items (map r d) = Json.sort_items (map r d2)).
    { rewrite Hmap. apply sort_items_perm.
      - now apply Permutation_map.
      - unfold r. rewrite map_map. simpl.
        eapply Permutation_NoDup; [|exact Hnd].
        apply Permutation_map. now apply Permutation_sym. }
    change (Json.dumps true (JDict d))
      with ("{" ++ PyStr.join ", " (map Json.render_item
                                      (Json.sort_items (map r d))) ++ "}").
    change (Json.dumps true (JDict d2))
      with ("{" ++ PyStr.join ", " (map Json.render_item
                                      (Json.sort_items (map r d2))) ++ "}").
    now rewrite Hsort.
Qed.

(** C5.  Fingerprint determinism.  Two mappings that are structurally equal,
    whatever the order their items were inserted in, also inside nested
    mappings, have the same key under the same request class. *)
Theorem _generate_key_deterministic
    (api_type : string) (r1 r2 : list (string * json)) :
  wf_json (JDict r2) -> json_equiv (JDict r1) (JDict r2) ->
  _generate_key (QDict r1) api_type = _generate_key (QDict r2) api_type.
Proof.
  intros Hwf Heq. unfold _generate_key, query_string.
  now rewrite (dumps_equiv (JDict r1) (JDict r2) Hwf Heq).
Qed.

Ltac distinct_keys :=
  repeat (apply NoDup_cons; [simpl; intuition discriminate|]); apply NoDup_nil.

(** C5 at a request with a nested mapping, its keys in two orders. *)
Lemma _generate_key_deterministic_witness :
  wf_json (JDict sample_request_2)
  /\ json_equiv (JDict sample_request_1) (JDict sample_request_2)
  /\ _generate_key (QDict sample_request_1) "places_nearby"
     = _generate_key (QDict sample_request_2) "places_nearby".
Proof.
  assert (Hwf : wf_json (JDict sample_request_2)).
  { apply wf_dict; [distinct_keys|].
    apply Forall_cons; [|apply Forall_cons; [apply wf_int | apply Forall_nil]].
    simpl. apply wf_dict; [distinct_keys|].
    repeat (apply Forall_cons; [apply wf_float|]). apply Forall_nil. }
  assert (Heq : json_equiv (JDict sample_request_1) (JDict sample_request_2)).
  { apply equiv_dict with
      (d2' := [ ("radius", JInt 1500);
                ("where", JDict [("lat", JFloat "48.85");
                                 ("lng", JFloat "2.35")]) ]).
    - apply perm_swap.
    - constructor; [split; [reflexivity | constructor]|].
      constructor; [|constructor]. split; [reflexivity|]. simpl.
      apply equiv_dict with
        (d2' := [("lng", JFloat "2.35"); ("lat", JFloat "48.85")]).
      + apply perm_swap.
      + repeat constructor. }
  split; [exact Hwf|]. split; [exact Heq|].
  exact (_generate_key_deterministic "places_nearby" _ _ Hwf Heq).
Defined.

(** *** Separation of the request classes *)

Section Pigeonhole.

Local Open Scope N_scope.

Lemma bounded_search (f : N -> N) (v : N) :
  forall n, (exists i, i < n /\ f i = v) \/ (forall i, i < n -> f i <> v).
Proof.
  induction n as [|n IH] using N.peano_ind.
  - right. intros i Hi. lia.
  - destruct IH as [(i & Hi & Hv) | Hnone].
    + left. exists i. split; [lia | exact Hv].
    + destruct (N.eq_dec (f n) v) as [Hv | Hv].
      * left. exists n. split; [lia | exact Hv].
      * right. intros i Hi. destruct (N.eq_dec i n) as [-> | Hne];
          [exact Hv | apply Hnone; lia].
Qed.

(** [n + 1] arguments sent below [n] : two of them have the same image. *)
Lemma pigeonhole :
  forall n (f : N -> N),
    (forall i, i <= n -> f i < n) ->
    exists i j, i < j /\ j <= n /\ f i = f j.
Proof.
  induction n as [|n IH] using N.peano_ind; intros f Hf.
  - specialize (Hf 0). lia.
  - set (v := f (N.succ n)).
    destruct (bounded_search f v (N.succ n)) as [(i & Hi & Hv) | Hnone].
    + exists i, (N.succ n). repeat split; [exact Hi | lia | exact Hv].
    + set (g := fun i => if f i =? n then v else f i).
      destruct (IH g) as (i & j & Hij & Hj & Hg).
      * intros i Hi. unfold g.
        assert (Hfi : f i < N.succ n) by (apply Hf; lia).
        assert (Hfv : f i <> v) by (apply Hnone; lia).
        assert (Hv : v < N.succ n) by (apply Hf; lia).
        destruct (N.eqb_spec (f i) n); lia.
      * exists i, j. repeat split; [exact Hij | lia |].
        assert (Hi' : f i <> v) by (apply Hnone; lia).
        assert (Hj' : f j <> v) by (apply Hnone; lia).
        unfold g in Hg.
        destruct (N.eqb_spec (f i) n), (N.eqb_spec (f j) n); congruence.
Qed.

End Pigeonhole.

Module MD5Facts.
Import MD5.

Local Open Scope Z_scope.

Lemma add32_range (x y : Z) : 0 <= add32 x y < w32.
Proof. unfold add32. apply Z.mod_pos_bound. reflexivity. Qed.

Lemma compress_range (st : state) (m : list Z) : in_range (compress st m).
Proof.
  unfold compress. set (st' := fold_left (step m) (seq 0 64) st).
  unfold in_range. cbn [sa sb sc sd]. repeat split; apply add32_range.
Qed.

Lemma digest_state_range (msg : list Z) : in_range (digest_state msg).
Proof.
  unfold digest_state.
  generalize (blocks (List.length (words (List.length (pad msg)) (pad msg)))
                     (words (List.length (pad msg)) (pad msg))).
  intros bl.
  assert (H : in_range init).
  { unfold in_range, init. cbn [sa sb sc sd]. repeat split; easy. }
  revert H. generalize init. induction bl as [|m bl IH]; intros st H; simpl.
  - exact H.
  - apply IH, compress_range.
Qed.

Lemma digit_range (w m a b : Z) :
  0 <= a < w -> 0 <= b < m -> 0 <= a + w * b < w * m.
Proof. intros Ha Hb. nia. Qed.

Lemma pack_range (st : state) : in_range st -> 0 <= pack st < 2 ^ 128.
Proof.
  unfold in_range, pack.
  change (2 ^ 128) with (w32 * (w32 * (w32 * w32))).
  intros (Ha & Hb & Hc & Hd).
  repeat (apply digit_range; [assumption|]). assumption.
Qed.

Lemma split_digit (w a b a' b' : Z) :
  0 <= a < w -> 0 <= a' < w -> a + w * b = a' + w * b' -> a = a' /\ b = b'.
Proof. intros Ha Ha' H. assert (b = b') by nia. subst. split; lia. Qed.

Lemma pack_inj (st st' : state) :
  in_range st -> in_range st' -> pack st = pack st' -> st = st'.
Proof.
  destruct st as [a b c d], st' as [a' b' c' d'].
  unfold in_range, pack; cbn [sa sb sc sd].
  intros (Ha & Hb & Hc & Hd) (Ha' & Hb' & Hc' & Hd') H.
  apply split_digit in H as [-> H]; try assumption.
  apply split_digit in H as [-> H]; try assumption.
  apply split_digit in H as [-> ->]; try assumption.
  reflexivity.
Qed.

End MD5Facts.

(** For every payload two distinct request classes have the same key: the
    classes are more than the 2 ^ 128 digests. *)
Lemma _generate_key_collides (r : query_data) :
  exists A B, A <> B /\ _generate_key r A = _generate_key r B.
Proof.
  set (cls := fun i : N => NilEmpty.string_of_uint (N.to_uint i)).
  set (st := fun i : N => MD5.digest_state (encode (query_string r (cls i)))).
  set (f := fun i : N => Z.to_N (MD5.pack (st i))).
  assert (Hrange : forall i, (0 <= MD5.pack (st i) < 2 ^ 128)%Z).
  { intros i. apply MD5Facts.pack_range, MD5Facts.digest_state_range. }
  destruct (pigeonhole (2 ^ 128)%N f) as (i & j & Hij & _ & Hf).
  { intros i _. unfold f. specialize (Hrange i).
    apply N2Z.inj_lt. rewrite Z2N.id by lia. exact (proj2 Hrange). }
  exists (cls i), (cls j). split.
  - intros Heq. unfold cls in Heq.
    apply (f_equal NilEmpty.uint_of_string) in Heq.
    rewrite !NilEmpty.usu in Heq. injection Heq as Heq.
    apply DecimalN.Unsigned.to_uint_inj in Heq. lia.
  - assert (Hst : st i = st j).
    { apply MD5Facts.pack_inj; try apply MD5Facts.digest_state_range.
      unfold f in Hf. apply Z2N.inj in Hf;
        [exact Hf | apply Hrange | apply Hrange]. }
    unfold _generate_key, MD5.hexdigest. fold (st i). fold (st j).
    now rewrite Hst.
Qed.

(** C6 as stated does not hold: the keys of one payload under two distinct
    request classes are not always different. *)
Lemma _generate_key_separation_fails :
  ~ (forall (r : query_data) (A B : string),
       A <> B -> _generate_key r A <> _generate_key r B).
Proof.
  intros H.
  destruct (_generate_key_collides (QOther "")) as (A & B & Hne & Heq).
  exact (H (QOther "") A B Hne Heq).
Qed.

(** What the prefix does give: the texts that are hashed differ. *)

Lemma string_length_append (a b : string) :
  String.length (a ++ b) = String.length a + String.length b.
Proof. induction a as [|x a IH]; simpl; [reflexivity | now rewrite IH]. Qed.

Lemma append_cancel_r (a b s : string) : a ++ s = b ++ s -> a = b.
Proof.
  revert b. induction a as [|x a IH]; intros [|y b] H; simpl in H.
  - reflexivity.
  - apply (f_equal String.length) in H. simpl in H.
    rewrite string_length_append in H. lia.
  - apply (f_equal String.length) in H. simpl in H.
    rewrite string_length_append in H. lia.
  - injection H as -> H. f_equal. now apply IH.
Qed.

(** The UTF-8 bytes of a code point, without the bit operations. *)
Lemma encode_char_spec (c : ascii) :
  let n := Z.of_nat (nat_of_ascii c) in
  ((n < 128)%Z /\ encode_char c = [n])
  \/ ((128 <= n)%Z /\ exists h t,
        encode_char c = [h; t]
        /\ h = (192 + n / 64)%Z /\ t = (128 + n mod 64)%Z).
Proof.
  destruct c as [[] [] [] [] [] [] [] []];
    ((left; split; reflexivity)
     || (right; split; [discriminate | do 2 eexists; repeat split])).
Qed.

Lemma nat_of_ascii_inj (c1 c2 : ascii) :
  nat_of_ascii c1 = nat_of_ascii c2 -> c1 = c2.
Proof.
  intros H. rewrite <- (ascii_nat_embedding c1), <- (ascii_nat_embedding c2).
  now rewrite H.
Qed.

Lemma encode_char_inj (c1 c2 : ascii) (l1 l2 : list Z) :
  (encode_char c1 ++ l1 = encode_char c2 ++ l2)%list -> c1 = c2 /\ l1 = l2.
Proof.
  pose proof (nat_ascii_bounded c1) as B1.
  pose proof (nat_ascii_bounded c2) as B2.
  intros H.
  assert (Hn : nat_of_ascii c1 = nat_of_ascii c2 /\ l1 = l2).
  { destruct (encode_char_spec c1) as [[L1 E1] | [L1 (h1 & t1 & E1 & Hh1 & Ht1)]],
             (encode_char_spec c2) as [[L2 E2] | [L2 (h2 & t2 & E2 & Hh2 & Ht2)]];
      rewrite E1, E2 in H; cbn [app] in H.
    - injection H as H Hl. split; [lia | exact Hl].
    - exfalso. injection H as H _.
      pose proof (Z.div_pos (Z.of_nat (nat_of_ascii c2)) 64). lia.
    - exfalso. injection H as H _.
      pose proof (Z.div_pos (Z.of_nat (nat_of_ascii c1)) 64). lia.
    - injection H as Hh Ht Hl. split; [|exact Hl].
      pose proof (Z.div_mod (Z.of_nat (nat_of_ascii c1)) 64).
      pose proof (Z.div_mod (Z.of_nat (nat_of_ascii c2)) 64). lia. }
  destruct Hn as [Hn Hl]. split; [now apply nat_of_ascii_inj | exact Hl].
Qed.

Lemma encode_char_not_nil (c : ascii) : encode_char c <> [].
Proof.
  destruct (encode_char_spec c) as [[_ E] | [_ (h & t & E & _)]];
    rewrite E; discriminate.
Qed.

Lemma encode_inj (s1 : string) : forall s2, encode s1 = encode s2 -> s1 = s2.
Proof.
  induction s1 as [|c1 s1 IH]; intros [|c2 s2] H; simpl in H.
  - reflexivity.
  - exfalso. symmetry in H. apply app_eq_nil in H as [H _].
    now apply encode_char_not_nil in H.
  - exfalso. apply app_eq_nil in H as [H _].
    now apply encode_char_not_nil in H.
  - apply encode_char_inj in H as [-> H]. f_equal. now apply IH.
Qed.

(** C6, amended.  For every payload and every two distinct request classes
    the byte strings given to MD5 are different: the two keys coincide only
    where MD5 itself collides on them. *)
Theorem query_string_separates (r : query_data) (A B : string) :
  A <> B -> encode (query_string r A) <> encode (query_string r B).
Proof.
  intros Hne H. apply encode_inj in H. unfold query_string in H.
  apply append_cancel_r in H. contradiction.
Qed.

(** C6, amended, at the payload [{"geocode": "Paris"}] and the classes
    ["geocode"] and ["location_data"]. *)
Lemma query_string_separates_witness :
  "geocode" <> "location_data"
  /\ encode (query_string (QDict [("geocode", JStr "Paris")]) "geocode")
     <> encode (query_string (QDict [("geocode", JStr "Paris")]) "location_data").
Proof.
  split; [discriminate|].
  apply (query_string_separates (QDict [("geocode", JStr "Paris")])
           "geocode" "location_data").
  discriminate.
Defined.

(** ** Computations *)

Arguments _generate_key : simpl never.

Section Preservation.

Variable Obs : Type.
Variable R : World Obs -> World Obs -> Prop.
Hypothesis R_refl : forall w, R w w.
Hypothesis R_trans : forall w1 w2 w3, R w1 w2 -> R w2 w3 -> R w1 w3.

Lemma preserves_ret {A} (a : A) : preserves R (ret a).
Proof. intros w. apply R_refl. Qed.

Lemma preserves_raise {A} (e : exn) : preserves R (@raise Obs A e).
Proof. intros w. apply R_refl. Qed.

Lemma preserves_lift {A} (r : outcome A) : preserves R (@lift Obs A r).
Proof. intros w. apply R_refl. Qed.

Lemma preserves_bind {A B} (m : M Obs A) (k : A -> M Obs B) :
  preserves R m -> (forall a, preserves R (k a)) -> preserves R (bind m k).
Proof.
  intros Hm Hk w. unfold bind. specialize (Hm w).
  destruct (m w) as [[a|e] w']; simpl in *.
  - eapply R_trans; [exact Hm | apply Hk].
  - exact Hm.
Qed.

Lemma preserves_try_except {A} (m : M Obs A) (h : exn -> M Obs A) :
  preserves R m -> (forall e, preserves R (h e)) -> preserves R (try_except m h).
Proof.
  intros Hm Hh w. unfold try_except. specialize (Hm w).
  destruct (m w) as [[a|e] w']; simpl in *.
  - exact Hm.
  - eapply R_trans; [exact Hm | apply Hh].
Qed.

Lemma preserves_try_finally {A} (m : M Obs A) (f : M Obs unit) :
  preserves R m -> preserves R f -> preserves R (try_finally m f).
Proof.
  intros Hm Hf w. unfold try_finally. specialize (Hm w).
  destruct (m w) as [r w']; simpl in *. specialize (Hf w').
  destruct (f w') as [[u|e] w'']; simpl in *; eapply R_trans; eassumption.
Qed.

End Preservation.

(** ** Cache facade *)

Section CacheFacts.

Variable Obs : Type.
Variable E : Env.

Local Abbreviation Py := (M Obs).

Lemma quiet_refl (w : World Obs) : quiet w w.
Proof. repeat split; reflexivity. Qed.

Lemma quiet_trans (w1 w2 w3 : World Obs) :
  quiet w1 w2 -> quiet w2 w3 -> quiet w1 w3.
Proof.
  unfold quiet. intros (? & ? & ? & ?) (? & ? & ? & ?).
  repeat split; congruence.
Qed.

(** The operations on the stores are quiet. *)
Ltac primitive :=
  intros w;
  unfold execute_select, execute_upsert, commit, load_file, dump_file;
  unfold datetime_now, file_exists, open_file, bind, db_operation;
  repeat (match goal with
          | |- context [match ?x with _ => _ end] =>
              lazymatch x with
              | context [match _ with _ => _ end] => fail
              | _ => destruct x
              end
          end; simpl);
  repeat split; reflexivity.

Lemma quiet_datetime_now : preserves quiet (datetime_now Obs).
Proof. primitive. Qed.

Lemma quiet_db_operation : preserves quiet (db_operation Obs E).
Proof. primitive. Qed.

Lemma quiet_execute_select k t : preserves quiet (execute_select Obs E k t).
Proof. primitive. Qed.

Lemma quiet_execute_upsert k v a t :
  preserves quiet (execute_upsert Obs E k v a t).
Proof. primitive. Qed.

Lemma quiet_commit p : preserves quiet (commit Obs E p).
Proof. primitive. Qed.

Lemma quiet_file_exists k : preserves quiet (file_exists Obs k).
Proof. primitive. Qed.

Lemma quiet_load_file k : preserves quiet (load_file Obs E k).
Proof. primitive. Qed.

Lemma quiet_dump_file k v t : preserves quiet (dump_file Obs E k v t).
Proof. primitive. Qed.

Ltac quiet :=
  repeat first
    [ apply preserves_ret; apply quiet_refl
    | apply preserves_raise; apply quiet_refl
    | apply preserves_lift; apply quiet_refl
    | apply quiet_datetime_now | apply quiet_db_operation
    | apply quiet_execute_select | apply quiet_execute_upsert
    | apply quiet_commit | apply quiet_file_exists
    | apply quiet_load_file | apply quiet_dump_file
    | apply preserves_bind; [apply quiet_trans | | intro]
    | apply preserves_try_except; [apply quiet_trans | | intro]
    | apply preserves_try_finally; [apply quiet_trans | | ]
    | match goal with
      | |- preserves _ (match ?x with _ => _ end) => destruct x
      end ].

Lemma quiet_get_cached_response_try k :
  preserves quiet (get_cached_response_try Obs E k).
Proof. unfold get_cached_response_try. quiet. Qed.

Lemma quiet_cache_response_try k v a t :
  preserves quiet (cache_response_try Obs E k v a t).
Proof. unfold cache_response_try. quiet. Qed.

(** [conn.close()] in a [finally] keeps the outcome of the block. *)
Lemma try_finally_close {A} (m : Py A) (conn : nat) (w : World Obs) :
  try_finally m (conn_close Obs conn) w = (fst (m w), tick_closed (snd (m w))).
Proof. unfold try_finally, conn_close. now destruct (m w). Qed.


Lemma lookup_upsert {A} (k : string) (a : A) (f : A -> A) (l : list (string * A)) :
  lookup k (upsert k a f l)
  = Some (match lookup k l with Some a' => f a' | None => a end).
Proof.
  induction l as [|[k' a'] l IH]; simpl.
  - now rewrite String.eqb_refl.
  - destruct (String.eqb k k') eqn:Hk; simpl; rewrite Hk; [reflexivity | exact IH].
Qed.

(** A lookup whose connection cannot be obtained raises. *)
Lemma get_cached_response_connect_error
    (q : query_data) (api_type : string) (w : World Obs) (msg : string) :
  db_fault E (db_ops w) = Some msg ->
  fst (get_cached_response Obs E q api_type w) = Raise (SqliteError msg).
Proof.
  intros H. unfold get_cached_response, get_db_connection, db_operation, bind.
  now rewrite H.
Qed.

(** A lookup whose query fails raises, the connection being closed. *)
Lemma get_cached_response_query_error
    (q : query_data) (api_type : string) (w : World Obs) (msg : string) :
  db_fault E (db_ops w) = None ->
  db_fault E (S (db_ops w)) = Some msg ->
  fst (get_cached_response Obs E q api_type w) = Raise (SqliteError msg).
Proof.
  intros H1 H2.
  unfold get_cached_response, get_db_connection, db_operation, bind.
  rewrite H1, try_finally_close. cbn [fst].
  unfold get_cached_response_try, execute_select, db_operation, datetime_now,
    bind.
  cbn [db_ops tick_opened tick_db]. now rewrite H2.
Qed.

(** C1 (the code departs from it).  When the durable store raises during a
    lookup, at the connection or at the query, [get_cached_response] raises
    that error: the block under [try] has a [finally] and no [except]. *)
Theorem get_cached_response_store_error_propagates
    (q : query_data) (api_type : string) (w : World Obs) (msg : string) :
  db_fault E (db_ops w) = Some msg
  \/ (db_fault E (db_ops w) = None /\ db_fault E (S (db_ops w)) = Some msg) ->
  fst (get_cached_response Obs E q api_type w) = Raise (SqliteError msg).
Proof.
  intros [H | [H1 H2]].
  - now apply get_cached_response_connect_error.
  - now apply get_cached_response_query_error.
Qed.

(** C3 (the code departs from it).  The statements of the durable store
    fail while connections are obtained: [cache_response] writes the entry to
    the fallback store, and the following [get_cached_response] for the same
    key raises the store's error without reading it. *)
Theorem fallback_not_served_during_outage
    (q : query_data) (v : json) (api_type : string) (expire_hours : Z)
    (w : World Obs) (m1 m2 : string) :
  db_fault E (db_ops w) = None ->
  db_fault E (S (db_ops w)) = Some m1 ->
  fs_fault E (fs_ops w) = false ->
  db_fault E (S (S (db_ops w))) = None ->
  db_fault E (S (S (S (db_ops w)))) = Some m2 ->
  let w1 := snd (cache_response Obs E q v api_type expire_hours w) in
  fst (cache_response Obs E q v api_type expire_hours w) = Ok tt
  /\ lookup (_generate_key q api_type) (cache_dir w1)
     = Some (FileEntry v (now w + expire_hours * 3600))
  /\ fst (get_cached_response Obs E q api_type w1) = Raise (SqliteError m2).
Proof.
  intros Hc1 Hs1 Hf Hc2 Hs2. cbv zeta.
  assert (Hrun : cache_response Obs E q v api_type expire_hours w
    = (Ok tt,
       tick_closed
         (set_cache_dir
            (upsert (_generate_key q api_type)
               (FileEntry v (now w + expire_hours * 3600))
               (fun _ => FileEntry v (now w + expire_hours * 3600))
               (cache_dir w))
            (tick_fs (tick_db (tick_opened (tick_db w))))))).
  { unfold cache_response, get_db_connection, db_operation, datetime_now, bind.
    rewrite Hc1, try_finally_close.
    unfold cache_response_try, try_except, execute_upsert, db_operation, bind.
    cbn [db_ops tick_opened tick_db]. rewrite Hs1.
    unfold _save_to_file_cache, try_except, dump_file, open_file, bind.
    cbn [fs_ops tick_opened tick_db]. rewrite Hf. reflexivity. }
  rewrite Hrun. cbn [fst snd]. split; [reflexivity|]. split.
  - cbn [cache_dir tick_closed set_cache_dir]. rewrite lookup_upsert.
    now destruct (lookup _ _).
  - apply get_cached_response_query_error;
      cbn [db_ops tick_closed set_cache_dir tick_fs tick_db tick_opened];
      assumption.
Qed.

(** With the durable store down altogether [cache_response] itself raises,
    the connection being asked for outside the [try]: nothing is written to
    the fallback store. *)
Lemma cache_response_store_down
    (q : query_data) (v : json) (api_type : string) (expire_hours : Z)
    (w : World Obs) (msg : string) :
  db_fault E (db_ops w) = Some msg ->
  fst (cache_response Obs E q v api_type expire_hours w)
  = Raise (SqliteError msg)
  /\ cache_dir (snd (cache_response Obs E q v api_type expire_hours w))
     = cache_dir w.
Proof.
  intros H.
  unfold cache_response, get_db_connection, db_operation, datetime_now, bind.
  rewrite H. split; reflexivity.
Qed.

(** Where the fallback store does serve: the durable store answers the
    query and has no live entry for the key, the file holds a live one. *)
Lemma get_cached_response_fallback
    (q : query_data) (api_type : string) (w : World Obs) (v : json) (t : Z) :
  db_fault E (db_ops w) = None ->
  db_fault E (S (db_ops w)) = None ->
  lookup (_generate_key q api_type) (api_cache w) = None ->
  lookup (_generate_key q api_type) (cache_dir w) = Some (FileEntry v t) ->
  fs_fault E (fs_ops w) = false ->
  (now w < t)%Z ->
  fst (get_cached_response Obs E q api_type w) = Ok v.
Proof.
  intros Hc Hs Hdb Hfile Hfs Ht.
  unfold get_cached_response, get_db_connection, db_operation, bind.
  rewrite Hc, try_finally_close. cbn [fst].
  unfold get_cached_response_try, execute_select, db_operation, datetime_now,
    file_exists, try_except, load_file, open_file, bind.
  cbn [db_ops fs_ops api_cache cache_dir now tick_opened tick_db tick_fs].
  rewrite Hs. cbn [api_cache tick_db tick_opened]. rewrite Hdb.
  cbn [cache_dir tick_db tick_opened]. rewrite Hfile.
  cbn [fs_ops tick_db tick_opened]. rewrite Hfs.
  cbn [cache_dir tick_fs tick_db tick_opened]. rewrite Hfile.
  cbn [now snd fst tick_fs tick_db tick_opened].
  apply Z.ltb_lt in Ht. now rewrite Ht.
Qed.

End CacheFacts.

(** C1 at the geocoding request, the query of the durable store failing. *)
Lemma get_cached_response_store_error_propagates_witness :
  (db_fault (env_statements_fail "ok") (db_ops empty_world)
   = Some "disk I/O error"
   \/ (db_fault (env_statements_fail "ok") (db_ops empty_world) = None
       /\ db_fault (env_statements_fail "ok") (S (db_ops empty_world))
          = Some "disk I/O error"))
  /\ fst (get_cached_response unit (env_statements_fail "ok")
            geocode_paris "geocode" empty_world)
     = Raise (SqliteError "disk I/O error").
Proof.
  assert (H : db_fault (env_statements_fail "ok") (db_ops empty_world)
              = Some "disk I/O error"
              \/ (db_fault (env_statements_fail "ok") (db_ops empty_world) = None
                  /\ db_fault (env_statements_fail "ok")
                       (S (db_ops empty_world)) = Some "disk I/O error")).
  { right. split; reflexivity. }
  split; [exact H|].
  exact (get_cached_response_store_error_propagates unit
           (env_statements_fail "ok") geocode_paris "geocode" empty_world
           "disk I/O error" H).
Defined.

(** C3 at the geocoding request: written to the fallback store, not served. *)
Lemma fallback_not_served_during_outage_witness :
  let E := env_statements_fail "ok" in
  let v := JStr "48.85,2.35" in
  let w1 := snd (cache_response unit E geocode_paris v "geocode" 720
                   empty_world) in
  fst (cache_response unit E geocode_paris v "geocode" 720 empty_world) = Ok tt
  /\ lookup (_generate_key geocode_paris "geocode") (cache_dir w1)
     = Some (FileEntry v (now empty_world + 720 * 3600))
  /\ fst (get_cached_response unit E geocode_paris "geocode" w1)
     = Raise (SqliteError "disk I/O error").
Proof.
  exact (fallback_not_served_during_outage unit (env_statements_fail "ok")
           geocode_paris (JStr "48.85,2.35") "geocode" 720 empty_world
           "disk I/O error" "disk I/O error"
           eq_refl eq_refl eq_refl eq_refl eq_refl).
Defined.

(** ** Independence from the observer *)

Section Simulation.

Variable Obs : Type.
Variable E : Env.

Local Abbreviation Py := (M Obs).

Lemma same_but_observer_refl (w : World Obs) : same_but_observer w w.
Proof. now destruct w. Qed.

Lemma same_but_observer_set (w1 w2 : World Obs) (o : Obs) :
  same_but_observer w1 w2 -> same_but_observer (set_observer o w1) w2.
Proof.
  unfold same_but_observer. destruct w1, w2; cbn. intros H.
  injection H as -> -> -> -> -> -> -> ->. reflexivity.
Qed.

Lemma same_but_observer_sym (w1 w2 : World Obs) :
  same_but_observer w1 w2 -> same_but_observer w2 w1.
Proof.
  unfold same_but_observer. destruct w1, w2; cbn. intros H.
  injection H as -> -> -> -> -> -> -> ->. reflexivity.
Qed.

(** An operation that does not look at the observer. *)
Ltac blind :=
  intros w1 w2 H; unfold same_but_observer in H;
  destruct w1, w2; cbn in H; injection H as -> -> -> -> -> -> -> ->;
  unfold execute_select, execute_upsert, commit, load_file, dump_file,
    get_db_connection, conn_close, remote_call, sleep;
  unfold datetime_now, file_exists, open_file, bind, db_operation;
  cbn;
  repeat (match goal with
          | |- context [match ?x with _ => _ end] =>
              lazymatch x with
              | context [match _ with _ => _ end] => fail
              | _ => destruct x
              end
          end; cbn);
  split; reflexivity.

Lemma sim_ret {A} (a : A) : sim (@ret Obs A a) (ret a).
Proof. intros w1 w2 H. split; [reflexivity | exact H]. Qed.

Lemma sim_raise {A} (e : exn) : sim (@raise Obs A e) (raise e).
Proof. intros w1 w2 H. split; [reflexivity | exact H]. Qed.

Lemma sim_lift {A} (r : outcome A) : sim (@lift Obs A r) (lift r).
Proof. intros w1 w2 H. split; [reflexivity | exact H]. Qed.

Lemma sim_bind {A B} (m1 m2 : Py A) (k1 k2 : A -> Py B) :
  sim m1 m2 -> (forall a, sim (k1 a) (k2 a)) -> sim (bind m1 k1) (bind m2 k2).
Proof.
  intros Hm Hk w1 w2 H. unfold bind. destruct (Hm w1 w2 H) as [Hr Hw].
  destruct (m1 w1) as [r1 w1'], (m2 w2) as [r2 w2']. cbn in Hr, Hw. subst r2.
  destruct r1 as [a|e]; [now apply Hk | split; [reflexivity | exact Hw]].
Qed.

Lemma sim_try_except {A} (m1 m2 : Py A) (h1 h2 : exn -> Py A) :
  sim m1 m2 -> (forall e, sim (h1 e) (h2 e)) ->
  sim (try_except m1 h1) (try_except m2 h2).
Proof.
  intros Hm Hh w1 w2 H. unfold try_except. destruct (Hm w1 w2 H) as [Hr Hw].
  destruct (m1 w1) as [r1 w1'], (m2 w2) as [r2 w2']. cbn in Hr, Hw. subst r2.
  destruct r1 as [a|e]; [split; [reflexivity | exact Hw] | now apply Hh].
Qed.

Lemma sim_try_finally {A} (m1 m2 : Py A) (f1 f2 : Py unit) :
  sim m1 m2 -> sim f1 f2 -> sim (try_finally m1 f1) (try_finally m2 f2).
Proof.
  intros Hm Hf w1 w2 H. unfold try_finally. destruct (Hm w1 w2 H) as [Hr Hw].
  destruct (m1 w1) as [r1 w1'], (m2 w2) as [r2 w2']. cbn in Hr, Hw. subst r2.
  destruct (Hf w1' w2' Hw) as [Hr' Hw'].
  destruct (f1 w1') as [u1 w1''], (f2 w2') as [u2 w2'']. cbn in Hr', Hw'.
  subst u2. destruct u1; split; (reflexivity || exact Hw').
Qed.

Lemma sim_datetime_now : sim (datetime_now Obs) (datetime_now Obs).
Proof. blind. Qed.

Lemma sim_sleep d : sim (sleep Obs d) (sleep Obs d).
Proof. blind. Qed.

Lemma sim_get_db_connection :
  sim (get_db_connection Obs E) (get_db_connection Obs E).
Proof. blind. Qed.

Lemma sim_conn_close c : sim (conn_close Obs c) (conn_close Obs c).
Proof. blind. Qed.

Lemma sim_execute_select k t :
  sim (execute_select Obs E k t) (execute_select Obs E k t).
Proof. blind. Qed.

Lemma sim_execute_upsert k v a t :
  sim (execute_upsert Obs E k v a t) (execute_upsert Obs E k v a t).
Proof. blind. Qed.

Lemma sim_commit p : sim (commit Obs E p) (commit Obs E p).
Proof. blind. Qed.

Lemma sim_file_exists k : sim (file_exists Obs k) (file_exists Obs k).
Proof. blind. Qed.

Lemma sim_load_file k : sim (load_file Obs E k) (load_file Obs E k).
Proof. blind. Qed.

Lemma sim_dump_file k v t :
  sim (dump_file Obs E k v t) (dump_file Obs E k v t).
Proof. blind. Qed.

Lemma sim_remote_call r : sim (remote_call Obs E r) (remote_call Obs E r).
Proof. blind. Qed.

(** Whatever the two observers and the two notices, a notice changes the
    state of the observer only. *)
Lemma sim_notify (cb1 cb2 : option (string -> Obs -> Obs)) (msg1 msg2 : string) :
  sim (notify Obs cb1 msg1) (notify Obs cb2 msg2).
Proof.
  intros w1 w2 H. unfold notify.
  destruct cb1, cb2; cbn; split; try reflexivity;
    repeat first [ apply same_but_observer_set
                 | apply same_but_observer_sym, same_but_observer_set,
                     same_but_observer_sym ];
    exact H.
Qed.

Ltac simulate :=
  repeat first
    [ apply sim_ret | apply sim_raise | apply sim_lift | apply sim_notify
    | apply sim_datetime_now | apply sim_sleep | apply sim_get_db_connection
    | apply sim_conn_close | apply sim_execute_select
    | apply sim_execute_upsert | apply sim_commit | apply sim_file_exists
    | apply sim_load_file | apply sim_dump_file | apply sim_remote_call
    | apply sim_bind; [ | intro]
    | apply sim_try_except; [ | intro]
    | apply sim_try_finally
    | match goal with
      | |- sim (match ?x with _ => _ end) (match ?x with _ => _ end) =>
          destruct x
      end ].

Lemma sim_get_cached_response q api_type :
  sim (get_cached_response Obs E q api_type)
      (get_cached_response Obs E q api_type).
Proof. unfold get_cached_response, get_cached_response_try. simulate. Qed.

Lemma sim_cache_response q v api_type h :
  sim (cache_response Obs E q v api_type h)
      (cache_response Obs E q v api_type h).
Proof.
  unfold cache_response, cache_response_try, _save_to_file_cache. simulate.
Qed.

Lemma sim_attempts (cb1 cb2 : option (string -> Obs -> Obs)) key r remaining :
  forall attempt delay,
    sim (attempts Obs E cb1 key r remaining attempt delay)
        (attempts Obs E cb2 key r remaining attempt delay).
Proof.
  induction remaining as [|remaining IH]; intros attempt delay; cbn [attempts].
  - apply sim_ret.
  - simulate; try apply sim_cache_response; apply IH.
Qed.

Lemma sim_call_openai_api (cb1 cb2 : option (string -> Obs -> Obs))
    prompt system_prompt model temperature max_tokens :
  sim (call_openai_api Obs E prompt system_prompt model temperature max_tokens cb1)
      (call_openai_api Obs E prompt system_prompt model temperature max_tokens cb2).
Proof.
  unfold call_openai_api. simulate;
    try apply sim_get_cached_response; apply sim_attempts.
Qed.


End Simulation.

(** ** Resilient invoker *)

Section InvokerFacts.

Variable Obs : Type.
Variable E : Env.

Local Abbreviation Py := (M Obs).
Local Abbreviation callback := (option (string -> Obs -> Obs)).

Lemma same_but_observer_fields (w1 w2 : World Obs) :
  same_but_observer w1 w2 ->
  api_cache w1 = api_cache w2 /\ cache_dir w1 = cache_dir w2
  /\ now w1 = now w2 /\ db_ops w1 = db_ops w2 /\ fs_ops w1 = fs_ops w2
  /\ conn_opened w1 = conn_opened w2 /\ conn_closed w1 = conn_closed w2
  /\ remote_calls w1 = remote_calls w2.
Proof.
  unfold same_but_observer. destruct w1, w2; cbn. intros H.
  injection H as -> -> -> -> -> -> -> ->. repeat split; reflexivity.
Qed.

Lemma bind_ok {A B} (m : Py A) (k : A -> Py B) (w w' : World Obs) (a : A) :
  m w = (Ok a, w') -> bind m k w = k a w'.
Proof. intros H. unfold bind. now rewrite H. Qed.

(** A notice returns and touches the observer only. *)
Lemma notify_ok (cb : callback) (msg : string) (w : World Obs) :
  notify Obs cb msg w = (Ok tt, snd (notify Obs cb msg w)).
Proof. unfold notify. now destruct cb. Qed.

Lemma notify_same (cb : callback) (msg : string) (w : World Obs) :
  same_but_observer (snd (notify Obs cb msg w)) w.
Proof. unfold notify. destruct cb; destruct w; reflexivity. Qed.

(** A lookup makes no remote call and does not move the clock. *)
Lemma get_cached_response_frame (q : query_data) (api_type : string)
    (w : World Obs) :
  let w' := snd (get_cached_response Obs E q api_type w) in
  remote_calls w' = remote_calls w /\ now w' = now w.
Proof.
  cbv zeta.
  unfold get_cached_response, get_db_connection, db_operation, bind.
  destruct (db_fault E (db_ops w)); [split; reflexivity|].
  rewrite try_finally_close. cbn [snd].
  destruct (quiet_get_cached_response_try Obs E (_generate_key q api_type)
              (tick_opened (tick_db w))) as (_ & _ & Hr & Hn).
  cbn [remote_calls now tick_closed tick_opened tick_db] in *.
  split; assumption.
Qed.

(** One iteration of the retry loop whose remote call fails: the error is
    reported, and either the loop sleeps and goes on or, at the last attempt,
    the call returns the error text. *)
Lemma attempts_failure (cb : callback) (key : query_data) (r : request)
    (remaining attempt : nat) (delay : Z) (w : World Obs) (e : exn) :
  remote E (remote_calls w) r = Raise e ->
  exists w1,
    remote_calls w1 = S (remote_calls w) /\ now w1 = now w
    /\ attempts Obs E cb key r (S remaining) attempt delay w
       = if (attempt <? max_retries - 1)%nat
         then attempts Obs E cb key r remaining (S attempt) (delay * 2)
                (set_now (now w1 + delay) w1)
         else (Ok (JStr ("Error: " ++ exn_str e)), w1).
Proof.
  intros Hfail. cbn [attempts].
  set (prelude := if (0 <? attempt)%nat
                  then notify Obs cb _ else ret tt).
  assert (Hpre : prelude w = (Ok tt, snd (prelude w))
                 /\ same_but_observer (snd (prelude w)) w).
  { unfold prelude. destruct (0 <? attempt)%nat.
    - split; [apply notify_ok | apply notify_same].
    - split; [reflexivity | apply same_but_observer_refl]. }
  destruct Hpre as [Hpre Hsame].
  apply same_but_observer_fields in Hsame
    as (_ & _ & Hnow & _ & _ & _ & _ & Hcalls).
  set (w0 := snd (prelude w)) in *.
  set (w1 := snd (notify Obs cb ("Error: " ++ exn_str e) (tick_remote w0))).
  pose proof (notify_same cb ("Error: " ++ exn_str e) (tick_remote w0)) as Hs1.
  apply same_but_observer_fields in Hs1
    as (_ & _ & Hnow1 & _ & _ & _ & _ & Hcalls1).
  fold w1 in Hnow1, Hcalls1. cbn [now remote_calls tick_remote] in *.
  exists w1. split; [congruence|]. split; [congruence|].
  unfold try_except.
  rewrite (bind_ok _ _ _ _ _ Hpre). fold w0.
  unfold bind at 1. unfold remote_call at 1. rewrite Hcalls, Hfail.
  rewrite (bind_ok _ _ _ _ _ (notify_ok cb _ (tick_remote w0))). fold w1.
  destruct (attempt <? max_retries - 1)%nat; [|reflexivity].
  unfold bind, sleep. reflexivity.
Qed.

(** The retry loop when every remote call fails: three calls, then the text
    of the last error. *)
Lemma attempts_all_fail (cb : callback) (key : query_data) (r : request)
    (w : World Obs) :
  (forall n r', exists e, remote E n r' = Raise e) ->
  exists e,
    remote E (remote_calls w + 2) r = Raise e
    /\ fst (attempts Obs E cb key r max_retries 0 1 w)
       = Ok (JStr ("Error: " ++ exn_str e))
    /\ remote_calls (snd (attempts Obs E cb key r max_retries 0 1 w))
       = remote_calls w + 3
    /\ now (snd (attempts Obs E cb key r max_retries 0 1 w)) = (now w + 3)%Z.
Proof.
  intros Hfail. unfold max_retries.
  destruct (Hfail (remote_calls w) r) as [e1 He1].
  destruct (attempts_failure cb key r 2 0 1 w e1 He1) as (w1 & Hc1 & Hn1 & Hrun1).
  rewrite Hrun1. change (0 <? max_retries - 1)%nat with true. cbv iota.
  set (w1' := set_now (now w1 + 1) w1).
  assert (Hc1' : remote_calls w1' = S (remote_calls w)) by (destruct w1; exact Hc1).
  assert (Hn1' : now w1' = (now w + 1)%Z) by (destruct w1; cbn in *; lia).
  destruct (Hfail (remote_calls w1') r) as [e2 He2].
  destruct (attempts_failure cb key r 1 1 (1 * 2) w1' e2 He2)
    as (w2 & Hc2 & Hn2 & Hrun2).
  rewrite Hrun2. change (1 <? max_retries - 1)%nat with true. cbv iota.
  set (w2' := set_now (now w2 + 1 * 2) w2).
  assert (Hc2' : remote_calls w2' = S (S (remote_calls w)))
    by (destruct w2; cbn in *; congruence).
  assert (Hn2' : now w2' = (now w + 3)%Z) by (destruct w2; cbn in *; lia).
  destruct (Hfail (remote_calls w2') r) as [e3 He3].
  destruct (attempts_failure cb key r 0 2 (1 * 2 * 2) w2' e3 He3)
    as (w3 & Hc3 & Hn3 & Hrun3).
  rewrite Hrun3. change (2 <? max_retries - 1)%nat with false. cbv iota.
  exists e3. cbn [fst snd]. repeat split.
  - rewrite <- He3. f_equal. lia.
  - lia.
  - lia.
Qed.

(** The shaping step returns when [optimize_prompt] does, and touches the
    observer only. *)
Lemma shaping_ok (b : bool) (cb : callback) (msg prompt : string)
    (o : outcome string) (w : World Obs) :
  (forall e, o <> Raise e) ->
  exists content w',
    (if b then bind (notify Obs cb msg) (fun _ => lift o) else ret prompt) w
    = (Ok content, w')
    /\ same_but_observer w' w.
Proof.
  intros Ho. destruct b.
  - destruct o as [content|e]; [|now destruct (Ho e)].
    exists content, (snd (notify Obs cb msg w)). split; [|apply notify_same].
    now rewrite (bind_ok _ _ _ _ _ (notify_ok cb msg w)).
  - exists prompt, w. split; [reflexivity | apply same_but_observer_refl].
Qed.

(** The lookup of [call_openai_api], made after the first notice, is the
    lookup made from the world the call starts in. *)
Lemma lookup_after_notice (cb : callback) (msg : string) (q : query_data)
    (w : World Obs) :
  let w0 := snd (notify Obs cb msg w) in
  fst (get_cached_response Obs E q "openai" w0)
  = fst (get_cached_response Obs E q "openai" w)
  /\ same_but_observer (snd (get_cached_response Obs E q "openai" w0))
                       (snd (get_cached_response Obs E q "openai" w)).
Proof.
  cbv zeta. apply sim_get_cached_response, notify_same.
Qed.

(** C2.  Retry ceiling and terminal error.  An invocation that reaches the
    remote service (the module is there, the lookup finds nothing, shaping
    does not raise) and whose remote call fails at every attempt makes
    exactly [max_retries] = 3 remote calls, sleeping 1 and 2 seconds between
    them, and then returns the text of the error of the third call; nothing
    is returned before. *)
Theorem call_openai_api_retry_ceiling
    (prompt : string) (system_prompt : option string) (model : string)
    (temperature : json) (max_tokens : Z) (cb : callback)
    (w : World Obs) (v : json) :
  openai_available E = true ->
  fst (get_cached_response Obs E
         (openai_cache_key prompt system_prompt model temperature max_tokens)
         "openai" w) = Ok v ->
  truthy v = false ->
  (forall e, optimize_prompt (tokenizer E) prompt
               (4000 - count E (or_empty system_prompt))%Q <> Raise e) ->
  (forall n r, exists e, remote E n r = Raise e) ->
  let result :=
    call_openai_api Obs E prompt system_prompt model temperature max_tokens
      cb w in
  exists r e,
    req_model r = model
    /\ remote E (remote_calls w + 2) r = Raise e
    /\ fst result = Ok (JStr ("Error: " ++ exn_str e))
    /\ remote_calls (snd result) = remote_calls w + max_retries
    /\ now (snd result) = (now w + 3)%Z.
Proof.
  intros Havail Hlook Hfalsy Hshape Hfail. cbv zeta.
  unfold call_openai_api. rewrite Havail. cbn [negb].
  rewrite (bind_ok _ _ _ _ _ (notify_ok cb _ w)).
  set (key := openai_cache_key prompt system_prompt model temperature
                max_tokens) in *.
  set (w0 := snd (notify Obs cb "Preparing to call OpenAI API..." w)).
  destruct (lookup_after_notice cb "Preparing to call OpenAI API..." key w)
    as [Hfst Hsame].
  fold w0 in Hfst, Hsame. rewrite Hlook in Hfst.
  pose proof (get_cached_response_frame key "openai" w) as [Hc Hn].
  apply same_but_observer_fields in Hsame
    as (_ & _ & Hn1 & _ & _ & _ & _ & Hc1).
  destruct (get_cached_response Obs E key "openai" w0) as [r1 w1] eqn:Hrun.
  cbn [fst snd] in Hfst, Hn1, Hc1. subst r1.
  rewrite (bind_ok _ _ _ _ _ Hrun). rewrite Hfalsy.
  rewrite (bind_ok _ _ _ _ _ (notify_ok cb _ w1)).
  set (w2 := snd (notify Obs cb "Making API call to OpenAI..." w1)).
  pose proof (notify_same cb "Making API call to OpenAI..." w1) as Hs2.
  fold w2 in Hs2.
  apply same_but_observer_fields in Hs2 as (_ & _ & Hn2 & _ & _ & _ & _ & Hc2).
  match goal with
  | |- context [bind (if ?b then bind (notify Obs cb ?msg) _ else _) _ w2] =>
      destruct (shaping_ok b cb msg prompt _ w2 Hshape)
        as (content & w3 & Hshaping & Hs3)
  end.
  rewrite (bind_ok _ _ _ _ _ Hshaping).
  apply same_but_observer_fields in Hs3 as (_ & _ & Hn3 & _ & _ & _ & _ & Hc3).
  match goal with
  | |- context [attempts Obs E cb key ?r max_retries 0 1 w3] =>
      destruct (attempts_all_fail cb key r w3 Hfail)
        as (e & He & Hres & Hcalls & Hnow);
      exists r, e
  end.
  split; [reflexivity|].
  split; [rewrite <- He; f_equal; congruence|].
  split; [exact Hres|].
  split; [rewrite Hcalls; unfold max_retries; congruence|].
  rewrite Hnow. congruence.
Qed.

(** A lookup that finds a live row of the durable store returns its value. *)
Lemma get_cached_response_hit (q : query_data) (api_type : string)
    (w : World Obs) (r : row) :
  db_fault E (db_ops w) = None ->
  db_fault E (S (db_ops w)) = None ->
  lookup (_generate_key q api_type) (api_cache w) = Some r ->
  (now w < expires_at r)%Z ->
  fst (get_cached_response Obs E q api_type w) = Ok (response_data r).
Proof.
  intros Hc Hs Hrow Hlive.
  unfold get_cached_response, get_db_connection, db_operation, bind.
  rewrite Hc, try_finally_close. cbn [fst].
  unfold get_cached_response_try, execute_select, db_operation, datetime_now,
    bind.
  cbn [db_ops api_cache now tick_opened tick_db]. rewrite Hs.
  cbn [api_cache tick_opened tick_db]. rewrite Hrow.
  apply Z.ltb_lt in Hlive. now rewrite Hlive.
Qed.

(** A write to a healthy durable store upserts the row of the key. *)
Lemma cache_response_healthy (q : query_data) (v : json) (api_type : string)
    (expire_hours : Z) (w : World Obs) :
  db_fault E (db_ops w) = None ->
  db_fault E (S (db_ops w)) = None ->
  db_fault E (S (S (db_ops w))) = None ->
  cache_response Obs E q v api_type expire_hours w
  = (Ok tt,
     tick_closed
       (set_api_cache
          (upsert (_generate_key q api_type)
             (mkRow v api_type (now w + expire_hours * 3600))
             (fun r => mkRow v (api_type_col r) (now w + expire_hours * 3600))
             (api_cache w))
          (tick_db (tick_db (tick_opened (tick_db w)))))).
Proof.
  intros H0 H1 H2.
  unfold cache_response, get_db_connection, db_operation, datetime_now, bind.
  rewrite H0, try_finally_close.
  unfold cache_response_try, try_except, execute_upsert, commit, db_operation,
    bind.
  cbn [db_ops tick_opened tick_db]. rewrite H1.
  cbn [db_ops tick_opened tick_db]. rewrite H2. reflexivity.
Qed.

(** Cache hit: a lookup that returns a truthy value ends the call with that
    value, in the world the lookup leaves up to the observer. *)
Lemma call_openai_api_hit
    (prompt : string) (system_prompt : option string) (model : string)
    (temperature : json) (max_tokens : Z) (cb : callback)
    (w : World Obs) (v : json) :
  openai_available E = true ->
  fst (get_cached_response Obs E
         (openai_cache_key prompt system_prompt model temperature max_tokens)
         "openai" w) = Ok v ->
  truthy v = true ->
  let result :=
    call_openai_api Obs E prompt system_prompt model temperature max_tokens
      cb w in
  fst result = Ok v
  /\ same_but_observer (snd result)
       (snd (get_cached_response Obs E
               (openai_cache_key prompt system_prompt model temperature
                  max_tokens) "openai" w)).
Proof.
  intros Havail Hlook Htruthy. cbv zeta.
  unfold call_openai_api. rewrite Havail. cbn [negb].
  rewrite (bind_ok _ _ _ _ _ (notify_ok cb _ w)).
  set (key := openai_cache_key prompt system_prompt model temperature
                max_tokens) in *.
  destruct (lookup_after_notice cb "Preparing to call OpenAI API..." key w)
    as [Hfst Hsame].
  rewrite Hlook in Hfst.
  destruct (get_cached_response Obs E key "openai"
              (snd (notify Obs cb "Preparing to call OpenAI API..." w)))
    as [r1 w1] eqn:Hrun.
  cbn [fst snd] in Hfst, Hsame. subst r1.
  rewrite (bind_ok _ _ _ _ _ Hrun). rewrite Htruthy.
  rewrite (bind_ok _ _ _ _ _ (notify_ok cb _ w1)).
  cbn [fst snd ret]. split; [reflexivity|].
  pose proof (notify_same cb "Retrieved response from cache" w1) as Hs.
  unfold same_but_observer in *.
  destruct (snd (notify Obs cb "Retrieved response from cache" w1)), w1,
    (snd (get_cached_response Obs E key "openai" w)); cbn in *.
  injection Hs as -> -> -> -> -> -> -> ->.
  injection Hsame as -> -> -> -> -> -> -> ->. reflexivity.
Qed.

(** The first iteration of the retry loop when the remote call and the
    write to the cache return. *)
Lemma attempts_success (cb : callback) (key : query_data) (r : request)
    (remaining : nat) (delay : Z) (w wc : World Obs) (answer : json) :
  remote E (remote_calls w) r = Ok answer ->
  cache_response Obs E key answer "openai" 24 (tick_remote w) = (Ok tt, wc) ->
  attempts Obs E cb key r (S remaining) 0 delay w
  = (Ok answer,
     snd (notify Obs cb "Successfully received response from OpenAI" wc)).
Proof.
  intros Hremote Hcache. cbn [attempts].
  change (0 <? 0)%nat with false. cbv iota. unfold try_except.
  rewrite (bind_ok (ret tt) _ w w tt eq_refl).
  assert (Hcall : remote_call Obs E r w = (Ok answer, tick_remote w)).
  { unfold remote_call. now rewrite Hremote. }
  rewrite (bind_ok (remote_call Obs E r) _ _ _ _ Hcall).
  rewrite (bind_ok (cache_response Obs E key answer "openai" 24) _ _ _ _ Hcache).
  rewrite (bind_ok (notify Obs cb _) _ _ _ _ (notify_ok cb _ wc)).
  reflexivity.
Qed.

(** Cache miss and a first remote call that succeeds, the durable store being
    healthy: one remote call, and the answer is written under the key of the
    request as it was given, live for 24 hours. *)
Lemma call_openai_api_miss_success
    (prompt : string) (system_prompt : option string) (model : string)
    (temperature : json) (max_tokens : Z) (cb : callback)
    (w : World Obs) (v answer : json) :
  openai_available E = true ->
  (forall n, db_fault E n = None) ->
  fst (get_cached_response Obs E
         (openai_cache_key prompt system_prompt model temperature max_tokens)
         "openai" w) = Ok v ->
  truthy v = false ->
  (forall e, optimize_prompt (tokenizer E) prompt
               (4000 - count E (or_empty system_prompt))%Q <> Raise e) ->
  (forall r, remote E (remote_calls w) r = Ok answer) ->
  let result :=
    call_openai_api Obs E prompt system_prompt model temperature max_tokens
      cb w in
  fst result = Ok answer
  /\ remote_calls (snd result) = S (remote_calls w)
  /\ exists r,
       lookup (_generate_key
                 (openai_cache_key prompt system_prompt model temperature
                    max_tokens) "openai")
              (api_cache (snd result)) = Some r
       /\ response_data r = answer
       /\ expires_at r = (now w + 24 * 3600)%Z.
Proof.
  intros Havail Hhealthy Hlook Hfalsy Hshape Hremote. cbv zeta.
  unfold call_openai_api. rewrite Havail. cbn [negb].
  rewrite (bind_ok _ _ _ _ _ (notify_ok cb _ w)).
  set (key := openai_cache_key prompt system_prompt model temperature
                max_tokens) in *.
  set (w0 := snd (notify Obs cb "Preparing to call OpenAI API..." w)).
  destruct (lookup_after_notice cb "Preparing to call OpenAI API..." key w)
    as [Hfst Hsame].
  fold w0 in Hfst, Hsame. rewrite Hlook in Hfst.
  pose proof (get_cached_response_frame key "openai" w) as [Hc Hn].
  apply same_but_observer_fields in Hsame
    as (_ & _ & Hn1 & _ & _ & _ & _ & Hc1).
  destruct (get_cached_response Obs E key "openai" w0) as [r1 w1] eqn:Hrun.
  cbn [fst snd] in Hfst, Hn1, Hc1. subst r1.
  rewrite (bind_ok _ _ _ _ _ Hrun). rewrite Hfalsy.
  rewrite (bind_ok _ _ _ _ _ (notify_ok cb _ w1)).
  set (w2 := snd (notify Obs cb "Making API call to OpenAI..." w1)).
  pose proof (notify_same cb "Making API call to OpenAI..." w1) as Hs2.
  fold w2 in Hs2.
  apply same_but_observer_fields in Hs2 as (_ & _ & Hn2 & _ & _ & _ & _ & Hc2).
  match goal with
  | |- context [bind (if ?b then bind (notify Obs cb ?msg) _ else _) _ w2] =>
      destruct (shaping_ok b cb msg prompt _ w2 Hshape)
        as (content & w3 & Hshaping & Hs3)
  end.
  rewrite (bind_ok _ _ _ _ _ Hshaping).
  apply same_but_observer_fields in Hs3 as (_ & _ & Hn3 & _ & _ & _ & _ & Hc3).
  assert (Hcalls : remote_calls w3 = remote_calls w) by congruence.
  assert (Hnow : now w3 = now w) by congruence.
  unfold max_retries.
  match goal with
  | |- context [attempts Obs E cb key ?r 3 0 1 w3] =>
      rewrite (attempts_success cb key r 2 1 w3 _ answer
                 (eq_trans (f_equal (fun n => remote E n r) Hcalls) (Hremote r))
                 (cache_response_healthy key answer "openai" 24 (tick_remote w3)
                    (Hhealthy _) (Hhealthy _) (Hhealthy _)))
  end.
  match goal with
  | |- context [notify Obs cb ?msg ?w4] =>
      pose proof (notify_same cb msg w4) as Hs5;
      set (w5 := snd (notify Obs cb msg w4)) in *;
      apply same_but_observer_fields in Hs5
        as (Hdb5 & _ & _ & _ & _ & _ & _ & Hc5)
  end.
  clearbody w5. cbn [fst snd].
  cbn [api_cache remote_calls now tick_closed set_api_cache tick_db
       tick_opened tick_remote] in Hdb5, Hc5.
  split; [reflexivity|]. split.
  - rewrite Hc5. now rewrite Hcalls.
  - rewrite Hdb5, lookup_upsert. eexists. split; [reflexivity|].
    rewrite Hnow. destruct (lookup _ _); split; reflexivity.
Qed.

(** C7, amended.  Cache-hit short-circuit: when the lookup returns a truthy
    value the call returns it and ends in the world the lookup leaves, up to
    the observer, so nothing is shaped, called or written.  Round trip, the
    durable store being free of faults: after a miss, a first remote call
    that answers a truthy value is the only remote call of the invocation and
    its answer is stored under the key of the request as given, for 24
    hours; a later invocation with the same request, the table unchanged and
    the clock before the expiry, returns that answer without any remote
    call. *)
Theorem call_openai_api_cache_round_trip
    (prompt : string) (system_prompt : option string) (model : string)
    (temperature : json) (max_tokens : Z) (cb : callback) (w : World Obs) :
  openai_available E = true ->
  let key :=
    openai_cache_key prompt system_prompt model temperature max_tokens in
  let invoke :=
    call_openai_api Obs E prompt system_prompt model temperature max_tokens in
  (forall v,
      fst (get_cached_response Obs E key "openai" w) = Ok v ->
      truthy v = true ->
      fst (invoke cb w) = Ok v
      /\ same_but_observer (snd (invoke cb w))
           (snd (get_cached_response Obs E key "openai" w)))
  /\ (forall v answer,
        (forall n, db_fault E n = None) ->
        fst (get_cached_response Obs E key "openai" w) = Ok v ->
        truthy v = false ->
        (forall e, optimize_prompt (tokenizer E) prompt
                     (4000 - count E (or_empty system_prompt))%Q <> Raise e) ->
        (forall r, remote E (remote_calls w) r = Ok answer) ->
        truthy answer = true ->
        fst (invoke cb w) = Ok answer
        /\ remote_calls (snd (invoke cb w)) = S (remote_calls w)
        /\ (exists r,
              lookup (_generate_key key "openai") (api_cache (snd (invoke cb w)))
              = Some r
              /\ response_data r = answer
              /\ expires_at r = (now w + 24 * 3600)%Z)
        /\ forall (cb' : callback) (w' : World Obs),
             api_cache w' = api_cache (snd (invoke cb w)) ->
             (now w' < now w + 24 * 3600)%Z ->
             fst (invoke cb' w') = Ok answer
             /\ remote_calls (snd (invoke cb' w')) = remote_calls w').
Proof.
  intros Havail key invoke. split.
  - intros v Hlook Htruthy. now apply call_openai_api_hit.
  - intros v answer Hhealthy Hlook Hfalsy Hshape Hremote Htruthy.
    destruct (call_openai_api_miss_success prompt system_prompt model
                temperature max_tokens cb w v answer
                Havail Hhealthy Hlook Hfalsy Hshape Hremote)
      as (Hres & Hcalls & r & Hrow & Hdata & Hexp).
    fold key in Hrow. fold invoke in Hres, Hcalls, Hrow.
    split; [exact Hres|]. split; [exact Hcalls|].
    split; [exists r; repeat split; assumption|].
    intros cb' w' Htable Hlive.
    assert (Hhit : fst (get_cached_response Obs E key "openai" w') = Ok answer).
    { rewrite <- Hdata. apply get_cached_response_hit; try apply Hhealthy.
      - now rewrite Htable.
      - now rewrite Hexp. }
    destruct (call_openai_api_hit prompt system_prompt model temperature
                max_tokens cb' w' answer Havail Hhit Htruthy) as [Hres' Hsame'].
    fold invoke in Hres', Hsame'. split; [exact Hres'|].
    apply same_but_observer_fields in Hsame' as (_ & _ & _ & _ & _ & _ & _ & Hc).
    rewrite Hc. apply get_cached_response_frame.
Qed.

End InvokerFacts.

(** C2 at the request of the end-to-end example, the remote service failing
    always. *)
Lemma call_openai_api_retry_ceiling_witness :
  openai_available env_remote_down = true
  /\ fst (get_cached_response unit env_remote_down
            (openai_cache_key "Hello" (Some "You are X") "m" (JFloat "0.1") 50)
            "openai" empty_world) = Ok JNull
  /\ truthy JNull = false
  /\ exists r e,
       req_model r = "m"
       /\ remote env_remote_down (remote_calls empty_world + 2) r = Raise e
       /\ fst (invoke_hello env_remote_down empty_world)
          = Ok (JStr ("Error: " ++ exn_str e))
       /\ remote_calls (snd (invoke_hello env_remote_down empty_world))
          = remote_calls empty_world + max_retries
       /\ now (snd (invoke_hello env_remote_down empty_world))
          = (now empty_world + 3)%Z.
Proof.
  assert (Hlook : fst (get_cached_response unit env_remote_down
            (openai_cache_key "Hello" (Some "You are X") "m" (JFloat "0.1") 50)
            "openai" empty_world) = Ok JNull) by (vm_compute; reflexivity).
  split; [reflexivity|]. split; [exact Hlook|]. split; [reflexivity|].
  apply (call_openai_api_retry_ceiling unit env_remote_down
           "Hello" (Some "You are X") "m" (JFloat "0.1") 50 None empty_world
           JNull eq_refl Hlook eq_refl).
  - intros e H. vm_compute in H. discriminate H.
  - intros n r. eexists. reflexivity.
Defined.

(** C7 as stated does not hold.  The remote service answers the empty text:
    the first invocation makes one remote call and stores the answer; the
    lookup of the second invocation returns that stored value, and the second
    invocation makes a second remote call all the same. *)
Lemma call_openai_api_empty_answer_called_again :
  let first := invoke_hello (env_healthy "") empty_world in
  let second := invoke_hello (env_healthy "") (snd first) in
  fst first = Ok (JStr "")
  /\ remote_calls (snd first) = 1
  /\ fst (get_cached_response unit (env_healthy "")
            (openai_cache_key "Hello" (Some "You are X") "m" (JFloat "0.1") 50)
            "openai" (snd first)) = Ok (JStr "")
  /\ now (snd first) = now empty_world
  /\ remote_calls (snd second) = 2.
Proof. vm_compute. repeat split; reflexivity. Qed.

(** C7, amended, at the request of the end-to-end example: one remote call,
    then the stored answer without a remote call. *)
Lemma call_openai_api_cache_round_trip_witness :
  let first := invoke_hello (env_healthy "Bonjour") empty_world in
  let second := invoke_hello (env_healthy "Bonjour") (snd first) in
  openai_available (env_healthy "Bonjour") = true
  /\ fst first = Ok (JStr "Bonjour")
  /\ remote_calls (snd first) = 1
  /\ fst second = Ok (JStr "Bonjour")
  /\ remote_calls (snd second) = 1.
Proof.
  cbv zeta.
  destruct (call_openai_api_cache_round_trip unit (env_healthy "Bonjour")
              "Hello" (Some "You are X") "m" (JFloat "0.1") 50 None empty_world
              eq_refl) as [_ Hround].
  destruct (Hround JNull (JStr "Bonjour")) as (H1 & H2 & _ & Hagain).
  - intros n. reflexivity.
  - vm_compute. reflexivity.
  - reflexivity.
  - intros e H. vm_compute in H. discriminate H.
  - intros r. reflexivity.
  - reflexivity.
  - destruct (Hagain None (snd (invoke_hello (env_healthy "Bonjour") empty_world)))
      as [H3 H4].
    + reflexivity.
    + vm_compute. reflexivity.
    + unfold invoke_hello in *. split; [reflexivity|]. split; [exact H1|].
      split; [exact H2|]. split; [exact H3|].
      rewrite H4. exact H2.
Defined.

(** The durable store down altogether: the write raises and leaves the
    fallback store empty, the lookup raises. *)
Example store_down_write_then_read :
  let E := env_store_down "ok" in
  let written :=
    cache_response unit E geocode_paris (JStr "48.85,2.35") "geocode" 720
      empty_world in
  fst written = Raise (SqliteError "unable to open database file")
  /\ cache_dir (snd written) = []
  /\ fst (get_cached_response unit E geocode_paris "geocode" (snd written))
     = Raise (SqliteError "unable to open database file").
Proof. vm_compute. repeat split; reflexivity. Qed.

(** The failing input of C8 as [call_openai_api] meets it: an empty prompt
    with a system prompt above the ceiling. *)
Lemma call_openai_api_empty_prompt_raises :
  fst (call_openai_api unit (env_healthy "ok") "" (Some long_system_prompt)
         default_model (JFloat "0.7") 1000 None empty_world)
  = Raise ZeroDivisionError.
Proof. vm_compute. reflexivity. Qed.

(** * Further properties *)

(** ** Lookups and writes of the cache facade *)

Section CacheRoundTrip.

Variable Obs : Type.
Variable E : Env.

(** The block under [try] of a lookup, the query being answered. *)
Lemma get_cached_response_try_answer (k : string) (w : World Obs) :
  db_fault E (db_ops w) = None ->
  fst (get_cached_response_try Obs E k w)
  = Ok match lookup k (api_cache w) with
       | Some r =>
           if (now w <? expires_at r)%Z then response_data r
           else match lookup k (cache_dir w) with
                | Some (FileEntry v t) =>
                    if fs_fault E (fs_ops w) then JNull
                    else if (now w <? t)%Z then v else JNull
                | _ => JNull
                end
       | None =>
           match lookup k (cache_dir w) with
           | Some (FileEntry v t) =>
               if fs_fault E (fs_ops w) then JNull
               else if (now w <? t)%Z then v else JNull
           | _ => JNull
           end
       end.
Proof.
  intros Hs.
  unfold get_cached_response_try, execute_select, db_operation, datetime_now,
    file_exists, try_except, load_file, open_file, bind.
  rewrite Hs. cbn.
  destruct (lookup k (api_cache w)) as [r|];
    [destruct (now w <? expires_at r)%Z; [reflexivity|]|];
    (destruct (lookup k (cache_dir w)) as [[v t|]|] eqn:Hf;
     cbn; rewrite ?Hf; cbn; try reflexivity;
     destruct (fs_fault E (fs_ops w)); cbn; rewrite ?Hf; cbn;
     try reflexivity;
     destruct (now w <? t)%Z; reflexivity).
Qed.

(** Once the connection is obtained, a lookup returns what the block under
    [try] returns. *)
Lemma get_cached_response_connected
    (q : query_data) (api_type : string) (w : World Obs) :
  db_fault E (db_ops w) = None ->
  fst (get_cached_response Obs E q api_type w)
  = fst (get_cached_response_try Obs E (_generate_key q api_type)
           (tick_opened (tick_db w))).
Proof.
  intros Hc.
  unfold get_cached_response, get_db_connection, db_operation, bind.
  now rewrite Hc, try_finally_close.
Qed.

(** What a lookup answers once the durable store has answered the query:
    the live row; failing that the live file; failing that [None].  An
    expired row, and an expired, unreadable or corrupt file, are misses. *)
Theorem get_cached_response_answer
    (q : query_data) (api_type : string) (w : World Obs) :
  db_fault E (db_ops w) = None ->
  db_fault E (S (db_ops w)) = None ->
  let k := _generate_key q api_type in
  let from_file :=
    match lookup k (cache_dir w) with
    | Some (FileEntry v t) =>
        if fs_fault E (fs_ops w) then JNull
        else if (now w <? t)%Z then v else JNull
    | _ => JNull
    end in
  fst (get_cached_response Obs E q api_type w)
  = Ok match lookup k (api_cache w) with
       | Some r => if (now w <? expires_at r)%Z then response_data r
                   else from_file
       | None => from_file
       end.
Proof.
  intros Hc Hs. cbv zeta.
  rewrite (get_cached_response_connected q api_type w Hc).
  now rewrite get_cached_response_try_answer.
Qed.

Lemma same_stores_refl (w : World Obs) : same_stores w w.
Proof. split; reflexivity. Qed.

Lemma same_stores_trans (w1 w2 w3 : World Obs) :
  same_stores w1 w2 -> same_stores w2 w3 -> same_stores w1 w3.
Proof. unfold same_stores. intros [] []. split; congruence. Qed.

(** The block under [try] of a lookup writes to neither store. *)
Lemma get_cached_response_try_stores (k : string) :
  preserves same_stores (get_cached_response_try Obs E k).
Proof.
  intros w.
  unfold get_cached_response_try, execute_select, db_operation, datetime_now,
    file_exists, try_except, load_file, open_file, bind.
  destruct (db_fault E (db_ops w)); cbn; [split; reflexivity|].
  destruct (lookup k (api_cache w)) as [r|];
    [destruct (now w <? expires_at r)%Z; [split; reflexivity|]|];
    (destruct (lookup k (cache_dir w)) as [[v t|]|] eqn:Hf;
     cbn; rewrite ?Hf; cbn; try (split; reflexivity);
     destruct (fs_fault E (fs_ops w)); cbn; rewrite ?Hf; cbn;
     try (split; reflexivity);
     destruct (now w <? t)%Z; split; reflexivity).
Qed.

Lemma get_cached_response_stores (q : query_data) (api_type : string) :
  preserves same_stores (get_cached_response Obs E q api_type).
Proof.
  intros w.
  unfold get_cached_response, get_db_connection, db_operation, bind.
  destruct (db_fault E (db_ops w)); [split; reflexivity|].
  rewrite try_finally_close. cbn [snd].
  destruct (get_cached_response_try_stores (_generate_key q api_type)
              (tick_opened (tick_db w))) as [Ha Hd].
  split; [exact Ha | exact Hd].
Qed.

(** A lookup never writes: whatever it returns or raises, the table and the
    files are as before; in particular a corrupt or expired file stays. *)
Theorem get_cached_response_read_only
    (q : query_data) (api_type : string) (w : World Obs) :
  same_stores w (snd (get_cached_response Obs E q api_type w)).
Proof. exact (get_cached_response_stores q api_type w). Qed.

(** What a write does once the connection is obtained: it never raises; the
    entry goes to the table when the statement and the commit succeed, and
    otherwise to the fallback file, the table being left as it was; when the
    file cannot be opened either, the entry is dropped. *)
Theorem cache_response_effect
    (q : query_data) (v : json) (api_type : string) (expire_hours : Z)
    (w : World Obs) :
  db_fault E (db_ops w) = None ->
  let k := _generate_key q api_type in
  let expires := (now w + expire_hours * 3600)%Z in
  let w' := snd (cache_response Obs E q v api_type expire_hours w) in
  fst (cache_response Obs E q v api_type expire_hours w) = Ok tt
  /\ match db_fault E (S (db_ops w)), db_fault E (S (S (db_ops w))) with
     | None, None =>
         api_cache w'
         = upsert k (mkRow v api_type expires)
             (fun r => mkRow v (api_type_col r) expires) (api_cache w)
         /\ cache_dir w' = cache_dir w
     | _, _ =>
         api_cache w' = api_cache w
         /\ cache_dir w'
            = if fs_fault E (fs_ops w) then cache_dir w
              else upsert k (FileEntry v expires)
                     (fun _ => FileEntry v expires) (cache_dir w)
     end.
Proof.
  intros Hc. cbv zeta.
  unfold cache_response, get_db_connection, db_operation, datetime_now, bind.
  rewrite Hc, try_finally_close. cbn [fst snd].
  unfold cache_response_try, try_except, execute_upsert, commit,
    _save_to_file_cache, try_except, dump_file, open_file, db_operation, bind.
  cbn.
  destruct (db_fault E (S (db_ops w))); cbn.
  - destruct (fs_fault E (fs_ops w)); cbn; repeat split; reflexivity.
  - destruct (db_fault E (S (S (db_ops w)))); cbn.
    + destruct (fs_fault E (fs_ops w)); cbn; repeat split; reflexivity.
    + repeat split; reflexivity.
Qed.

Lemma lookup_upsert_other {A} (k k' : string) (a : A) (f : A -> A)
    (l : list (string * A)) :
  k' <> k -> lookup k' (upsert k a f l) = lookup k' l.
Proof.
  intros Hne. induction l as [|[k0 a0] l IH]; simpl.
  - apply String.eqb_neq in Hne. now rewrite Hne.
  - destruct (String.eqb k k0) eqn:Hk; simpl.
    + apply String.eqb_eq in Hk. subst k0.
      apply String.eqb_neq in Hne. now rewrite Hne.
    + now rewrite IH.
Qed.

Lemma upsert_keys_in {A} (k x : string) (a : A) (f : A -> A)
    (l : list (string * A)) :
  In x (map fst (upsert k a f l)) -> x = k \/ In x (map fst l).
Proof.
  induction l as [|[k0 a0] l IH]; simpl.
  - intros [H|[]]. now left.
  - destruct (String.eqb k k0); simpl; intros [H|H]; auto.
    destruct (IH H); auto.
Qed.

Lemma upsert_keys_unique {A} (k : string) (a : A) (f : A -> A)
    (l : list (string * A)) :
  NoDup (map fst l) -> NoDup (map fst (upsert k a f l)).
Proof.
  induction l as [|[k0 a0] l IH]; simpl; intros Hnd.
  - constructor; [intros [] | constructor].
  - inversion Hnd as [|? ? Hin Hnd']; subst.
    destruct (String.eqb k k0) eqn:Hk; simpl.
    + constructor; assumption.
    + constructor; [|now apply IH].
      intros Hx. apply upsert_keys_in in Hx as [Hx|Hx]; [|contradiction].
      subst k0. now rewrite String.eqb_refl in Hk.
Qed.

(** Whatever happens, a write changes each store by at most an upsert of
    its own key. *)
Lemma cache_response_stores
    (q : query_data) (v : json) (api_type : string) (expire_hours : Z)
    (w : World Obs) :
  let k := _generate_key q api_type in
  let w' := snd (cache_response Obs E q v api_type expire_hours w) in
  (api_cache w' = api_cache w
   \/ exists a f, api_cache w' = upsert k a f (api_cache w))
  /\ (cache_dir w' = cache_dir w
      \/ exists a f, cache_dir w' = upsert k a f (cache_dir w)).
Proof.
  cbv zeta. destruct (db_fault E (db_ops w)) as [msg|] eqn:Hc.
  - unfold cache_response, get_db_connection, db_operation, datetime_now, bind.
    rewrite Hc. split; left; reflexivity.
  - unfold cache_response, get_db_connection, db_operation, datetime_now, bind.
    rewrite Hc, try_finally_close. cbn [snd].
    unfold cache_response_try, try_except, execute_upsert, commit,
      _save_to_file_cache, try_except, dump_file, open_file, db_operation,
      bind.
    cbn.
    destruct (db_fault E (S (db_ops w))); cbn;
      [|destruct (db_fault E (S (S (db_ops w)))); cbn];
      try destruct (fs_fault E (fs_ops w)); cbn; split; eauto.
Qed.

(** A write under one key leaves the row and the file of every other key as
    they were. *)
Theorem cache_response_other_keys
    (q : query_data) (v : json) (api_type : string) (expire_hours : Z)
    (w : World Obs) (k' : string) :
  k' <> _generate_key q api_type ->
  let w' := snd (cache_response Obs E q v api_type expire_hours w) in
  lookup k' (api_cache w') = lookup k' (api_cache w)
  /\ lookup k' (cache_dir w') = lookup k' (cache_dir w).
Proof.
  intros Hne. cbv zeta.
  destruct (cache_response_stores q v api_type expire_hours w) as [Ha Hd].
  cbv zeta in Ha, Hd. split.
  - destruct Ha as [-> | (a & f & ->)];
      [reflexivity | now apply lookup_upsert_other].
  - destruct Hd as [-> | (a & f & ->)];
      [reflexivity | now apply lookup_upsert_other].
Qed.

(** A write keeps the keys of the table and the names of the files unique. *)
Lemma cache_response_unique_keys
    (q : query_data) (v : json) (api_type : string) (expire_hours : Z)
    (w : World Obs) :
  keeps_unique_keys w (snd (cache_response Obs E q v api_type expire_hours w)).
Proof.
  intros [Ha Hd].
  destruct (cache_response_stores q v api_type expire_hours w) as [Ha' Hd'].
  cbv zeta in Ha', Hd'. split.
  - destruct Ha' as [-> | (a & f & ->)];
      [assumption | now apply upsert_keys_unique].
  - destruct Hd' as [-> | (a & f & ->)];
      [assumption | now apply upsert_keys_unique].
Qed.

(** Round trip.  After a write to a healthy durable store, a lookup of the
    same key made before the expiry, the table unchanged, returns the value
    written, whatever the table held for the key before. *)
Theorem cache_response_then_get
    (q : query_data) (v : json) (api_type : string) (expire_hours : Z)
    (w w2 : World Obs) :
  db_fault E (db_ops w) = None ->
  db_fault E (S (db_ops w)) = None ->
  db_fault E (S (S (db_ops w))) = None ->
  api_cache w2
  = api_cache (snd (cache_response Obs E q v api_type expire_hours w)) ->
  db_fault E (db_ops w2) = None ->
  db_fault E (S (db_ops w2)) = None ->
  (now w2 < now w + expire_hours * 3600)%Z ->
  fst (get_cached_response Obs E q api_type w2) = Ok v.
Proof.
  intros H0 H1 H2 Htable Hc Hs Hlive.
  rewrite (cache_response_healthy Obs E q v api_type expire_hours w H0 H1 H2)
    in Htable.
  cbn [snd api_cache tick_closed set_api_cache] in Htable.
  pose proof (lookup_upsert (_generate_key q api_type)
                (mkRow v api_type (now w + expire_hours * 3600))
                (fun r => mkRow v (api_type_col r) (now w + expire_hours * 3600))
                (api_cache w)) as Hrow.
  rewrite <- Htable in Hrow.
  destruct (lookup (_generate_key q api_type) (api_cache w)) as [r0|];
    rewrite (get_cached_response_hit Obs E q api_type w2 _ Hc Hs Hrow);
    (reflexivity || exact Hlive).
Qed.

(** Expiry.  At the expiry instant and after it the row is not served any
    more: with no fallback file for the key the lookup returns [None].  A
    write with [expire_hours = 0] is thus never served. *)
Theorem cache_response_then_get_expired
    (q : query_data) (v : json) (api_type : string) (expire_hours : Z)
    (w w2 : World Obs) :
  db_fault E (db_ops w) = None ->
  db_fault E (S (db_ops w)) = None ->
  db_fault E (S (S (db_ops w))) = None ->
  api_cache w2
  = api_cache (snd (cache_response Obs E q v api_type expire_hours w)) ->
  lookup (_generate_key q api_type) (cache_dir w2) = None ->
  db_fault E (db_ops w2) = None ->
  db_fault E (S (db_ops w2)) = None ->
  (now w + expire_hours * 3600 <= now w2)%Z ->
  fst (get_cached_response Obs E q api_type w2) = Ok JNull.
Proof.
  intros H0 H1 H2 Htable Hfile Hc Hs Hdead.
  rewrite (cache_response_healthy Obs E q v api_type expire_hours w H0 H1 H2)
    in Htable.
  cbn [snd api_cache tick_closed set_api_cache] in Htable.
  pose proof (lookup_upsert (_generate_key q api_type)
                (mkRow v api_type (now w + expire_hours * 3600))
                (fun r => mkRow v (api_type_col r) (now w + expire_hours * 3600))
                (api_cache w)) as Hrow.
  rewrite <- Htable in Hrow.
  rewrite (get_cached_response_connected q api_type w2 Hc).
  rewrite get_cached_response_try_answer by exact Hs.
  cbn [api_cache cache_dir now tick_opened tick_db].
  rewrite Hrow, Hfile.
  apply Z.ltb_ge in Hdead.
  destruct (lookup (_generate_key q api_type) (api_cache w)) as [r0|];
    cbn [expires_at]; now rewrite Hdead.
Qed.

End CacheRoundTrip.

(** The lookup of the cached coordinates of Paris. *)
Lemma get_cached_response_answer_witness :
  db_fault (env_healthy "ok") (db_ops world_paris_cached) = None
  /\ db_fault (env_healthy "ok") (S (db_ops world_paris_cached)) = None
  /\ fst (get_cached_response unit (env_healthy "ok") geocode_paris "geocode"
            world_paris_cached) = Ok (JStr "48.85,2.35").
Proof.
  split; [reflexivity|]. split; [reflexivity|].
  rewrite (get_cached_response_answer unit (env_healthy "ok") geocode_paris
             "geocode" world_paris_cached eq_refl eq_refl).
  vm_compute. reflexivity.
Defined.

(** A write while the statements of the durable store fail goes to the
    file. *)
Lemma cache_response_effect_witness :
  let E := env_statements_fail "ok" in
  let w' := snd (cache_response unit E geocode_paris (JStr "48.85,2.35")
                   "geocode" 720 empty_world) in
  db_fault E (db_ops empty_world) = None
  /\ fst (cache_response unit E geocode_paris (JStr "48.85,2.35") "geocode"
            720 empty_world) = Ok tt
  /\ api_cache w' = []
  /\ cache_dir w'
     = [(_generate_key geocode_paris "geocode",
         FileEntry (JStr "48.85,2.35") 2592000)].
Proof.
  cbv zeta. split; [reflexivity|].
  destruct (cache_response_effect unit (env_statements_fail "ok")
              geocode_paris (JStr "48.85,2.35") "geocode" 720 empty_world
              eq_refl) as [Hok Hstores].
  split; [exact Hok|]. cbv zeta in Hstores. cbn in Hstores.
  destruct Hstores as [Ha Hd]. split; [exact Ha | exact Hd].
Defined.

(** The row of Paris is not touched by caching Rome. *)
Lemma cache_response_other_keys_witness :
  _generate_key geocode_paris "geocode" <> _generate_key geocode_rome "geocode"
  /\ lookup (_generate_key geocode_paris "geocode")
       (api_cache (snd (cache_response unit (env_healthy "ok") geocode_rome
                          (JStr "41.90,12.50") "geocode" 720
                          world_paris_cached)))
     = lookup (_generate_key geocode_paris "geocode")
         (api_cache world_paris_cached).
Proof.
  assert (Hne : _generate_key geocode_paris "geocode"
                <> _generate_key geocode_rome "geocode")
    by (vm_compute; discriminate).
  split; [exact Hne|].
  apply (cache_response_other_keys unit (env_healthy "ok") geocode_rome
           (JStr "41.90,12.50") "geocode" 720 world_paris_cached _ Hne).
Defined.

(** Paris cached at time 0 for 720 hours, looked up one second before the
    expiry and at the expiry. *)
Lemma cache_response_then_get_witness :
  fst (get_cached_response unit (env_healthy "ok") geocode_paris "geocode"
         (set_now 2591999 world_paris_cached)) = Ok (JStr "48.85,2.35").
Proof.
  apply (cache_response_then_get unit (env_healthy "ok") geocode_paris
           (JStr "48.85,2.35") "geocode" 720 empty_world
           (set_now 2591999 world_paris_cached));
    reflexivity.
Defined.

Lemma cache_response_then_get_expired_witness :
  fst (get_cached_response unit (env_healthy "ok") geocode_paris "geocode"
         (set_now 2592000 world_paris_cached)) = Ok JNull.
Proof.
  apply (cache_response_then_get_expired unit (env_healthy "ok") geocode_paris
           (JStr "48.85,2.35") "geocode" 720 empty_world
           (set_now 2592000 world_paris_cached));
    reflexivity.
Defined.


(** ** More on the resilient invoker *)

Section InvokerExtras.

Variable Obs : Type.
Variable E : Env.

Local Abbreviation callback := (option (string -> Obs -> Obs)).

(** One iteration of the retry loop without an observer. *)
Lemma attempts_silent_step (key : query_data) (r : request)
    (remaining attempt : nat) (delay : Z) (w : World Obs) :
  attempts Obs E None key r (S remaining) attempt delay w
  = match remote E (remote_calls w) r with
    | Raise e => after_error E None key r remaining attempt delay e
                   (tick_remote w)
    | Ok answer =>
        match cache_response Obs E key answer "openai" 24 (tick_remote w) with
        | (Ok _, wc) => (Ok answer, wc)
        | (Raise e, wc) =>
            after_error E None key r remaining attempt delay e wc
        end
    end.
Proof.
  cbn [attempts]. unfold try_except, after_error.
  assert (Hpre : forall msg,
            (if (0 <? attempt)%nat then notify Obs None msg else ret tt) w
            = (Ok tt, w)) by (intros msg; now destruct (0 <? attempt)%nat).
  rewrite (bind_ok Obs _ _ w w tt (Hpre _)).
  unfold bind at 1. unfold remote_call at 1.
  destruct (remote E (remote_calls w) r) as [answer|e].
  - unfold bind at 1.
    destruct (cache_response Obs E key answer "openai" 24 (tick_remote w))
      as [[u|e] wc].
    + reflexivity.
    + unfold bind, notify, sleep.
      destruct (attempt <? max_retries - 1)%nat; reflexivity.
  - unfold bind, notify, sleep.
    destruct (attempt <? max_retries - 1)%nat; reflexivity.
Qed.

(** [call_openai_api] without an observer, once the module is there. *)
Lemma call_openai_api_silent
    (prompt : string) (system_prompt : option string) (model : string)
    (temperature : json) (max_tokens : Z) (w : World Obs) :
  openai_available E = true ->
  let key :=
    openai_cache_key prompt system_prompt model temperature max_tokens in
  call_openai_api Obs E prompt system_prompt model temperature max_tokens
    None w
  = match get_cached_response Obs E key "openai" w with
    | (Ok cached, w1) =>
        if truthy cached then (Ok cached, w1)
        else
          match user_content E prompt system_prompt with
          | Ok content =>
              attempts Obs E None key
                (mkRequest model
                   (system_messages system_prompt ++ [("user", content)])
                   temperature max_tokens)
                max_retries 0 1 w1
          | Raise e => (Raise e, w1)
          end
    | (Raise e, w1) => (Raise e, w1)
    end.
Proof.
  intros Havail. cbv zeta. unfold call_openai_api. rewrite Havail. cbn [negb].
  rewrite (bind_ok Obs _ _ w w tt eq_refl).
  unfold bind at 1.
  destruct (get_cached_response Obs E _ "openai" w) as [[cached|e] w1];
    [|reflexivity].
  destruct (truthy cached); [reflexivity|].
  rewrite (bind_ok Obs _ _ w1 w1 tt eq_refl).
  fold (system_messages system_prompt).
  fold (total_tokens E (system_messages system_prompt ++ [("user", prompt)])).
  unfold bind at 1. unfold user_content.
  destruct (negb (Qle_bool _ 4000)).
  - rewrite (bind_ok Obs _ _ w1 w1 tt eq_refl). unfold lift.
    destruct (optimize_prompt _ _ _); reflexivity.
  - reflexivity.
Qed.

(** The outcome and the world of an invocation are, up to the observer,
    those of the invocation without an observer. *)
Lemma call_openai_api_as_silent
    (prompt : string) (system_prompt : option string) (model : string)
    (temperature : json) (max_tokens : Z) (cb : callback) (w : World Obs) :
  let silent :=
    call_openai_api Obs E prompt system_prompt model temperature max_tokens
      None w in
  let result :=
    call_openai_api Obs E prompt system_prompt model temperature max_tokens
      cb w in
  fst result = fst silent
  /\ api_cache (snd result) = api_cache (snd silent)
  /\ cache_dir (snd result) = cache_dir (snd silent)
  /\ now (snd result) = now (snd silent)
  /\ remote_calls (snd result) = remote_calls (snd silent).
Proof.
  cbv zeta.
  destruct (sim_call_openai_api Obs E None cb prompt system_prompt model
              temperature max_tokens w w (same_but_observer_refl Obs w))
    as [Hr Hw].
  apply same_but_observer_fields in Hw
    as (Ha & Hd & Hn & _ & _ & _ & _ & Hc).
  repeat split; congruence.
Qed.

Lemma call_openai_api_unavailable
    (prompt : string) (system_prompt : option string) (model : string)
    (temperature : json) (max_tokens : Z) (cb : callback) (w : World Obs) :
  openai_available E = false ->
  snd (call_openai_api Obs E prompt system_prompt model temperature max_tokens
         cb w) = w.
Proof. intros H. unfold call_openai_api. now rewrite H. Qed.

(** *** What is written, and where *)

(** The retry loop writes nothing while the remote call fails. *)
Lemma attempts_fail_stores (key : query_data) (r : request) :
  (forall n, exists e, remote E n r = Raise e) ->
  forall (remaining attempt : nat) (delay : Z) (w : World Obs),
    same_stores w (snd (attempts Obs E None key r remaining attempt delay w)).
Proof.
  intros Hfail. induction remaining as [|remaining IH]; intros attempt delay w.
  - split; reflexivity.
  - rewrite attempts_silent_step.
    destruct (Hfail (remote_calls w)) as [e ->].
    unfold after_error. destruct (attempt <? max_retries - 1)%nat.
    + destruct (IH (S attempt) (delay * 2)%Z
                  (set_now (now (tick_remote w) + delay) (tick_remote w)))
        as [Ha Hd].
      split; [rewrite Ha | rewrite Hd]; now destruct w.
    + split; reflexivity.
Qed.

(** An invocation whose remote calls all fail writes to neither store: no
    error text is ever cached, whatever the stores, the shaping and the
    observer do. *)
Theorem call_openai_api_failure_not_cached
    (prompt : string) (system_prompt : option string) (model : string)
    (temperature : json) (max_tokens : Z) (cb : callback) (w : World Obs) :
  (forall n r, exists e, remote E n r = Raise e) ->
  same_stores w
    (snd (call_openai_api Obs E prompt system_prompt model temperature
            max_tokens cb w)).
Proof.
  intros Hfail.
  destruct (call_openai_api_as_silent prompt system_prompt model temperature
              max_tokens cb w) as (_ & Ha & Hd & _).
  cbv zeta in Ha, Hd. unfold same_stores. rewrite Ha, Hd. clear Ha Hd.
  destruct (openai_available E) eqn:Havail.
  - rewrite call_openai_api_silent by exact Havail. cbv zeta.
    pose proof (get_cached_response_stores Obs E
                  (openai_cache_key prompt system_prompt model temperature
                     max_tokens) "openai" w) as Hget.
    destruct (get_cached_response Obs E _ "openai" w) as [[cached|e] w1];
      cbn [snd] in Hget; [|exact Hget].
    destruct (truthy cached); [exact Hget|].
    match goal with
    | |- context [match ?o with Ok _ => _ | Raise _ => _ end] =>
        destruct o as [content|e]; [|exact Hget]
    end.
    eapply same_stores_trans; [exact Hget|].
    apply attempts_fail_stores. intros n. apply Hfail.
  - rewrite call_openai_api_unavailable by exact Havail. split; reflexivity.
Qed.

(** A property of the stores that writes under [key] keep is kept by the
    retry loop. *)
Lemma attempts_stores_invariant (R : World Obs -> World Obs -> Prop)
    (key : query_data) (r : request) :
  (forall w1 w2 w3, R w1 w2 -> R w2 w3 -> R w1 w3) ->
  (forall w w', same_stores w w' -> R w w') ->
  (forall answer w, R w (snd (cache_response Obs E key answer "openai" 24 w))) ->
  forall (remaining attempt : nat) (delay : Z) (w : World Obs),
    R w (snd (attempts Obs E None key r remaining attempt delay w)).
Proof.
  intros Rtrans Rsame Rwrite.
  assert (Hnext : forall remaining attempt delay e w0 w,
            (forall attempt delay w,
               R w (snd (attempts Obs E None key r remaining attempt delay w))) ->
            R w0 w ->
            R w0 (snd (after_error E None key r remaining attempt delay e w))).
  { intros remaining attempt delay e w0 w IH H0. unfold after_error.
    destruct (attempt <? max_retries - 1)%nat; [|exact H0].
    eapply Rtrans; [exact H0|]. eapply Rtrans; [|apply IH].
    apply Rsame. now destruct w. }
  induction remaining as [|remaining IH]; intros attempt delay w.
  - apply Rsame. split; reflexivity.
  - rewrite attempts_silent_step.
    assert (Htick : R w (tick_remote w))
      by (apply Rsame; now destruct w).
    destruct (remote E (remote_calls w) r) as [answer|e].
    + pose proof (Rwrite answer (tick_remote w)) as Hw.
      destruct (cache_response Obs E key answer "openai" 24 (tick_remote w))
        as [[u|e] wc]; cbn [snd] in Hw.
      * eapply Rtrans; eassumption.
      * apply Hnext; [exact IH|]. eapply Rtrans; eassumption.
    + now apply Hnext.
Qed.

(** An invocation changes at most the row and the file of its own key,
    the digest of its five arguments under the type [openai]: the entries of
    other requests and of the other types are as before; and the keys of
    the table and the names of the files stay unique. *)
Theorem call_openai_api_touches_own_key
    (prompt : string) (system_prompt : option string) (model : string)
    (temperature : json) (max_tokens : Z) (cb : callback) (w : World Obs) :
  let k :=
    _generate_key
      (openai_cache_key prompt system_prompt model temperature max_tokens)
      "openai" in
  let w' :=
    snd (call_openai_api Obs E prompt system_prompt model temperature
           max_tokens cb w) in
  touches_only k w w' /\ keeps_unique_keys w w'.
Proof.
  cbv zeta.
  set (key := openai_cache_key prompt system_prompt model temperature
                max_tokens).
  set (R := fun w w' : World Obs =>
              touches_only (_generate_key key "openai") w w'
              /\ keeps_unique_keys w w').
  assert (Rtrans : forall w1 w2 w3, R w1 w2 -> R w2 w3 -> R w1 w3).
  { intros w1 w2 w3 [T12 U12] [T23 U23]. split.
    - intros k' Hk. destruct (T12 k' Hk) as [A1 D1].
      destruct (T23 k' Hk) as [A2 D2]. split; congruence.
    - intros U. auto. }
  assert (Rsame : forall w w', same_stores w w' -> R w w').
  { intros w1 w2 [Ha Hd]. split.
    - intros k' _. now rewrite Ha, Hd.
    - unfold keeps_unique_keys, unique_keys. now rewrite Ha, Hd. }
  assert (Rwrite : forall answer w,
            R w (snd (cache_response Obs E key answer "openai" 24 w))).
  { intros answer w0. split.
    - intros k' Hk.
      destruct (cache_response_stores Obs E key answer "openai" 24 w0)
        as [Ha Hd].
      cbv zeta in Ha, Hd. split.
      + destruct Ha as [-> | (a & f & ->)];
          [reflexivity | now apply lookup_upsert_other].
      + destruct Hd as [-> | (a & f & ->)];
          [reflexivity | now apply lookup_upsert_other].
    - apply cache_response_unique_keys. }
  assert (Hsilent :
            R w (snd (call_openai_api Obs E prompt system_prompt model
                        temperature max_tokens None w))).
  { destruct (openai_available E) eqn:Havail.
    - rewrite call_openai_api_silent by exact Havail. cbv zeta. fold key.
      pose proof (Rsame _ _ (get_cached_response_stores Obs E key "openai" w))
        as Hget.
      destruct (get_cached_response Obs E key "openai" w) as [[cached|e] w1];
        cbn [snd] in Hget; [|exact Hget].
      destruct (truthy cached); [exact Hget|].
      destruct (user_content E prompt system_prompt) as [content|e];
        [|exact Hget].
      eapply Rtrans; [exact Hget|].
      now apply attempts_stores_invariant.
    - rewrite call_openai_api_unavailable by exact Havail.
      apply Rsame. split; reflexivity. }
  destruct (call_openai_api_as_silent prompt system_prompt model temperature
              max_tokens cb w) as (_ & Ha & Hd & _).
  cbv zeta in Ha, Hd.
  eapply Rtrans; [exact Hsilent|]. apply Rsame. split; assumption.
Qed.

(** *** How long, and how often *)

Lemma cache_response_frame (q : query_data) (v : json) (api_type : string)
    (expire_hours : Z) (w : World Obs) :
  let w' := snd (cache_response Obs E q v api_type expire_hours w) in
  remote_calls w' = remote_calls w /\ now w' = now w.
Proof.
  cbv zeta.
  unfold cache_response, get_db_connection, db_operation, datetime_now, bind.
  destruct (db_fault E (db_ops w)); [split; reflexivity|].
  rewrite try_finally_close. cbn [snd].
  match goal with
  | |- context [cache_response_try Obs E ?k ?v ?a ?t ?w0] =>
      destruct (quiet_cache_response_try Obs E k v a t w0) as (_ & _ & Hr & Hn)
  end.
  cbn [remote_calls now tick_closed tick_opened tick_db] in *.
  split; assumption.
Qed.

Lemma longest_wait_nonneg (remaining attempt : nat) (delay : Z) :
  (0 <= delay)%Z -> (0 <= longest_wait remaining attempt delay)%Z.
Proof.
  revert attempt delay.
  induction remaining as [|remaining IH]; intros attempt delay Hd;
    cbn [longest_wait].
  - lia.
  - destruct (attempt <? max_retries - 1)%nat; [|lia].
    assert (0 <= longest_wait remaining (S attempt) (delay * 2))%Z
      by (apply IH; lia).
    lia.
Qed.

(** The retry loop makes at most [remaining] remote calls and sleeps at
    most [longest_wait]. *)
Lemma attempts_bounds (key : query_data) (r : request) :
  forall (remaining attempt : nat) (delay : Z) (w : World Obs),
    (0 <= delay)%Z ->
    let w' := snd (attempts Obs E None key r remaining attempt delay w) in
    remote_calls w <= remote_calls w' <= remote_calls w + remaining
    /\ (now w <= now w' <= now w + longest_wait remaining attempt delay)%Z.
Proof.
  cbv zeta.
  assert (Hnext : forall remaining attempt delay e (w0 w : World Obs),
            (forall attempt delay w, (0 <= delay)%Z ->
               remote_calls w
               <= remote_calls
                    (snd (attempts Obs E None key r remaining attempt delay w))
               <= remote_calls w + remaining
               /\ (now w
                   <= now (snd (attempts Obs E None key r remaining attempt
                                  delay w))
                   <= now w + longest_wait remaining attempt delay)%Z) ->
            (0 <= delay)%Z ->
            remote_calls w = S (remote_calls w0) -> now w = now w0 ->
            let w' := snd (after_error E None key r remaining attempt delay e
                             w) in
            remote_calls w0 <= remote_calls w'
              <= remote_calls w0 + S remaining
            /\ (now w0 <= now w'
                <= now w0 + longest_wait (S remaining) attempt delay)%Z).
  { intros remaining attempt delay e w0 w IH Hd Hc Hn. cbv zeta.
    unfold after_error. cbn [longest_wait].
    destruct (attempt <? max_retries - 1)%nat.
    - destruct (IH (S attempt) (delay * 2)%Z (set_now (now w + delay) w))
        as [Hcalls Hnow]; [lia|].
      assert (Hc' : remote_calls (set_now (now w + delay) w)
                    = S (remote_calls w0)) by (now destruct w).
      assert (Hn' : now (set_now (now w + delay) w) = (now w0 + delay)%Z)
        by (destruct w; cbn in *; lia).
      rewrite Hc' in Hcalls. rewrite Hn' in Hnow. split; lia.
    - cbn [snd]. split; lia. }
  induction remaining as [|remaining IH]; intros attempt delay w Hd.
  - cbn. split; lia.
  - rewrite attempts_silent_step.
    destruct (remote E (remote_calls w) r) as [answer|e].
    + pose proof (cache_response_frame key answer "openai" 24 (tick_remote w))
        as [Hc Hn].
      cbv zeta in Hc, Hn.
      pose proof (longest_wait_nonneg (S remaining) attempt delay Hd) as Hpos.
      destruct (cache_response Obs E key answer "openai" 24 (tick_remote w))
        as [[u|e] wc]; cbn [snd] in Hc, Hn |- *.
      * replace (remote_calls wc) with (S (remote_calls w))
          by (now destruct w).
        replace (now wc) with (now w) by (now destruct w).
        split; lia.
      * apply Hnext; [exact IH | exact Hd | now destruct w | now destruct w].
    + apply Hnext; [exact IH | exact Hd | now destruct w | now destruct w].
Qed.

(** Whatever the stores, the tokenizer, the remote service and the observer
    do, an invocation makes at most three remote calls and sleeps at most
    three seconds (1 + 2); the clock never goes back. *)
Theorem call_openai_api_bounded
    (prompt : string) (system_prompt : option string) (model : string)
    (temperature : json) (max_tokens : Z) (cb : callback) (w : World Obs) :
  let w' :=
    snd (call_openai_api Obs E prompt system_prompt model temperature
           max_tokens cb w) in
  remote_calls w <= remote_calls w' <= remote_calls w + max_retries
  /\ (now w <= now w' <= now w + 3)%Z.
Proof.
  cbv zeta.
  destruct (call_openai_api_as_silent prompt system_prompt model temperature
              max_tokens cb w) as (_ & _ & _ & Hn & Hc).
  cbv zeta in Hn, Hc. rewrite Hn, Hc. clear Hn Hc.
  destruct (openai_available E) eqn:Havail.
  - rewrite call_openai_api_silent by exact Havail. cbv zeta.
    pose proof (get_cached_response_frame Obs E
                  (openai_cache_key prompt system_prompt model temperature
                     max_tokens) "openai" w) as [Hc Hn].
    cbv zeta in Hc, Hn.
    destruct (get_cached_response Obs E _ "openai" w) as [[cached|e] w1];
      cbn [snd] in Hc, Hn |- *; [|rewrite Hc, Hn; unfold max_retries; lia].
    destruct (truthy cached);
      [cbn [snd]; rewrite Hc, Hn; unfold max_retries; lia|].
    destruct (user_content E prompt system_prompt) as [content|e];
      [|cbn [snd]; rewrite Hc, Hn; unfold max_retries; lia].
    match goal with
    | |- context [attempts Obs E None ?key ?r max_retries 0 1 w1] =>
        destruct (attempts_bounds key r max_retries 0 1 w1) as [Hcalls Hnow];
          [lia|]
    end.
    change (longest_wait max_retries 0 1) with 3%Z in Hnow.
    rewrite Hc in Hcalls. rewrite Hn in Hnow. split; assumption.
  - rewrite call_openai_api_unavailable by exact Havail.
    unfold max_retries. lia.
Qed.

(** *** Recovery *)

(** The retry loop when the remote call fails [k] times and then answers,
    the durable store being healthy. *)
Lemma attempts_recovers (key : query_data) (r : request) (answer : json) :
  (forall n, db_fault E n = None) ->
  forall (k remaining attempt : nat) (delay : Z) (w : World Obs),
    attempt + k < max_retries -> k < remaining ->
    (forall i, i < k -> exists e, remote E (remote_calls w + i) r = Raise e) ->
    remote E (remote_calls w + k) r = Ok answer ->
    let res := attempts Obs E None key r remaining attempt delay w in
    let t := (now w + delay * (2 ^ Z.of_nat k - 1))%Z in
    fst res = Ok answer
    /\ remote_calls (snd res) = remote_calls w + k + 1
    /\ now (snd res) = t
    /\ api_cache (snd res)
       = upsert (_generate_key key "openai")
           (mkRow answer "openai" (t + 24 * 3600))
           (fun r0 => mkRow answer (api_type_col r0) (t + 24 * 3600))
           (api_cache w).
Proof.
  intros Hhealthy. cbv zeta.
  induction k as [|k IH]; intros remaining attempt delay w Hlast Hrem Hfail Hok.
  - destruct remaining as [|remaining]; [lia|].
    rewrite attempts_silent_step. rewrite Nat.add_0_r in Hok. rewrite Hok.
    rewrite (cache_response_healthy Obs E key answer "openai" 24
               (tick_remote w) (Hhealthy _) (Hhealthy _) (Hhealthy _)).
    cbn [fst snd remote_calls now api_cache tick_closed set_api_cache tick_db
         tick_opened tick_remote].
    change (2 ^ Z.of_nat 0 - 1)%Z with 0%Z.
    replace (now w + delay * 0)%Z with (now w) by lia.
    repeat split. lia.
  - destruct remaining as [|remaining]; [lia|].
    rewrite attempts_silent_step.
    destruct (Hfail 0) as [e He]; [lia|].
    rewrite Nat.add_0_r in He. rewrite He.
    unfold after_error.
    assert (Hlt : (attempt <? max_retries - 1)%nat = true)
      by (apply Nat.ltb_lt; unfold max_retries in *; lia).
    rewrite Hlt.
    set (w2 := set_now (now (tick_remote w) + delay) (tick_remote w)).
    assert (Hc2 : remote_calls w2 = S (remote_calls w)) by (now destruct w).
    assert (Hn2 : now w2 = (now w + delay)%Z) by (now destruct w).
    assert (Ha2 : api_cache w2 = api_cache w) by (now destruct w).
    destruct (IH remaining (S attempt) (delay * 2)%Z w2)
      as (Hres & Hcalls & Hnow & Hcache).
    + lia.
    + lia.
    + intros i Hi. rewrite Hc2. destruct (Hfail (S i)) as [e' He']; [lia|].
      exists e'. rewrite <- He'. f_equal. lia.
    + rewrite Hc2. rewrite <- Hok. f_equal. lia.
    + assert (Ht : (now w2 + delay * 2 * (2 ^ Z.of_nat k - 1)
                    = now w + delay * (2 ^ Z.of_nat (S k) - 1))%Z).
      { rewrite Hn2, Nat2Z.inj_succ, Z.pow_succ_r by lia. ring. }
      rewrite Ht in Hnow, Hcache. rewrite Ha2 in Hcache.
      repeat split; [exact Hres | lia | exact Hnow | exact Hcache].
Qed.

(** Recovery.  When the lookup misses, the durable store is healthy and the
    remote call fails [k] times, [k] being 0, 1 or 2, and then answers, the
    invocation returns that answer after [k + 1] remote calls and
    [2 ^ k - 1] seconds of sleep, and the answer is in the table under the
    key of the request, live for 24 hours from the moment it was obtained. *)
Theorem call_openai_api_retry_recovers
    (prompt : string) (system_prompt : option string) (model : string)
    (temperature : json) (max_tokens : Z) (cb : callback)
    (w : World Obs) (v answer : json) (k : nat) :
  openai_available E = true ->
  (forall n, db_fault E n = None) ->
  fst (get_cached_response Obs E
         (openai_cache_key prompt system_prompt model temperature max_tokens)
         "openai" w) = Ok v ->
  truthy v = false ->
  (forall e, user_content E prompt system_prompt <> Raise e) ->
  k < max_retries ->
  (forall i r, i < k -> exists e, remote E (remote_calls w + i) r = Raise e) ->
  (forall r, remote E (remote_calls w + k) r = Ok answer) ->
  let result :=
    call_openai_api Obs E prompt system_prompt model temperature max_tokens
      cb w in
  fst result = Ok answer
  /\ remote_calls (snd result) = remote_calls w + k + 1
  /\ now (snd result) = (now w + 2 ^ Z.of_nat k - 1)%Z
  /\ exists r,
       lookup (_generate_key
                 (openai_cache_key prompt system_prompt model temperature
                    max_tokens) "openai")
              (api_cache (snd result)) = Some r
       /\ response_data r = answer
       /\ expires_at r = (now w + 2 ^ Z.of_nat k - 1 + 24 * 3600)%Z.
Proof.
  intros Havail Hhealthy Hlook Hfalsy Hshape Hk Hfail Hok. cbv zeta.
  destruct (call_openai_api_as_silent prompt system_prompt model temperature
              max_tokens cb w) as (Hr & Ha & _ & Hn & Hc).
  cbv zeta in Hr, Ha, Hn, Hc. rewrite Hr, Ha, Hn, Hc. clear Hr Ha Hn Hc.
  rewrite call_openai_api_silent by exact Havail. cbv zeta.
  set (key := openai_cache_key prompt system_prompt model temperature
                max_tokens) in *.
  pose proof (get_cached_response_frame Obs E key "openai" w) as [Hc1 Hn1].
  pose proof (get_cached_response_stores Obs E key "openai" w) as [Ha1 _].
  cbv zeta in Hc1, Hn1.
  destruct (get_cached_response Obs E key "openai" w) as [r1 w1].
  cbn [fst snd] in Hlook, Hc1, Hn1, Ha1. subst r1. rewrite Hfalsy.
  destruct (user_content E prompt system_prompt) as [content|e];
    [|now destruct (Hshape e)].
  match goal with
  | |- context [attempts Obs E None key ?r max_retries 0 1 w1] =>
      destruct (attempts_recovers key r answer Hhealthy k max_retries 0 1 w1)
        as (Hres & Hcalls & Hnow & Hcache)
  end.
  - exact Hk.
  - exact Hk.
  - intros i Hi. rewrite Hc1. now apply Hfail.
  - rewrite Hc1. apply Hok.
  - rewrite Hn1, Hc1, Ha1 in *.
    replace (now w + 1 * (2 ^ Z.of_nat k - 1))%Z
      with (now w + 2 ^ Z.of_nat k - 1)%Z in * by lia.
    repeat split; [exact Hres | exact Hcalls | exact Hnow |].
    rewrite Hcache, lookup_upsert. eexists. split; [reflexivity|].
    destruct (lookup _ (api_cache w)); split; reflexivity.
Qed.

(** *** Losing an answer *)

Lemma cache_response_connect_error
    (q : query_data) (v : json) (api_type : string) (expire_hours : Z)
    (w : World Obs) (msg : string) :
  db_fault E (db_ops w) = Some msg ->
  cache_response Obs E q v api_type expire_hours w
  = (Raise (SqliteError msg), tick_db w).
Proof.
  intros H.
  unfold cache_response, get_db_connection, db_operation, datetime_now, bind.
  now rewrite H.
Qed.

(** The retry loop when the remote service answers and no connection to the
    durable store can be obtained. *)
Lemma attempts_store_unreachable (key : query_data) (r : request)
    (msg : string) :
  (forall n, exists answer, remote E n r = Ok answer) ->
  forall (remaining attempt : nat) (delay : Z) (w : World Obs),
    (forall n, db_ops w <= n -> db_fault E n = Some msg) ->
    attempt + remaining = max_retries -> 0 < remaining ->
    let res := attempts Obs E None key r remaining attempt delay w in
    fst res = Ok (JStr ("Error: " ++ msg))
    /\ remote_calls (snd res) = remote_calls w + remaining
    /\ same_stores w (snd res).
Proof.
  intros Hanswers. cbv zeta.
  induction remaining as [|remaining IH]; intros attempt delay w Hdown Hsum Hpos;
    [lia|].
  rewrite attempts_silent_step.
  destruct (Hanswers (remote_calls w)) as [answer ->].
  rewrite (cache_response_connect_error key answer "openai" 24 (tick_remote w)
             msg) by (apply Hdown; now destruct w).
  unfold after_error.
  destruct (attempt <? max_retries - 1)%nat eqn:Hlt.
  - apply Nat.ltb_lt in Hlt.
    set (w2 := set_now (now (tick_db (tick_remote w)) + delay)
                 (tick_db (tick_remote w))).
    destruct (IH (S attempt) (delay * 2)%Z w2) as (Hres & Hcalls & Ha & Hd).
    + intros n Hn. apply Hdown. destruct w; cbn in *; lia.
    + lia.
    + unfold max_retries in *. lia.
    + repeat split;
        [exact Hres | rewrite Hcalls; destruct w; cbn; lia
        | rewrite Ha; now destruct w | rewrite Hd; now destruct w].
  - apply Nat.ltb_ge in Hlt. unfold max_retries in *.
    assert (remaining = 0) by lia. subst remaining.
    cbn [fst snd exn_str]. repeat split. destruct w; cbn; lia.
Qed.

(** Losing an answer.  The write to the cache sits inside the [try] of the
    retry loop and obtains its connection outside its own handler: when the
    durable store becomes unreachable after the lookup, each answer of the
    remote service is discarded and asked for again, and after three
    answered calls the invocation returns the text of the store's error;
    no store has changed. *)
Theorem call_openai_api_answer_lost
    (prompt : string) (system_prompt : option string) (model : string)
    (temperature : json) (max_tokens : Z) (cb : callback)
    (w : World Obs) (v : json) (msg : string) :
  openai_available E = true ->
  fst (get_cached_response Obs E
         (openai_cache_key prompt system_prompt model temperature max_tokens)
         "openai" w) = Ok v ->
  truthy v = false ->
  (forall e, user_content E prompt system_prompt <> Raise e) ->
  (forall n r, exists answer, remote E n r = Ok answer) ->
  (forall n,
     db_ops (snd (get_cached_response Obs E
                    (openai_cache_key prompt system_prompt model temperature
                       max_tokens) "openai" w)) <= n ->
     db_fault E n = Some msg) ->
  let result :=
    call_openai_api Obs E prompt system_prompt model temperature max_tokens
      cb w in
  fst result = Ok (JStr ("Error: " ++ msg))
  /\ remote_calls (snd result) = remote_calls w + max_retries
  /\ same_stores w (snd result).
Proof.
  intros Havail Hlook Hfalsy Hshape Hanswers Hdown. cbv zeta.
  destruct (call_openai_api_as_silent prompt system_prompt model temperature
              max_tokens cb w) as (Hr & Ha & Hd & _ & Hc).
  cbv zeta in Hr, Ha, Hd, Hc. unfold same_stores.
  rewrite Hr, Ha, Hd, Hc. clear Hr Ha Hd Hc.
  rewrite call_openai_api_silent by exact Havail. cbv zeta.
  set (key := openai_cache_key prompt system_prompt model temperature
                max_tokens) in *.
  pose proof (get_cached_response_frame Obs E key "openai" w) as [Hc1 _].
  pose proof (get_cached_response_stores Obs E key "openai" w) as [Ha1 Hd1].
  cbv zeta in Hc1.
  destruct (get_cached_response Obs E key "openai" w) as [r1 w1].
  cbn [fst snd] in Hlook, Hc1, Ha1, Hd1, Hdown. subst r1. rewrite Hfalsy.
  destruct (user_content E prompt system_prompt) as [content|e];
    [|now destruct (Hshape e)].
  match goal with
  | |- context [attempts Obs E None key ?r max_retries 0 1 w1] =>
      destruct (attempts_store_unreachable key r msg
                  (fun n => Hanswers n r) max_retries 0 1 w1 Hdown eq_refl)
        as (Hres & Hcalls & Ha & Hd); [unfold max_retries; lia|]
  end.
  repeat split; congruence.
Qed.

End InvokerExtras.

(** *** The request that is sent *)

Section RequestFidelity.

Variable Obs : Type.
Variables E1 E2 : Env.

Hypothesis same_module : openai_available E1 = openai_available E2.
Hypothesis same_tokenizer : tokenizer E1 = tokenizer E2.
Hypothesis same_db : db_fault E1 = db_fault E2.
Hypothesis same_fs : fs_fault E1 = fs_fault E2.

Local Abbreviation callback := (option (string -> Obs -> Obs)).

Lemma get_cached_response_env (q : query_data) (api_type : string) :
  get_cached_response Obs E1 q api_type = get_cached_response Obs E2 q api_type.
Proof.
  clear same_module same_tokenizer.
  destruct E1, E2; cbn in same_db, same_fs; subst. reflexivity.
Qed.

Lemma cache_response_env (q : query_data) (v : json) (api_type : string)
    (expire_hours : Z) :
  cache_response Obs E1 q v api_type expire_hours
  = cache_response Obs E2 q v api_type expire_hours.
Proof.
  clear same_module same_tokenizer.
  destruct E1, E2; cbn in same_db, same_fs; subst. reflexivity.
Qed.

Lemma user_content_env (prompt : string) (system_prompt : option string) :
  user_content E1 prompt system_prompt = user_content E2 prompt system_prompt.
Proof.
  unfold user_content, total_tokens, count. now rewrite same_tokenizer.
Qed.

Lemma bind_ext {A B} (m : M Obs A) (k1 k2 : A -> M Obs B) (w : World Obs) :
  (forall a w', m w = (Ok a, w') -> k1 a w' = k2 a w') ->
  bind m k1 w = bind m k2 w.
Proof.
  intros H. unfold bind. destruct (m w) as [[a|e] w']; [now apply H|reflexivity].
Qed.

Lemma bind_ext2 {A B} (m1 m2 : M Obs A) (k1 k2 : A -> M Obs B)
    (w : World Obs) :
  m1 w = m2 w ->
  (forall a w', k1 a w' = k2 a w') ->
  bind m1 k1 w = bind m2 k2 w.
Proof.
  intros Hm Hk. unfold bind. rewrite Hm.
  destruct (m2 w) as [[a|e] w']; [apply Hk | reflexivity].
Qed.

Lemma try_except_ext {A} (m1 m2 : M Obs A) (h1 h2 : exn -> M Obs A)
    (w : World Obs) :
  m1 w = m2 w ->
  (forall e w', h1 e w' = h2 e w') ->
  try_except m1 h1 w = try_except m2 h2 w.
Proof.
  intros Hm Hh. unfold try_except. rewrite Hm.
  destruct (m2 w) as [[a|e] w']; [reflexivity | apply Hh].
Qed.

(** The retry loop consults the remote service about its request only. *)
Lemma attempts_env (cb : callback) (key : query_data) (r : request) :
  (forall n, remote E1 n r = remote E2 n r) ->
  forall (remaining attempt : nat) (delay : Z) (w : World Obs),
    attempts Obs E1 cb key r remaining attempt delay w
    = attempts Obs E2 cb key r remaining attempt delay w.
Proof.
  intros Hremote.
  induction remaining as [|remaining IH]; intros attempt delay w;
    [reflexivity|].
  cbn [attempts]. apply try_except_ext.
  - apply bind_ext. intros _ w0 _.
    apply bind_ext2; [unfold remote_call; now rewrite Hremote|].
    intros answer w1. now rewrite cache_response_env.
  - intros e w0. apply bind_ext. intros _ w1 _.
    destruct (attempt <? max_retries - 1)%nat; [|reflexivity].
    apply bind_ext. intros _ w2 _. apply IH.
Qed.

(** The request that is sent.  Two remote services that answer alike the
    request made of the caller's model, temperature and [max_tokens] and of
    the messages [system] (unless the system prompt is missing or empty)
    and [user] (the prompt, or the shaped prompt above 4000 tokens) give the
    same invocation, outcome and world: nothing else is ever submitted, at
    the first attempt or at a later one. *)
Theorem call_openai_api_request_fidelity
    (prompt : string) (system_prompt : option string) (model : string)
    (temperature : json) (max_tokens : Z) (cb : callback) (w : World Obs) :
  (forall content n,
     user_content E1 prompt system_prompt = Ok content ->
     let r := mkRequest model
                (system_messages system_prompt ++ [("user", content)])
                temperature max_tokens in
     remote E1 n r = remote E2 n r) ->
  call_openai_api Obs E1 prompt system_prompt model temperature max_tokens
    cb w
  = call_openai_api Obs E2 prompt system_prompt model temperature max_tokens
      cb w.
Proof.
  intros Hremote. cbv zeta in Hremote.
  unfold call_openai_api. rewrite <- same_module.
  destruct (openai_available E1); [|reflexivity]. cbn [negb].
  apply bind_ext. intros _ w0 _.
  rewrite get_cached_response_env.
  apply bind_ext. intros cached w1 _.
  destruct (truthy cached); [reflexivity|].
  apply bind_ext. intros _ w2 _.
  fold (system_messages system_prompt).
  fold (total_tokens E1 (system_messages system_prompt ++ [("user", prompt)])).
  fold (total_tokens E2 (system_messages system_prompt ++ [("user", prompt)])).
  pose proof (user_content_env prompt system_prompt) as Hshape.
  unfold user_content in Hshape, Hremote.
  assert (Htotal : total_tokens E1
                     (system_messages system_prompt ++ [("user", prompt)])
                   = total_tokens E2
                       (system_messages system_prompt ++ [("user", prompt)]))
    by (unfold total_tokens, count; now rewrite same_tokenizer).
  rewrite <- Htotal in *.
  destruct (negb (Qle_bool _ 4000)).
  - rewrite <- Hshape.
    apply bind_ext. intros content w3 Hc.
    apply attempts_env. intros n. apply Hremote.
    unfold bind, notify, lift in Hc. destruct cb; now injection Hc.
  - apply bind_ext. intros content w3 Hc. injection Hc as <- _.
    apply attempts_env. intros n. now apply Hremote.
Qed.

End RequestFidelity.

(** The end-to-end request while the remote service is down: nothing is
    stored. *)
Lemma call_openai_api_failure_not_cached_witness :
  (forall n r, exists e, remote env_remote_down n r = Raise e)
  /\ same_stores empty_world (snd (invoke_hello env_remote_down empty_world)).
Proof.
  assert (H : forall n r, exists e, remote env_remote_down n r = Raise e)
    by (intros n r; eexists; reflexivity).
  split; [exact H|].
  exact (call_openai_api_failure_not_cached unit env_remote_down "Hello"
           (Some "You are X") "m" (JFloat "0.1") 50 None empty_world H).
Defined.

(** The end-to-end request, the remote service failing twice: the third
    call answers, three seconds later. *)
Lemma call_openai_api_retry_recovers_witness :
  let result := invoke_hello (env_flaky 2 "ok") empty_world in
  (forall i r, i < 2 ->
     exists e, remote (env_flaky 2 "ok") (remote_calls empty_world + i) r
               = Raise e)
  /\ fst result = Ok (JStr "ok")
  /\ remote_calls (snd result) = 3
  /\ now (snd result) = 3%Z.
Proof.
  cbv zeta.
  assert (Hfail : forall i r, i < 2 ->
            exists e, remote (env_flaky 2 "ok") (remote_calls empty_world + i) r
                      = Raise e).
  { intros i r Hi.
    destruct i as [|[|i]]; [eexists; reflexivity | eexists; reflexivity | lia]. }
  split; [exact Hfail|].
  destruct (call_openai_api_retry_recovers unit (env_flaky 2 "ok") "Hello"
              (Some "You are X") "m" (JFloat "0.1") 50 None empty_world
              JNull (JStr "ok") 2)
    as (Hres & Hcalls & Hnow & _).
  - reflexivity.
  - intros n. reflexivity.
  - vm_compute. reflexivity.
  - reflexivity.
  - intros e. vm_compute. discriminate.
  - unfold max_retries. lia.
  - exact Hfail.
  - intros r. reflexivity.
  - unfold invoke_hello.
    split; [exact Hres | split; [exact Hcalls | exact Hnow]].
Defined.

(** The end-to-end request, the durable store lost after the lookup: three
    answers are obtained and none is returned. *)
Lemma call_openai_api_answer_lost_witness :
  let result := invoke_hello (env_store_lost "ok") empty_world in
  (forall n r, exists answer, remote (env_store_lost "ok") n r = Ok answer)
  /\ fst result = Ok (JStr "Error: unable to open database file")
  /\ remote_calls (snd result) = 3
  /\ same_stores empty_world (snd result).
Proof.
  cbv zeta.
  assert (Hanswers : forall n r,
            exists answer, remote (env_store_lost "ok") n r = Ok answer)
    by (intros n r; eexists; reflexivity).
  split; [exact Hanswers|].
  apply (call_openai_api_answer_lost unit (env_store_lost "ok") "Hello"
           (Some "You are X") "m" (JFloat "0.1") 50 None empty_world JNull
           "unable to open database file").
  - reflexivity.
  - vm_compute. reflexivity.
  - reflexivity.
  - intros e. vm_compute. discriminate.
  - exact Hanswers.
  - intros n Hn.
    change (db_ops (snd (get_cached_response unit (env_store_lost "ok")
                           (openai_cache_key "Hello" (Some "You are X") "m"
                              (JFloat "0.1") 50) "openai" empty_world)))
      with 2 in Hn.
    cbn. destruct n as [|[|n]]; [lia | lia | reflexivity].
Defined.

(** A remote service that knows the model [m] only is, for a request with
    that model, the service that answers always. *)
Lemma call_openai_api_request_fidelity_witness :
  invoke_hello (env_healthy "ok") empty_world
  = invoke_hello (env_one_model "ok") empty_world.
Proof.
  apply (call_openai_api_request_fidelity unit (env_healthy "ok")
           (env_one_model "ok") eq_refl eq_refl eq_refl eq_refl "Hello"
           (Some "You are X") "m" (JFloat "0.1") 50 None empty_world).
  intros content n _. reflexivity.
Defined.


(** ** The sweep of expired entries *)

Lemma lookup_remove {A} (k k' : string) (l : list (string * A)) :
  lookup k' (remove k l) = if String.eqb k' k then None else lookup k' l.
Proof.
  unfold remove. induction l as [|[k0 a] l IH]; cbn [filter lookup fst].
  - now destruct (String.eqb k' k).
  - destruct (String.eqb k0 k) eqn:H0; cbn [negb].
    + apply String.eqb_eq in H0. subst k0. rewrite IH.
      now destruct (String.eqb k' k).
    + cbn [lookup]. rewrite IH.
      destruct (String.eqb k' k0) eqn:H1; [|reflexivity].
      apply String.eqb_eq in H1. subst k0. now rewrite H0.
Qed.

Lemma lookup_not_in {A} (k : string) (l : list (string * A)) :
  ~ In k (map fst l) -> lookup k l = None.
Proof.
  induction l as [|[k0 a] l IH]; cbn [map fst lookup In]; [reflexivity|].
  intros Hn. destruct (String.eqb k k0) eqn:H0.
  - apply String.eqb_eq in H0. subst k0. destruct Hn. now left.
  - apply IH. intros Hin. apply Hn. now right.
Qed.

Lemma lookup_in_keys {A} (k : string) (l : list (string * A)) :
  lookup k l <> None <-> In k (map fst l).
Proof.
  induction l as [|[k0 a] l IH]; cbn [map fst lookup In].
  - split; [congruence | tauto].
  - destruct (String.eqb k k0) eqn:H0.
    + apply String.eqb_eq in H0. subst k0. split; [now left | congruence].
    + apply String.eqb_neq in H0. rewrite IH. split; [now right|].
      intros [Heq | Hin]; [congruence | exact Hin].
Qed.

Lemma lookup_filter_none {A} (p : string * A -> bool) (k : string)
    (l : list (string * A)) :
  lookup k l = None -> lookup k (filter p l) = None.
Proof.
  induction l as [|[k0 a] l IH]; cbn [filter lookup]; [reflexivity|].
  destruct (String.eqb k k0) eqn:H0; [discriminate|]. intros H.
  destruct (p (k0, a)); cbn [lookup]; rewrite ?H0; now apply IH.
Qed.

(** Filtering a table whose keys are unique. *)
Lemma lookup_filter_unique {A} (p : string * A -> bool) (k : string)
    (l : list (string * A)) :
  NoDup (map fst l) ->
  lookup k (filter p l)
  = match lookup k l with
    | Some a => if p (k, a) then Some a else None
    | None => None
    end.
Proof.
  induction l as [|[k0 a] l IH]; cbn [map fst filter lookup]; [reflexivity|].
  intros Hnd. inversion Hnd as [|? ? Hnotin Hnd']; subst.
  destruct (String.eqb k k0) eqn:H0.
  - apply String.eqb_eq in H0. subst k0.
    destruct (p (k, a)); cbn [lookup].
    + now rewrite String.eqb_refl.
    + apply lookup_filter_none. now apply lookup_not_in.
  - destruct (p (k0, a)); cbn [lookup]; rewrite ?H0; now apply IH.
Qed.

Lemma kept_file_idempotent (t : Z) (f : option cache_file) :
  kept_file t (kept_file t f) = kept_file t f.
Proof.
  destruct f as [[v t'|]|]; cbn; try reflexivity.
  destruct (t' <? t)%Z eqn:H; cbn; [reflexivity | now rewrite H].
Qed.

Section SweepFacts.

Variable Obs : Type.
Variable E : Env.

Lemma same_but_files_refl (w : World Obs) : same_but_files w w.
Proof. repeat split. Qed.

Lemma same_but_files_trans (w1 w2 w3 : World Obs) :
  same_but_files w1 w2 -> same_but_files w2 w3 -> same_but_files w1 w3.
Proof.
  unfold same_but_files.
  intros (A1 & B1 & C1 & D1 & F1 & G1) (A2 & B2 & C2 & D2 & F2 & G2).
  repeat split; congruence.
Qed.

(** One file, its [open()] succeeding: an expired or corrupt file is
    removed, a file that expires at [t] or later is left. *)
Lemma sweep_file_ok (t : Z) (name : string) (w : World Obs) :
  fs_fault E (fs_ops w) = false ->
  let w' := snd (sweep_file Obs E t name w) in
  fst (sweep_file Obs E t name w) = Ok tt
  /\ same_but_files w w'
  /\ fs_ops w' = S (fs_ops w)
  /\ forall k,
       lookup k (cache_dir w')
       = if String.eqb k name then kept_file t (lookup k (cache_dir w))
         else lookup k (cache_dir w).
Proof.
  intros Hfs. cbv zeta.
  unfold sweep_file, try_except, load_file, open_file, unlink, bind.
  rewrite Hfs. cbn [cache_dir tick_fs].
  destruct (lookup name (cache_dir w)) as [[v t'|]|] eqn:Hf;
    cbn [fst snd]; [destruct (t' <? t)%Z eqn:Ht|..]; cbn [fst snd ret];
    (split; [reflexivity|]); (split; [now destruct w|]);
    (split; [now destruct w|]); intros k;
    cbn [cache_dir set_cache_dir tick_fs]; rewrite ?lookup_remove;
    (destruct (String.eqb k name) eqn:Hk; [|reflexivity]);
    apply String.eqb_eq in Hk; subst k; rewrite Hf; cbn [kept_file];
    rewrite ?Ht; reflexivity.
Qed.

(** One file, whatever happens: the file is left as it was, or it is
    removed and was expired or corrupt; the other files are left. *)
Lemma sweep_file_any (t : Z) (name : string) (w : World Obs) :
  let w' := snd (sweep_file Obs E t name w) in
  same_but_files w w'
  /\ forall k,
       lookup k (cache_dir w') = lookup k (cache_dir w)
       \/ (lookup k (cache_dir w') = None
           /\ kept_file t (lookup k (cache_dir w)) = None).
Proof.
  cbv zeta. destruct (fs_fault E (fs_ops w)) eqn:Hfs.
  - unfold sweep_file, try_except, load_file, open_file, unlink, bind.
    rewrite Hfs. cbn [snd raise].
    split; [now destruct w|]. intros k. left. now destruct w.
  - destruct (sweep_file_ok t name w Hfs) as (_ & Hsame & _ & Hlook).
    cbv zeta in Hsame, Hlook. split; [exact Hsame|]. intros k.
    rewrite Hlook. destruct (String.eqb k name); [|now left].
    destruct (lookup k (cache_dir w)) as [[v t'|]|]; cbn [kept_file];
      [destruct (t' <? t)%Z eqn:Ht|..]; cbn; rewrite ?Ht; auto.
Qed.

(** The loop over the files, every [open()] succeeding. *)
Lemma sweep_files_ok (t : Z) (names : list string) :
  (forall n, fs_fault E n = false) ->
  forall w : World Obs,
    let w' := snd (sweep_files Obs E t names w) in
    fst (sweep_files Obs E t names w) = Ok tt
    /\ same_but_files w w'
    /\ fs_ops w' = fs_ops w + List.length names
    /\ forall k,
         lookup k (cache_dir w')
         = if existsb (String.eqb k) names
           then kept_file t (lookup k (cache_dir w))
           else lookup k (cache_dir w).
Proof.
  intros Hfs. cbv zeta.
  induction names as [|name names IH]; intros w; cbn [sweep_files].
  - cbn. repeat split. lia.
  - destruct (sweep_file_ok t name w (Hfs _)) as (Hres & Hsame & Hops & Hlook).
    cbv zeta in Hsame, Hops, Hlook. unfold bind.
    destruct (sweep_file Obs E t name w) as [r1 w1].
    cbn [fst snd] in Hres, Hsame, Hops, Hlook. subst r1.
    destruct (IH w1) as (Hres' & Hsame' & Hops' & Hlook').
    split; [exact Hres'|].
    split; [eapply same_but_files_trans; eassumption|].
    split; [rewrite Hops', Hops; cbn [List.length]; lia|].
    intros k. rewrite Hlook', Hlook. cbn [existsb].
    destruct (String.eqb k name), (existsb (String.eqb k) names);
      cbn [orb]; try reflexivity.
    apply kept_file_idempotent.
Qed.

(** The loop over the files, whatever happens. *)
Lemma sweep_files_any (t : Z) (names : list string) :
  forall w : World Obs,
    let w' := snd (sweep_files Obs E t names w) in
    same_but_files w w'
    /\ forall k,
         lookup k (cache_dir w') = lookup k (cache_dir w)
         \/ (lookup k (cache_dir w') = None
             /\ kept_file t (lookup k (cache_dir w)) = None).
Proof.
  cbv zeta. induction names as [|name names IH]; intros w; cbn [sweep_files].
  - split; [apply same_but_files_refl | now left].
  - destruct (sweep_file_any t name w) as (Hsame & Hlook).
    cbv zeta in Hsame, Hlook. unfold bind.
    destruct (sweep_file Obs E t name w) as [[u|e] w1];
      cbn [snd] in Hsame, Hlook |- *; [|split; assumption].
    destruct (IH w1) as (Hsame' & Hlook').
    split; [eapply same_but_files_trans; eassumption|].
    intros k. destruct (Hlook' k) as [H1 | [H1 H2]].
    + rewrite H1. apply Hlook.
    + right. split; [exact H1|].
      destruct (Hlook k) as [H3 | [_ H3]]; [now rewrite <- H3 | exact H3].
Qed.

(** The sweep, step by step: the three operations on the durable store,
    then the files. *)
Lemma clear_expired_cache_steps (w : World Obs) :
  clear_expired_cache Obs E w
  = match db_fault E (db_ops w) with
    | Some msg => (Raise (SqliteError msg), tick_db w)
    | None =>
        match db_fault E (S (db_ops w)) with
        | Some msg =>
            (Raise (SqliteError msg),
             tick_closed (tick_db (tick_opened (tick_db w))))
        | None =>
            match db_fault E (S (S (db_ops w))) with
            | Some msg =>
                (Raise (SqliteError msg),
                 tick_closed (tick_db (tick_db (tick_opened (tick_db w)))))
            | None =>
                sweep_files Obs E (now w) (map fst (cache_dir w))
                  (tick_closed
                     (set_api_cache
                        (filter
                           (fun entry =>
                              negb (expires_at (snd entry) <? now w)%Z)
                           (api_cache w))
                        (tick_db (tick_db (tick_opened (tick_db w))))))
            end
        end
    end.
Proof.
  unfold clear_expired_cache, get_db_connection, db_operation, datetime_now,
    bind.
  destruct (db_fault E (db_ops w)) as [msg|]; [reflexivity|].
  rewrite try_finally_close.
  unfold clear_expired_cache_try, execute_delete, commit, db_operation, bind.
  cbn [db_ops tick_opened tick_db fst snd].
  destruct (db_fault E (S (db_ops w))) as [msg|]; [reflexivity|].
  cbn [db_ops tick_opened tick_db fst snd].
  destruct (db_fault E (S (S (db_ops w)))) as [msg|]; [reflexivity|].
  cbn [fst snd glob_json cache_dir tick_closed set_api_cache tick_db
       tick_opened].
  reflexivity.
Qed.

(** The sweep when the durable store and the files can be worked on. *)
Lemma clear_expired_cache_healthy (w : World Obs) :
  db_fault E (db_ops w) = None ->
  db_fault E (S (db_ops w)) = None ->
  db_fault E (S (S (db_ops w))) = None ->
  (forall n, fs_fault E n = false) ->
  NoDup (map fst (api_cache w)) ->
  let w' := snd (clear_expired_cache Obs E w) in
  fst (clear_expired_cache Obs E w) = Ok tt
  /\ now w' = now w
  /\ db_ops w' = db_ops w + 3
  /\ fs_ops w' = fs_ops w + List.length (cache_dir w)
  /\ forall k,
       lookup k (api_cache w') = kept_row (now w) (lookup k (api_cache w))
       /\ lookup k (cache_dir w') = kept_file (now w) (lookup k (cache_dir w)).
Proof.
  intros H0 H1 H2 Hfs Hnd. cbv zeta.
  rewrite clear_expired_cache_steps, H0, H1, H2.
  match goal with
  | |- context [sweep_files Obs E ?t ?names ?w1] =>
      destruct (sweep_files_ok t names Hfs w1)
        as (Hres & (Ha & Hn & Hd & _) & Hops & Hlook)
  end.
  cbv zeta in Ha, Hn, Hd, Hops, Hlook.
  cbn [api_cache now db_ops fs_ops cache_dir tick_closed set_api_cache tick_db
       tick_opened] in Ha, Hn, Hd, Hops, Hlook.
  split; [exact Hres|]. split; [exact Hn|]. split; [rewrite Hd; lia|].
  split; [now rewrite Hops, length_map|].
  intros k. split.
  - rewrite Ha, (lookup_filter_unique _ k (api_cache w) Hnd).
    unfold kept_row. destruct (lookup k (api_cache w)) as [r|]; [|reflexivity].
    cbn [snd]. now destruct (expires_at r <? now w)%Z.
  - rewrite Hlook.
    destruct (existsb (String.eqb k) (map fst (cache_dir w))) eqn:Hex;
      [reflexivity|].
    assert (Hnone : lookup k (cache_dir w) = None).
    { apply lookup_not_in. intros Hin.
      assert (existsb (String.eqb k) (map fst (cache_dir w)) = true).
      { apply existsb_exists. exists k. split; [exact Hin|].
        apply String.eqb_refl. }
      congruence. }
    now rewrite Hnone.
Qed.

(** What the sweep does.  The store and the files being workable and the
    keys of the table unique, the sweep returns, and afterwards, for every
    key: the row is gone if it expired strictly before now and is as it was
    otherwise; the file is gone if it is corrupt or expired strictly before
    now and is as it was otherwise.  An entry that expires exactly now
    stays, although no lookup serves it. *)
Theorem clear_expired_cache_effect (w : World Obs) (k : string) :
  db_fault E (db_ops w) = None ->
  db_fault E (S (db_ops w)) = None ->
  db_fault E (S (S (db_ops w))) = None ->
  (forall n, fs_fault E n = false) ->
  NoDup (map fst (api_cache w)) ->
  let w' := snd (clear_expired_cache Obs E w) in
  fst (clear_expired_cache Obs E w) = Ok tt
  /\ lookup k (api_cache w')
     = match lookup k (api_cache w) with
       | Some r => if (expires_at r <? now w)%Z then None else Some r
       | None => None
       end
  /\ lookup k (cache_dir w')
     = match lookup k (cache_dir w) with
       | Some (FileEntry v t) =>
           if (t <? now w)%Z then None else Some (FileEntry v t)
       | _ => None
       end.
Proof.
  intros H0 H1 H2 Hfs Hnd. cbv zeta.
  destruct (clear_expired_cache_healthy w H0 H1 H2 Hfs Hnd)
    as (Hres & _ & _ & _ & Hlook).
  cbv zeta in Hlook. destruct (Hlook k) as [Ha Hd].
  split; [exact Hres|]. split; [exact Ha | exact Hd].
Qed.

(** The sweep is invisible to lookups: with workable stores, a lookup made
    after the sweep returns what it would have returned before it, for
    every query. *)
Theorem clear_expired_cache_invisible
    (q : query_data) (api_type : string) (w : World Obs) :
  (forall n, db_fault E n = None) ->
  (forall n, fs_fault E n = false) ->
  NoDup (map fst (api_cache w)) ->
  fst (get_cached_response Obs E q api_type
         (snd (clear_expired_cache Obs E w)))
  = fst (get_cached_response Obs E q api_type w).
Proof.
  intros Hdb Hfs Hnd.
  destruct (clear_expired_cache_healthy w (Hdb _) (Hdb _) (Hdb _) Hfs Hnd)
    as (_ & Hn & _ & _ & Hlook).
  cbv zeta in Hn, Hlook.
  set (w' := snd (clear_expired_cache Obs E w)) in *.
  rewrite !(get_cached_response_connected Obs E) by apply Hdb.
  rewrite !(get_cached_response_try_answer Obs E) by apply Hdb.
  cbn [api_cache cache_dir now fs_ops tick_opened tick_db].
  set (k := _generate_key q api_type).
  destruct (Hlook k) as [-> ->]. rewrite !Hfs, Hn. f_equal.
  unfold kept_row, kept_file.
  destruct (lookup k (api_cache w)) as [r|].
  - destruct (expires_at r <? now w)%Z eqn:Hexp.
    + assert (Hdead : (now w <? expires_at r)%Z = false) by lia.
      rewrite Hdead.
      destruct (lookup k (cache_dir w)) as [[v t|]|]; try reflexivity.
      destruct (t <? now w)%Z eqn:Ht; [|reflexivity].
      assert (Hdead' : (now w <? t)%Z = false) by lia. now rewrite Hdead'.
    + destruct (now w <? expires_at r)%Z; [reflexivity|].
      destruct (lookup k (cache_dir w)) as [[v t|]|]; try reflexivity.
      destruct (t <? now w)%Z eqn:Ht; [|reflexivity].
      assert (Hdead' : (now w <? t)%Z = false) by lia. now rewrite Hdead'.
  - destruct (lookup k (cache_dir w)) as [[v t|]|]; try reflexivity.
    destruct (t <? now w)%Z eqn:Ht; [|reflexivity].
    assert (Hdead' : (now w <? t)%Z = false) by lia. now rewrite Hdead'.
Qed.

(** An error of the durable store during the sweep is not handled: when
    the connection, the DELETE or the commit fails, the sweep raises that
    error, the table is as before, and no file is opened or removed; a
    connection that was obtained is closed. *)
Theorem clear_expired_cache_store_error
    (w : World Obs) (i : nat) (msg : string) :
  i < 3 ->
  (forall j, j < i -> db_fault E (db_ops w + j) = None) ->
  db_fault E (db_ops w + i) = Some msg ->
  let w' := snd (clear_expired_cache Obs E w) in
  fst (clear_expired_cache Obs E w) = Raise (SqliteError msg)
  /\ same_stores w w'
  /\ fs_ops w' = fs_ops w
  /\ conn_opened w' = conn_opened w + (if (i =? 0)%nat then 0 else 1)
  /\ conn_closed w' = conn_closed w + (if (i =? 0)%nat then 0 else 1).
Proof.
  intros Hi Hbefore Hfault. cbv zeta. rewrite clear_expired_cache_steps.
  destruct i as [|[|[|i]]]; [| | |lia].
  - rewrite Nat.add_0_r in Hfault. rewrite Hfault.
    cbn. repeat split; lia.
  - pose proof (Hbefore 0) as H0. rewrite Nat.add_0_r in H0.
    rewrite H0 by lia.
    replace (db_ops w + 1) with (S (db_ops w)) in Hfault by lia.
    rewrite Hfault. cbn. repeat split; lia.
  - pose proof (Hbefore 0) as H0. rewrite Nat.add_0_r in H0.
    pose proof (Hbefore 1) as H1.
    replace (db_ops w + 1) with (S (db_ops w)) in H1 by lia.
    rewrite H0, H1 by lia.
    replace (db_ops w + 2) with (S (S (db_ops w))) in Hfault by lia.
    rewrite Hfault. cbn. repeat split; lia.
Qed.

(** The sweep is safe in every execution, whatever fails: it creates and
    alters nothing, and it removes no row and no file that expires now or
    later. *)
Theorem clear_expired_cache_safe (w : World Obs) (k : string) :
  NoDup (map fst (api_cache w)) ->
  let w' := snd (clear_expired_cache Obs E w) in
  (forall r, lookup k (api_cache w') = Some r ->
             lookup k (api_cache w) = Some r)
  /\ (forall f, lookup k (cache_dir w') = Some f ->
                lookup k (cache_dir w) = Some f)
  /\ (forall r, lookup k (api_cache w) = Some r ->
                (now w <= expires_at r)%Z ->
                lookup k (api_cache w') = Some r)
  /\ (forall v t, lookup k (cache_dir w) = Some (FileEntry v t) ->
                  (now w <= t)%Z ->
                  lookup k (cache_dir w') = Some (FileEntry v t)).
Proof.
  intros Hnd. cbv zeta. rewrite clear_expired_cache_steps.
  destruct (db_fault E (db_ops w)) as [msg|];
    [cbn; repeat split; auto|].
  destruct (db_fault E (S (db_ops w))) as [msg|];
    [cbn; repeat split; auto|].
  destruct (db_fault E (S (S (db_ops w)))) as [msg|];
    [cbn; repeat split; auto|].
  match goal with
  | |- context [sweep_files Obs E ?t ?names ?w1] =>
      destruct (sweep_files_any t names w1) as ((Ha & _) & Hlook)
  end.
  cbv zeta in Ha, Hlook.
  cbn [api_cache cache_dir tick_closed set_api_cache tick_db tick_opened]
    in Ha, Hlook.
  rewrite Ha, (lookup_filter_unique _ k (api_cache w) Hnd). cbn [snd].
  repeat split.
  - intros r. destruct (lookup k (api_cache w)) as [r0|]; [|discriminate].
    now destruct (expires_at r0 <? now w)%Z.
  - intros f Hf. destruct (Hlook k) as [H1 | [H1 _]]; congruence.
  - intros r -> Hlive.
    assert (Hkeep : (expires_at r <? now w)%Z = false) by lia.
    now rewrite Hkeep.
  - intros v t Hf Hlive. destruct (Hlook k) as [H1 | [_ H1]];
      [congruence|].
    rewrite Hf in H1. cbn [kept_file] in H1.
    assert (Hkeep : (t <? now w)%Z = false) by lia.
    rewrite Hkeep in H1. discriminate.
Qed.

End SweepFacts.

Lemma world_to_sweep_unique : NoDup (map fst (api_cache world_to_sweep)).
Proof.
  cbn. repeat constructor; cbn; intros H;
    repeat (destruct H as [H|H]; try discriminate); exact H.
Qed.

(** The sweep of [world_to_sweep] removes the expired row [k2]. *)
Lemma clear_expired_cache_effect_witness :
  let w' := snd (clear_expired_cache unit (env_healthy "ok") world_to_sweep) in
  NoDup (map fst (api_cache world_to_sweep))
  /\ fst (clear_expired_cache unit (env_healthy "ok") world_to_sweep) = Ok tt
  /\ lookup "k2" (api_cache w') = None
  /\ lookup "k2" (cache_dir w') = None.
Proof.
  cbv zeta. split; [exact world_to_sweep_unique|].
  exact (clear_expired_cache_effect unit (env_healthy "ok") world_to_sweep
           "k2" eq_refl eq_refl eq_refl (fun _ => eq_refl)
           world_to_sweep_unique).
Defined.

(** A lookup of the coordinates of Paris after the sweep of
    [world_to_sweep]. *)
Lemma clear_expired_cache_invisible_witness :
  (forall n, db_fault (env_healthy "ok") n = None)
  /\ fst (get_cached_response unit (env_healthy "ok") geocode_paris "geocode"
            (snd (clear_expired_cache unit (env_healthy "ok") world_to_sweep)))
     = fst (get_cached_response unit (env_healthy "ok") geocode_paris "geocode"
              world_to_sweep).
Proof.
  split; [intros n; reflexivity|].
  exact (clear_expired_cache_invisible unit (env_healthy "ok") geocode_paris
           "geocode" world_to_sweep (fun _ => eq_refl) (fun _ => eq_refl)
           world_to_sweep_unique).
Defined.

(** The sweep of [world_to_sweep] when the DELETE fails. *)
Lemma clear_expired_cache_store_error_witness :
  let E := env_statements_fail "ok" in
  let w' := snd (clear_expired_cache unit E world_to_sweep) in
  db_fault E (db_ops world_to_sweep + 1) = Some "disk I/O error"
  /\ fst (clear_expired_cache unit E world_to_sweep)
     = Raise (SqliteError "disk I/O error")
  /\ same_stores world_to_sweep w'
  /\ fs_ops w' = 0
  /\ conn_opened w' = 1
  /\ conn_closed w' = 1.
Proof.
  cbv zeta. split; [reflexivity|].
  apply (clear_expired_cache_store_error unit (env_statements_fail "ok")
           world_to_sweep 1 "disk I/O error").
  - lia.
  - intros j Hj. destruct j as [|j]; [reflexivity | lia].
  - reflexivity.
Defined.

(** The file [k3] of [world_to_sweep] expires at the time of the sweep: it
    stays. *)
Lemma clear_expired_cache_safe_witness :
  let w' := snd (clear_expired_cache unit (env_healthy "ok") world_to_sweep) in
  NoDup (map fst (api_cache world_to_sweep))
  /\ lookup "k3" (cache_dir w') = Some (FileEntry (JStr "fresh file") 100).
Proof.
  cbv zeta. split; [exact world_to_sweep_unique|].
  destruct (clear_expired_cache_safe unit (env_healthy "ok") world_to_sweep
              "k3" world_to_sweep_unique) as (_ & _ & _ & Hfile).
  apply Hfile; [reflexivity | cbn; lia].
Defined.


(** ** Replies with a fenced block *)

Example split_fences :
  PyText.split_on "```" "a```b```c" = ["a"; "b"; "c"]
  /\ PyText.split_on "```" "````" = [""; "`"]
  /\ PyText.split_on "ab" "" = [""]
  /\ PyText.split_on "aa" "aaaaa" = [""; ""; "a"].
Proof. repeat split. Qed.

Example strip_both_ends :
  PyText.strip "  {'a': 1}
 " = "{'a': 1}"
  /\ PyText.strip "   " = ""
  /\ PyText.strip "a b" = "a b".
Proof. repeat split. Qed.

Example json_str_replies :
  json_str reply_json_fence = Some "{'lat': 48.85, 'lng': 2.35}"
  /\ json_str reply_bare_fence = Some "{'lat': 48.85, 'lng': 2.35}"
  /\ json_str " [1, 2] " = Some "[1, 2]".
Proof. repeat split. Qed.

Module PyTextFacts.

Import PyText.

Lemma prefix_app (sep s : string) : String.prefix sep (sep ++ s) = true.
Proof.
  induction sep as [|c sep IH]; cbn.
  - now destruct s.
  - now destruct (ascii_dec c c).
Qed.

Lemma drop_app (sep s : string) : drop (String.length sep) (sep ++ s) = s.
Proof. induction sep as [|c sep IH]; cbn; [now destruct s | exact IH]. Qed.

Lemma find_unfold (sep s : string) :
  find sep s
  = if String.prefix sep s then Some ("", drop (String.length sep) s)
    else match s with
         | "" => None
         | String c s' =>
             match find sep s' with
             | Some (before, after) => Some (String c before, after)
             | None => None
             end
         end.
Proof. now destruct s. Qed.

(** A separator is found where it is read. *)
Lemma find_here (sep s : string) :
  find sep (sep ++ s) = Some ("", s).
Proof. now rewrite find_unfold, prefix_app, drop_app. Qed.

(** Passing the characters of a separator just found. *)
Lemma split_by_skip (sep : string) (s : string) :
  forall (k : nat) (piece : string),
    split_by sep k piece s = split_by sep 0 piece (drop k s).
Proof.
  induction s as [|c s IH]; intros k piece.
  - now destruct k.
  - destruct k as [|k]; [reflexivity|]. cbn [split_by drop]. apply IH.
Qed.

(** [split] cuts at the first occurrence of the separator and goes on with
    what follows it. *)
Lemma split_by_find (sep : string) :
  sep <> "" ->
  forall s piece,
    split_by sep 0 piece s
    = match find sep s with
      | Some (before, after) => (piece ++ before) :: split_by sep 0 "" after
      | None => [piece ++ s]
      end.
Proof.
  intros Hsep. induction s as [|c s IH]; intros piece.
  - destruct sep; [now destruct Hsep|]. cbn. now rewrite PyStrFacts.append_empty_r.
  - rewrite find_unfold. cbn [split_by].
    destruct (String.prefix sep (String c s)) eqn:Hp.
    + rewrite split_by_skip, PyStrFacts.append_empty_r.
      destruct sep as [|c0 sep]; [now destruct Hsep|].
      cbn [String.length drop Nat.sub]. now rewrite ?Nat.sub_0_r.
    + rewrite IH. unfold PyStr.snoc.
      destruct (find sep s) as [[before after]|];
        now rewrite PyStrFacts.append_assoc.
Qed.

Lemma split_on_find (sep s : string) :
  sep <> "" ->
  split_on sep s
  = match find sep s with
    | Some (before, after) => before :: split_on sep after
    | None => [s]
    end.
Proof. intros Hsep. unfold split_on. now rewrite split_by_find. Qed.

(** A split has a first piece. *)
Lemma split_by_first (sep : string) (s : string) :
  forall (k : nat) (piece : string),
    exists first rest, split_by sep k piece s = first :: rest.
Proof.
  induction s as [|c s IH]; intros k piece; cbn [split_by].
  - now exists piece, [].
  - destruct k as [|k]; [|apply IH].
    destruct (String.prefix sep (String c s)); [|apply IH].
    now eexists _, _.
Qed.

Lemma find_no_backtick (sep' s : string) :
  no_backtick s = true -> find (String "`" sep') s = None.
Proof.
  induction s as [|c s IH]; [reflexivity|]. cbn [no_backtick].
  intros H. apply andb_prop in H as [Hc Hs].
  rewrite find_unfold. cbn [String.prefix].
  destruct (ascii_dec "`" c) as [<-|_]; [discriminate|].
  now rewrite IH.
Qed.

(** A text free of backticks is passed before a fence is found. *)
Lemma find_after (sep' a s : string) :
  no_backtick a = true ->
  find (String "`" sep') (a ++ s)
  = match find (String "`" sep') s with
    | Some (before, after) => Some (a ++ before, after)
    | None => None
    end.
Proof.
  induction a as [|c a IH]; cbn [no_backtick append].
  - intros _. now destruct (find _ s) as [[? ?]|].
  - intros H. apply andb_prop in H as [Hc Ha].
    rewrite find_unfold. cbn [String.prefix].
    destruct (ascii_dec "`" c) as [<-|_]; [discriminate|].
    rewrite (IH Ha). now destruct (find _ s) as [[? ?]|].
Qed.

Lemma prefix_cons (c : ascii) (a b : string) :
  String.prefix (String c a) (String c b) = String.prefix a b.
Proof. cbn. now destruct (ascii_dec c c). Qed.

Lemma prefix_backtick (sep' s : string) :
  no_backtick s = true -> String.prefix (String "`" sep') s = false.
Proof.
  destruct s as [|c s]; [reflexivity|]. cbn [no_backtick String.prefix].
  intros H. apply andb_prop in H as [Hc _].
  now destruct (ascii_dec "`" c) as [<-|_].
Qed.

(** After a closing fence, the only place where a fence tagged [json] can
    be read is the fence itself. *)
Lemma find_json_fence_at_fence (s : string) :
  no_backtick s = true ->
  find json_fence (fence ++ s)
  = if String.prefix "json" s then Some ("", drop 4 s) else None.
Proof.
  intros Hs. unfold json_fence, fence.
  rewrite find_unfold. cbn [append]. rewrite !prefix_cons.
  destruct (String.prefix "json" s); [reflexivity|].
  rewrite find_unfold, !prefix_cons, (prefix_backtick _ s Hs).
  rewrite find_unfold, !prefix_cons, (prefix_backtick _ s Hs).
  now rewrite (find_no_backtick _ s Hs).
Qed.

(** A word free of backticks that does not start a text does not start
    it when a backtick is appended. *)
Lemma prefix_before_backtick (p b r : string) :
  no_backtick p = true ->
  String.prefix p b = false ->
  String.prefix p (b ++ String "`" r) = false.
Proof.
  revert b. induction p as [|x p IH]; intros b Hp Hb.
  - now destruct b.
  - cbn [no_backtick] in Hp. apply andb_prop in Hp as [Hx Hp].
    destruct b as [|y b]; cbn [append String.prefix] in *.
    + now destruct (ascii_dec x "`") as [->|_].
    + destruct (ascii_dec x y); [now apply IH | reflexivity].
Qed.

(** A block between bare fences that does not start with [json], followed
    by a text that does not either, holds no fence tagged [json]. *)
Lemma find_json_fence_in_block (body post : string) :
  no_backtick body = true ->
  no_backtick post = true ->
  String.prefix "json" body = false ->
  String.prefix "json" post = false ->
  find json_fence (fence ++ body ++ fence ++ post) = None.
Proof.
  intros Hbody Hpost Hb Hp.
  assert (Hin : find json_fence (body ++ fence ++ post) = None).
  { unfold json_fence at 1. rewrite (find_after _ body _ Hbody).
    fold json_fence. now rewrite (find_json_fence_at_fence post Hpost), Hp. }
  assert (H0 : String.prefix "json" (body ++ fence ++ post) = false)
    by now apply prefix_before_backtick.
  assert (H1 : String.prefix "`json" (body ++ fence ++ post) = false).
  { destruct body as [|c body].
    - cbn [append fence]. rewrite prefix_cons.
      now apply (prefix_before_backtick "json" "" _).
    - cbn [no_backtick] in Hbody. apply andb_prop in Hbody as [Hc _].
      cbn [append String.prefix].
      now destruct (ascii_dec "`" c) as [<-|_]. }
  assert (H2 : String.prefix "``json" (body ++ fence ++ post) = false).
  { destruct body as [|c body].
    - cbn [append fence]. rewrite !prefix_cons.
      now apply (prefix_before_backtick "json" "" _).
    - cbn [no_backtick] in Hbody. apply andb_prop in Hbody as [Hc _].
      cbn [append String.prefix].
      now destruct (ascii_dec "`" c) as [<-|_]. }
  unfold json_fence, fence at 1. cbn [append].
  rewrite find_unfold, !prefix_cons, H0.
  rewrite find_unfold, !prefix_cons, H1.
  rewrite find_unfold, !prefix_cons, H2.
  fold json_fence. now rewrite Hin.
Qed.

End PyTextFacts.

Import PyText PyTextFacts.

Lemma json_fence_not_empty : json_fence <> "".
Proof. discriminate. Qed.

Lemma fence_not_empty : fence <> "".
Proof. discriminate. Qed.

(** The statement never raises [IndexError]: whatever the reply, a text is
    extracted. *)
Theorem json_str_defined (result : string) :
  exists text, json_str result = Some text.
Proof.
  unfold json_str, contains.
  destruct (find json_fence result) as [[before after]|] eqn:Hjson.
  - rewrite (split_on_find _ _ json_fence_not_empty), Hjson.
    cbn [nth_error]. unfold split_on.
    destruct (split_by_first json_fence after 0 "") as (block & rest & ->).
    cbn [nth_error].
    destruct (split_by_first fence block 0 "") as (text & rest' & ->).
    now eexists.
  - destruct (find fence result) as [[before after]|] eqn:Hfence.
    + rewrite (split_on_find _ _ fence_not_empty), Hfence.
      cbn [nth_error]. unfold split_on.
      destruct (split_by_first fence after 0 "") as (text & rest & ->).
      now eexists.
    + now eexists.
Qed.

(** A reply with one block fenced as JSON, the surrounding text, the block
    and what follows it free of backticks: the text extracted is the block,
    stripped. *)
Theorem json_str_json_fence (pre body post : string) :
  no_backtick pre = true ->
  no_backtick body = true ->
  no_backtick post = true ->
  json_str (pre ++ json_fence ++ body ++ fence ++ post) = Some (strip body).
Proof.
  intros Hpre Hbody Hpost. unfold json_str, contains.
  assert (Hfirst : find json_fence (pre ++ json_fence ++ body ++ fence ++ post)
                   = Some (pre, body ++ fence ++ post)).
  { unfold json_fence at 1. rewrite (find_after _ pre _ Hpre).
    fold json_fence. now rewrite find_here, PyStrFacts.append_empty_r. }
  rewrite Hfirst, (split_on_find _ _ json_fence_not_empty), Hfirst.
  cbn [nth_error].
  assert (Hclose : find fence (body ++ fence ++ post) = Some (body, post)).
  { unfold fence at 1. rewrite (find_after _ body _ Hbody).
    fold fence. now rewrite find_here, PyStrFacts.append_empty_r. }
  rewrite (split_on_find _ _ json_fence_not_empty).
  unfold json_fence at 1. rewrite (find_after _ body _ Hbody). fold json_fence.
  rewrite (find_json_fence_at_fence post Hpost).
  destruct (String.prefix "json" post); cbn [nth_error].
  - rewrite PyStrFacts.append_empty_r, (split_on_find _ _ fence_not_empty).
    unfold fence at 1. now rewrite (find_no_backtick _ body Hbody).
  - now rewrite (split_on_find _ _ fence_not_empty), Hclose.
Qed.

(** A reply with one block between bare fences, free of backticks around
    and inside, where neither the block nor what follows it starts with
    [json]: the text extracted is the block, stripped. *)
Theorem json_str_bare_fence (pre body post : string) :
  no_backtick pre = true ->
  no_backtick body = true ->
  no_backtick post = true ->
  String.prefix "json" body = false ->
  String.prefix "json" post = false ->
  json_str (pre ++ fence ++ body ++ fence ++ post) = Some (strip body).
Proof.
  intros Hpre Hbody Hpost Hb Hp. unfold json_str, contains.
  assert (Hclose : find fence (body ++ fence ++ post) = Some (body, post)).
  { unfold fence at 1. rewrite (find_after _ body _ Hbody).
    fold fence. now rewrite find_here, PyStrFacts.append_empty_r. }
  assert (Hnone : find json_fence (pre ++ fence ++ body ++ fence ++ post)
                  = None).
  { unfold json_fence at 1. rewrite (find_after _ pre _ Hpre). fold json_fence.
    now rewrite find_json_fence_in_block. }
  rewrite Hnone.
  assert (Hopen : find fence (pre ++ fence ++ body ++ fence ++ post)
                  = Some (pre, body ++ fence ++ post)).
  { unfold fence at 1. rewrite (find_after _ pre _ Hpre).
    fold fence. now rewrite find_here, PyStrFacts.append_empty_r. }
  rewrite Hopen, (split_on_find _ _ fence_not_empty), Hopen.
  cbn [nth_error].
  now rewrite (split_on_find _ _ fence_not_empty), Hclose.
Qed.

(** The reply of the example is a block fenced as JSON between two
    sentences. *)
Lemma json_str_json_fence_witness :
  PyText.no_backtick "Here you are: " = true
  /\ json_str reply_json_fence = Some "{'lat': 48.85, 'lng': 2.35}".
Proof.
  split; [reflexivity|].
  exact (json_str_json_fence "Here you are: " " {'lat': 48.85, 'lng': 2.35} "
           " Enjoy Paris." eq_refl eq_refl eq_refl).
Defined.

Lemma json_str_bare_fence_witness :
  String.prefix "json" " {'lat': 48.85, 'lng': 2.35} " = false
  /\ json_str reply_bare_fence = Some "{'lat': 48.85, 'lng': 2.35}".
Proof.
  split; [reflexivity|].
  exact (json_str_bare_fence "" " {'lat': 48.85, 'lng': 2.35} " ""
           eq_refl eq_refl eq_refl eq_refl eq_refl).
Defined.


(** ** Coordinates of a place *)

(** The prompt for Paris is, byte for byte, the text that the f-string of
    the source yields. *)
Example geocode_prompt_paris :
  String.length (geocode_prompt "Paris") = 299
  /\ MD5.hexdigest (encode (geocode_prompt "Paris"))
     = "f2b2e32c5c60336fbcd7c0cccfa82b83".
Proof. split; vm_compute; reflexivity. Qed.

Section GeocodingFacts.

Variable Obs : Type.
Variable E : Env.
Variable json_loads : string -> outcome json.
Variable not_text_message : json -> string.

Local Abbreviation callback := (option (string -> Obs -> Obs)).
Local Abbreviation geocode :=
  (geocode_location Obs E json_loads not_text_message).
Local Abbreviation geocode_try :=
  (geocode_location_try Obs E json_loads not_text_message).

Lemma sim_geocode_location_try (cb1 cb2 : callback) (location_name : string)
    (result : json) :
  sim (geocode_try location_name cb1 result)
      (geocode_try location_name cb2 result).
Proof.
  unfold geocode_location_try.
  destruct result; try (apply sim_bind; [apply sim_notify | intro; apply sim_ret]).
  destruct (json_str s);
    [|apply sim_bind; [apply sim_notify | intro; apply sim_ret]].
  apply sim_try_except.
  - apply sim_bind; [apply sim_lift | intro].
    apply sim_bind; [apply sim_cache_response | intro]. apply sim_ret.
  - intro. apply sim_bind; [apply sim_notify | intro; apply sim_ret].
Qed.

Lemma sim_geocode_location (cb1 cb2 : callback) (location_name : string) :
  sim (geocode location_name cb1) (geocode location_name cb2).
Proof.
  unfold geocode_location.
  apply sim_bind; [apply sim_notify | intro].
  apply sim_bind; [apply sim_get_cached_response | intro cached].
  destruct (truthy cached).
  - apply sim_bind; [apply sim_notify | intro; apply sim_ret].
  - apply sim_bind; [apply sim_call_openai_api | intro].
    apply sim_geocode_location_try.
Qed.

(** The outcome and the world of [geocode_location] are, up to the
    observer, those of the call without an observer. *)
Lemma geocode_location_as_silent (location_name : string) (cb : callback)
    (w : World Obs) :
  let silent := geocode location_name None w in
  let result := geocode location_name cb w in
  fst result = fst silent
  /\ api_cache (snd result) = api_cache (snd silent)
  /\ cache_dir (snd result) = cache_dir (snd silent)
  /\ now (snd result) = now (snd silent)
  /\ remote_calls (snd result) = remote_calls (snd silent).
Proof.
  cbv zeta.
  destruct (sim_geocode_location None cb location_name w w
              (same_but_observer_refl Obs w)) as [Hr Hw].
  apply same_but_observer_fields in Hw
    as (Ha & Hd & Hn & _ & _ & _ & _ & Hc).
  repeat split; congruence.
Qed.

(** [geocode_location] without an observer. *)
Lemma geocode_location_silent (location_name : string) (w : World Obs) :
  geocode location_name None w
  = match get_cached_response Obs E (geocode_cache_key location_name)
            "geocode" w with
    | (Ok cached, w1) =>
        if truthy cached then (Ok cached, w1)
        else
          match call_openai_api Obs E (geocode_prompt location_name)
                  (Some geocode_system_prompt) "gpt-3.5-turbo" (JFloat "0.1")
                  100 None w1 with
          | (Ok result, w2) => geocode_try location_name None result w2
          | (Raise e, w2) => (Raise e, w2)
          end
    | (Raise e, w1) => (Raise e, w1)
    end.
Proof.
  unfold geocode_location.
  rewrite (bind_ok Obs _ _ w w tt eq_refl). unfold bind at 1.
  destruct (get_cached_response Obs E _ "geocode" w) as [[cached|e] w1];
    [|reflexivity].
  destruct (truthy cached); reflexivity.
Qed.

(** A lookup with healthy stores that finds neither a row nor a file. *)
Lemma get_cached_response_miss (q : query_data) (api_type : string)
    (w : World Obs) :
  (forall n, db_fault E n = None) ->
  lookup (_generate_key q api_type) (api_cache w) = None ->
  lookup (_generate_key q api_type) (cache_dir w) = None ->
  fst (get_cached_response Obs E q api_type w) = Ok JNull.
Proof.
  intros Hdb Ha Hd.
  rewrite (get_cached_response_connected Obs E q api_type w (Hdb _)).
  rewrite (get_cached_response_try_answer Obs E) by apply Hdb.
  cbn [api_cache cache_dir tick_opened tick_db]. now rewrite Ha, Hd.
Qed.

(** What a lookup leaves: the stores, the clock and the count of the
    remote calls. *)
Lemma get_cached_response_leaves (q : query_data) (api_type : string)
    (w : World Obs) :
  let w' := snd (get_cached_response Obs E q api_type w) in
  api_cache w' = api_cache w /\ cache_dir w' = cache_dir w
  /\ now w' = now w /\ remote_calls w' = remote_calls w.
Proof.
  cbv zeta.
  destruct (get_cached_response_stores Obs E q api_type w) as [Ha Hd].
  destruct (get_cached_response_frame Obs E q api_type w) as [Hc Hn].
  repeat split; assumption.
Qed.

(** A call of [call_openai_api] without an observer that finds nothing in
    the cache and is answered at once, the durable store being healthy. *)
Lemma call_openai_api_fresh
    (prompt : string) (system_prompt : option string) (model : string)
    (temperature : json) (max_tokens : Z) (w : World Obs) (answer : json) :
  let k :=
    _generate_key
      (openai_cache_key prompt system_prompt model temperature max_tokens)
      "openai" in
  openai_available E = true ->
  (forall n, db_fault E n = None) ->
  lookup k (api_cache w) = None ->
  lookup k (cache_dir w) = None ->
  (forall e, user_content E prompt system_prompt <> Raise e) ->
  (forall r, remote E (remote_calls w) r = Ok answer) ->
  let res :=
    call_openai_api Obs E prompt system_prompt model temperature max_tokens
      None w in
  fst res = Ok answer
  /\ remote_calls (snd res) = S (remote_calls w)
  /\ now (snd res) = now w
  /\ api_cache (snd res)
     = upsert k (mkRow answer "openai" (now w + 24 * 3600))
         (fun r0 => mkRow answer (api_type_col r0) (now w + 24 * 3600))
         (api_cache w).
Proof.
  intros k Havail Hdb Ha Hd Hshape Hremote. cbv zeta.
  rewrite (call_openai_api_silent Obs E) by exact Havail. cbv zeta.
  set (key := openai_cache_key prompt system_prompt model temperature
                max_tokens) in *.
  pose proof (get_cached_response_miss key "openai" w Hdb Ha Hd) as Hmiss.
  destruct (get_cached_response_leaves key "openai" w)
    as (Ha1 & _ & Hn1 & Hc1).
  destruct (get_cached_response Obs E key "openai" w) as [r1 w1].
  cbn [fst snd] in Hmiss, Ha1, Hn1, Hc1. subst r1. cbn [truthy].
  destruct (user_content E prompt system_prompt) as [content|e];
    [|now destruct (Hshape e)].
  match goal with
  | |- context [attempts Obs E None key ?r max_retries 0 1 w1] =>
      destruct (attempts_recovers Obs E key r answer Hdb 0 max_retries 0 1 w1)
        as (Hres & Hcalls & Hnow & Hcache)
  end.
  - unfold max_retries. lia.
  - unfold max_retries. lia.
  - intros i Hi. lia.
  - rewrite Nat.add_0_r, Hc1. apply Hremote.
  - change (1 * (2 ^ Z.of_nat 0 - 1))%Z with 0%Z in Hnow, Hcache.
    rewrite Z.add_0_r, Hn1 in Hnow, Hcache. rewrite Ha1 in Hcache.
    repeat split; [exact Hres | rewrite Hcalls; lia | exact Hnow
                  | exact Hcache].
Qed.

(** Round trip of the coordinates.  With healthy stores and nothing cached
    for the place, a reply from which [json.loads] reads coordinates is
    wrapped in the structure of the maps service, returned after one remote
    call, and stored for 30 days under the key of the place; a later call
    for the same place within these 30 days, the table unchanged, returns
    the same result without any remote call. *)
Theorem geocode_location_round_trip
    (location_name : string) (cb : callback) (w : World Obs)
    (text extracted : string) (coordinates : json) :
  let k_place := _generate_key (geocode_cache_key location_name) "geocode" in
  let k_reply :=
    _generate_key
      (openai_cache_key (geocode_prompt location_name)
         (Some geocode_system_prompt) "gpt-3.5-turbo" (JFloat "0.1") 100)
      "openai" in
  openai_available E = true ->
  (forall n, db_fault E n = None) ->
  lookup k_place (api_cache w) = None ->
  lookup k_place (cache_dir w) = None ->
  lookup k_reply (api_cache w) = None ->
  lookup k_reply (cache_dir w) = None ->
  (forall e, user_content E (geocode_prompt location_name)
               (Some geocode_system_prompt) <> Raise e) ->
  (forall r, remote E (remote_calls w) r = Ok (JStr text)) ->
  json_str text = Some extracted ->
  json_loads extracted = Ok coordinates ->
  let first := geocode location_name cb w in
  fst first = Ok (geocode_result coordinates)
  /\ remote_calls (snd first) = S (remote_calls w)
  /\ forall (cb' : callback) (w' : World Obs),
       api_cache w' = api_cache (snd first) ->
       (now w' < now w + 720 * 3600)%Z ->
       fst (geocode location_name cb' w') = Ok (geocode_result coordinates)
       /\ remote_calls (snd (geocode location_name cb' w')) = remote_calls w'.
Proof.
  intros k_place k_reply Havail Hdb Hpa Hpd Hra Hrd Hshape Hremote Hjs Hloads.
  cbv zeta.
  destruct (geocode_location_as_silent location_name cb w)
    as (Hr & Ha & _ & _ & Hc).
  cbv zeta in Hr, Ha, Hc. rewrite Hr, Ha, Hc. clear Hr Ha Hc.
  assert (Hfirst :
            fst (geocode location_name None w)
            = Ok (geocode_result coordinates)
            /\ remote_calls (snd (geocode location_name None w))
               = S (remote_calls w)
            /\ exists r, lookup k_place
                           (api_cache (snd (geocode location_name None w)))
                         = Some r
                         /\ response_data r = geocode_result coordinates
                         /\ expires_at r = (now w + 720 * 3600)%Z).
  { rewrite geocode_location_silent.
    pose proof (get_cached_response_miss (geocode_cache_key location_name)
                  "geocode" w Hdb Hpa Hpd) as Hmiss.
    destruct (get_cached_response_leaves (geocode_cache_key location_name)
                "geocode" w) as (Ha1 & Hd1 & Hn1 & Hc1).
    destruct (get_cached_response Obs E _ "geocode" w) as [r1 w1].
    cbn [fst snd] in Hmiss, Ha1, Hd1, Hn1, Hc1. subst r1. cbn [truthy].
    destruct (call_openai_api_fresh (geocode_prompt location_name)
                (Some geocode_system_prompt) "gpt-3.5-turbo" (JFloat "0.1")
                100 w1 (JStr text) Havail Hdb)
      as (Hres & Hcalls & Hnow & Hcache).
    - fold k_reply. now rewrite Ha1.
    - fold k_reply. now rewrite Hd1.
    - exact Hshape.
    - rewrite Hc1. exact Hremote.
    - destruct (call_openai_api Obs E _ _ _ _ _ None w1) as [r2 w2].
      cbn [fst snd] in Hres, Hcalls, Hnow, Hcache. subst r2.
      unfold geocode_location_try. rewrite Hjs.
      unfold try_except, bind, lift. rewrite Hloads.
      rewrite (cache_response_healthy Obs E _ _ "geocode" 720 w2
                 (Hdb _) (Hdb _) (Hdb _)).
      cbn [fst snd ret remote_calls api_cache tick_closed set_api_cache
           tick_db tick_opened].
      split; [reflexivity|]. split; [congruence|].
      fold k_place. rewrite lookup_upsert. eexists. split; [reflexivity|].
      rewrite Hnow, Hn1.
      destruct (lookup k_place (api_cache w2)); split; reflexivity. }
  destruct Hfirst as (Hres & Hcalls & r & Hrow & Hdata & Hexp).
  split; [exact Hres|]. split; [exact Hcalls|].
  intros cb' w' Htable Hlive.
  destruct (geocode_location_as_silent location_name cb' w')
    as (Hr & _ & _ & _ & Hc).
  cbv zeta in Hr, Hc. rewrite Hr, Hc. clear Hr Hc.
  rewrite geocode_location_silent.
  assert (Hhit : fst (get_cached_response Obs E
                        (geocode_cache_key location_name) "geocode" w')
                 = Ok (geocode_result coordinates)).
  { rewrite <- Hdata. apply get_cached_response_hit; try apply Hdb.
    - fold k_place. now rewrite Htable.
    - now rewrite Hexp. }
  destruct (get_cached_response_leaves (geocode_cache_key location_name)
              "geocode" w') as (_ & _ & _ & Hc1).
  destruct (get_cached_response Obs E _ "geocode" w') as [r1 w1].
  cbn [fst snd] in Hhit, Hc1. subst r1.
  cbn [truthy geocode_result fst snd]. split; [reflexivity | exact Hc1].
Qed.

(** A reply that cannot be parsed sticks.  With healthy stores and nothing
    cached, a reply from which [json.loads] raises gives the error result
    and is not stored for the place, but the reply itself was stored by
    [call_openai_api]: for the next 24 hours a new call for the place makes
    no remote call and gives the same error. *)
Theorem geocode_location_bad_reply_sticks
    (location_name : string) (cb : callback) (w : World Obs)
    (text extracted : string) (e : exn) :
  let k_place := _generate_key (geocode_cache_key location_name) "geocode" in
  let k_reply :=
    _generate_key
      (openai_cache_key (geocode_prompt location_name)
         (Some geocode_system_prompt) "gpt-3.5-turbo" (JFloat "0.1") 100)
      "openai" in
  openai_available E = true ->
  (forall n, db_fault E n = None) ->
  k_place <> k_reply ->
  lookup k_place (api_cache w) = None ->
  lookup k_place (cache_dir w) = None ->
  lookup k_reply (api_cache w) = None ->
  lookup k_reply (cache_dir w) = None ->
  (forall e, user_content E (geocode_prompt location_name)
               (Some geocode_system_prompt) <> Raise e) ->
  (forall r, remote E (remote_calls w) r = Ok (JStr text)) ->
  text <> "" ->
  json_str text = Some extracted ->
  json_loads extracted = Raise e ->
  let first := geocode location_name cb w in
  fst first = Ok (geocode_error (exn_str e))
  /\ remote_calls (snd first) = S (remote_calls w)
  /\ lookup k_place (api_cache (snd first)) = None
  /\ forall (cb' : callback) (w' : World Obs),
       api_cache w' = api_cache (snd first) ->
       lookup k_place (cache_dir w') = None ->
       (now w' < now w + 24 * 3600)%Z ->
       fst (geocode location_name cb' w') = Ok (geocode_error (exn_str e))
       /\ remote_calls (snd (geocode location_name cb' w')) = remote_calls w'.
Proof.
  intros k_place k_reply Havail Hdb Hkeys Hpa Hpd Hra Hrd Hshape Hremote
    Htext Hjs Hloads.
  cbv zeta.
  destruct (geocode_location_as_silent location_name cb w)
    as (Hr & Ha & _ & _ & Hc).
  cbv zeta in Hr, Ha, Hc. rewrite Hr, Ha, Hc. clear Hr Ha Hc.
  assert (Hfirst :
            fst (geocode location_name None w)
            = Ok (geocode_error (exn_str e))
            /\ remote_calls (snd (geocode location_name None w))
               = S (remote_calls w)
            /\ api_cache (snd (geocode location_name None w))
               = upsert k_reply (mkRow (JStr text) "openai" (now w + 24 * 3600))
                   (fun r0 => mkRow (JStr text) (api_type_col r0)
                                (now w + 24 * 3600))
                   (api_cache w)).
  { rewrite geocode_location_silent.
    pose proof (get_cached_response_miss (geocode_cache_key location_name)
                  "geocode" w Hdb Hpa Hpd) as Hmiss.
    destruct (get_cached_response_leaves (geocode_cache_key location_name)
                "geocode" w) as (Ha1 & Hd1 & Hn1 & Hc1).
    destruct (get_cached_response Obs E _ "geocode" w) as [r1 w1].
    cbn [fst snd] in Hmiss, Ha1, Hd1, Hn1, Hc1. subst r1. cbn [truthy].
    destruct (call_openai_api_fresh (geocode_prompt location_name)
                (Some geocode_system_prompt) "gpt-3.5-turbo" (JFloat "0.1")
                100 w1 (JStr text) Havail Hdb)
      as (Hres & Hcalls & Hnow & Hcache).
    - fold k_reply. now rewrite Ha1.
    - fold k_reply. now rewrite Hd1.
    - exact Hshape.
    - rewrite Hc1. exact Hremote.
    - destruct (call_openai_api Obs E _ _ _ _ _ None w1) as [r2 w2].
      cbn [fst snd] in Hres, Hcalls, Hnow, Hcache. subst r2.
      unfold geocode_location_try. rewrite Hjs.
      unfold try_except, bind, lift, notify. rewrite Hloads.
      cbn [fst snd ret]. fold k_reply in Hcache.
      split; [reflexivity|]. split; [congruence|].
      now rewrite Hcache, Hn1, Ha1. }
  destruct Hfirst as (Hres & Hcalls & Hcache).
  split; [exact Hres|]. split; [exact Hcalls|]. split.
  { rewrite Hcache, lookup_upsert_other by exact Hkeys. exact Hpa. }
  intros cb' w' Htable Hfile Hlive.
  destruct (geocode_location_as_silent location_name cb' w')
    as (Hr & _ & _ & _ & Hc).
  cbv zeta in Hr, Hc. rewrite Hr, Hc. clear Hr Hc.
  rewrite geocode_location_silent.
  assert (Hmiss : fst (get_cached_response Obs E
                         (geocode_cache_key location_name) "geocode" w')
                  = Ok JNull).
  { apply get_cached_response_miss; [exact Hdb | | exact Hfile].
    fold k_place.
    rewrite Htable, Hcache, lookup_upsert_other by exact Hkeys. exact Hpa. }
  destruct (get_cached_response_leaves (geocode_cache_key location_name)
              "geocode" w') as (Ha1 & _ & Hn1 & Hc1).
  destruct (get_cached_response Obs E _ "geocode" w') as [r1 w1].
  cbn [fst snd] in Hmiss, Ha1, Hn1, Hc1. subst r1. cbn [truthy].
  assert (Hhit : fst (get_cached_response Obs E
                        (openai_cache_key (geocode_prompt location_name)
                           (Some geocode_system_prompt) "gpt-3.5-turbo"
                           (JFloat "0.1") 100) "openai" w1)
                 = Ok (JStr text)).
  { pose proof (lookup_upsert k_reply
                  (mkRow (JStr text) "openai" (now w + 24 * 3600))
                  (fun r0 => mkRow (JStr text) (api_type_col r0)
                               (now w + 24 * 3600))
                  (api_cache w)) as Hrow.
    rewrite <- Hcache, <- Htable, <- Ha1 in Hrow. fold k_reply in Hrow.
    rewrite (get_cached_response_hit Obs E _ "openai" w1 _ (Hdb _) (Hdb _)
               Hrow).
    - now destruct (lookup k_reply (api_cache w)).
    - rewrite Hn1. now destruct (lookup k_reply (api_cache w)). }
  assert (Htruthy : truthy (JStr text) = true).
  { cbn [truthy]. destruct (String.eqb text "") eqn:Heq; [|reflexivity].
    apply String.eqb_eq in Heq. contradiction. }
  destruct (call_openai_api_hit Obs E (geocode_prompt location_name)
              (Some geocode_system_prompt) "gpt-3.5-turbo" (JFloat "0.1") 100
              None w1 (JStr text) Havail Hhit Htruthy) as [Hres2 Hsame2].
  cbv zeta in Hres2, Hsame2.
  apply same_but_observer_fields in Hsame2
    as (_ & _ & _ & _ & _ & _ & _ & Hc2).
  destruct (get_cached_response_leaves
              (openai_cache_key (geocode_prompt location_name)
                 (Some geocode_system_prompt) "gpt-3.5-turbo" (JFloat "0.1")
                 100) "openai" w1) as (_ & _ & _ & Hc3).
  destruct (call_openai_api Obs E _ _ _ _ _ None w1) as [r2 w2].
  cbn [fst snd] in Hres2, Hc2. subst r2.
  unfold geocode_location_try. rewrite Hjs.
  unfold try_except, bind, lift, notify. rewrite Hloads.
  cbn [fst snd ret]. split; [reflexivity | congruence].
Qed.

End GeocodingFacts.

(** The coordinates of Paris, asked twice: the second call is answered
    from the cache. *)
Lemma geocode_location_round_trip_witness :
  let E := env_healthy reply_json_fence in
  let first := geocode_location unit E loads_paris not_text "Paris" None
                 empty_world in
  json_str reply_json_fence = Some "{'lat': 48.85, 'lng': 2.35}"
  /\ fst first
     = Ok (geocode_result
             (JDict [("lat", JFloat "48.85"); ("lng", JFloat "2.35")]))
  /\ remote_calls (snd first) = 1
  /\ remote_calls
       (snd (geocode_location unit E loads_paris not_text "Paris" None
               (snd first))) = 1.
Proof.
  cbv zeta. split; [reflexivity|].
  destruct (geocode_location_round_trip unit (env_healthy reply_json_fence)
              loads_paris not_text "Paris" None empty_world reply_json_fence
              "{'lat': 48.85, 'lng': 2.35}"
              (JDict [("lat", JFloat "48.85"); ("lng", JFloat "2.35")]))
    as (Hres & Hcalls & Hagain).
  - reflexivity.
  - intros n. reflexivity.
  - reflexivity.
  - reflexivity.
  - reflexivity.
  - reflexivity.
  - intros e. vm_compute. discriminate.
  - intros r. reflexivity.
  - reflexivity.
  - reflexivity.
  - split; [exact Hres|]. split; [exact Hcalls|].
    destruct (Hagain None
                (snd (geocode_location unit (env_healthy reply_json_fence)
                        loads_paris not_text "Paris" None empty_world))
                eq_refl) as [_ Hsame].
    + vm_compute. reflexivity.
    + rewrite Hsame. exact Hcalls.
Defined.

(** A reply without coordinates, asked about twice: one remote call, two
    errors. *)
Lemma geocode_location_bad_reply_sticks_witness :
  let E := env_healthy "I do not know this place." in
  let first := geocode_location unit E loads_paris not_text "Atlantis" None
                 empty_world in
  _generate_key (geocode_cache_key "Atlantis") "geocode"
  <> _generate_key
       (openai_cache_key (geocode_prompt "Atlantis")
          (Some geocode_system_prompt) "gpt-3.5-turbo" (JFloat "0.1") 100)
       "openai"
  /\ fst first = Ok (geocode_error "Expecting value")
  /\ remote_calls (snd first) = 1
  /\ fst (geocode_location unit E loads_paris not_text "Atlantis" None
            (snd first)) = Ok (geocode_error "Expecting value")
  /\ remote_calls
       (snd (geocode_location unit E loads_paris not_text "Atlantis" None
               (snd first))) = 1.
Proof.
  cbv zeta.
  assert (Hkeys : _generate_key (geocode_cache_key "Atlantis") "geocode"
                  <> _generate_key
                       (openai_cache_key (geocode_prompt "Atlantis")
                          (Some geocode_system_prompt) "gpt-3.5-turbo"
                          (JFloat "0.1") 100) "openai")
    by (vm_compute; discriminate).
  split; [exact Hkeys|].
  destruct (geocode_location_bad_reply_sticks unit
              (env_healthy "I do not know this place.") loads_paris not_text
              "Atlantis" None empty_world "I do not know this place."
              "I do not know this place." JSONDecodeError)
    as (Hres & Hcalls & _ & Hagain).
  - reflexivity.
  - intros n. reflexivity.
  - exact Hkeys.
  - reflexivity.
  - reflexivity.
  - reflexivity.
  - reflexivity.
  - intros e. vm_compute. discriminate.
  - intros r. reflexivity.
  - discriminate.
  - reflexivity.
  - reflexivity.
  - split; [exact Hres|]. split; [exact Hcalls|].
    destruct (Hagain None
                (snd (geocode_location unit
                        (env_healthy "I do not know this place.") loads_paris
                        not_text "Atlantis" None empty_world))
                eq_refl) as [Hres2 Hsame].
    + vm_compute. reflexivity.
    + vm_compute. reflexivity.
    + split; [exact Hres2|]. rewrite Hsame. exact Hcalls.
Defined.
